(** * thpool: a shallow embedding of thpool.cpp

    The C structures of the thread pool live in a heap of tagged objects
    indexed by addresses; every function of the source becomes a
    computation in a small state-and-error monad over a [world] made of that
    heap, the answers of the environment (allocator, scheduler) and the trace
    of the pthread and libc calls performed.  A function body that runs under
    one of the pool's locks is a single atomic computation; the places where
    the source gives control to other threads ([pthread_cond_wait], the
    start-up spin loop) read what those threads did from the world. *)

From Stdlib Require Import ZArith Lia.
From stdpp Require Import base option list gmap strings.

Local Open Scope Z_scope.

(** ** Machine integers *)

(** [int] is 32 bits wide; [++] and [--] are taken with two's complement
    wrap-around. *)
Definition INT_MIN : Z := - 2 ^ 31.
Definition INT_MAX : Z := 2 ^ 31 - 1.

Definition wrap (z : Z) : Z := (z + 2 ^ 31) mod 2 ^ 32 - 2 ^ 31.

Definition in_int (z : Z) : Prop := INT_MIN <= z <= INT_MAX.

(** ** Structures *)

Definition loc := positive.

(** A pointer into the heap; [None] is [NULL]. *)
Definition ptr := option loc.

(** Function pointers and opaque [void*] arguments are plain addresses. *)
Definition fnptr := Z.
Definition voidptr := Z.

(** Binary semaphore. *)
Record bsem := mk_bsem {
  v : Z;
  mutex_inzed : bool;
  cond_inzed : bool
}.

(** Job. *)
Record job := mk_job {
  prev : ptr;
  function : fnptr;
  arg : voidptr;
  signal_ : ptr
}.

(** Job queue. *)
Record jobqueue := mk_jobqueue {
  front : ptr;
  rear : ptr;
  has_jobs : ptr;
  len : Z;
  rwmutex_inzed : bool
}.

(** Thread. *)
Record thread := mk_thread {
  id : Z;
  thpool_p : ptr
}.

(** Threadpool. *)
Record thpool_ := mk_thpool {
  threads : ptr;
  num_threads_alive : Z;
  num_threads_working : Z;
  jobqueue_ : jobqueue;     (* the member [jobqueue] *)
  threads_keepalive : Z;
  thcount_lock_inzed : bool;
  threads_all_idle_inzed : bool
}.

(** What a heap cell holds. [Othreads] is the array of [thread*]. *)
Inductive obj :=
| Obsem (b : bsem)
| Ojob (j : job)
| Othread (t : thread)
| Othreads (a : list ptr)
| Othpool (p : thpool_).

(** The pthread objects of the program, named by the structure they sit in. *)
Inductive mutex :=
| bsem_mutex (p : loc)
| rwmutex
| thcount_lock.

Inductive cond :=
| bsem_cond (p : loc)
| threads_all_idle.

(** Calls into pthread and libc, in the order they are made. *)
Inductive event :=
| pthread_mutex_lock (m : mutex)
| pthread_mutex_unlock (m : mutex)
| pthread_mutex_init (m : mutex)
| pthread_mutex_destroy (m : mutex)
| pthread_cond_init (c : cond)
| pthread_cond_destroy (c : cond)
| pthread_cond_signal (c : cond)
| pthread_cond_broadcast (c : cond)
| pthread_cond_wait (c : cond) (m : mutex)
| pthread_create (t : loc)
| pthread_detach (t : loc)
| stick_call (t : loc) (core_id : Z)   (* stick_this_thread_to_core is entered *)
| pthread_setaffinity_np (t : loc) (core_id : Z)
| fprintf_stderr (msg : string).

(** ** The world *)

Record world := mk_world {
  heap : gmap loc obj;
  (** whether each coming [malloc] succeeds; past the end they all do *)
  mallocs : list bool;
  (** whether each coming [pthread_*_init] succeeds; past the end they do *)
  inits : list bool;
  (** what the other threads have stored in the variable a blocked or
      spinning thread watches, at each of its coming re-reads *)
  wakeups : list Z;
  trace : list event
}.

Definition set_heap (h : gmap loc obj) (w : world) : world :=
  mk_world h (mallocs w) (inits w) (wakeups w) (trace w).
Definition set_mallocs (l : list bool) (w : world) : world :=
  mk_world (heap w) l (inits w) (wakeups w) (trace w).
Definition set_inits (l : list bool) (w : world) : world :=
  mk_world (heap w) (mallocs w) l (wakeups w) (trace w).
Definition set_wakeups (l : list Z) (w : world) : world :=
  mk_world (heap w) (mallocs w) (inits w) l (trace w).
Definition set_trace (t : list event) (w : world) : world :=
  mk_world (heap w) (mallocs w) (inits w) (wakeups w) t.

(** ** Outcomes and the monad *)

Inductive outcome (A : Type) :=
| Ret (a : A) (w : world)       (* the call returns *)
| Exited (code : Z) (w : world) (* [exit(code)] *)
| Blocked (w : world)           (* still waiting when the schedule ends *)
| Fault.                        (* undefined behaviour: a bad dereference *)
Arguments Ret {A} a w.
Arguments Exited {A} code w.
Arguments Blocked {A} w.
Arguments Fault {A}.

Definition M (A : Type) : Type := world -> outcome A.

Definition ret {A} (a : A) : M A := fun w => Ret a w.

Definition bind {A B} (m : M A) (k : A -> M B) : M B :=
  fun w =>
    match m w with
    | Ret a w' => k a w'
    | Exited c w' => Exited c w'
    | Blocked w' => Blocked w'
    | Fault => Fault
    end.

Declare Scope thpool_scope.
Delimit Scope thpool_scope with thpool.
Notation "x ← y ; z" := (bind y (fun x => z))
  (at level 20, y at level 100, z at level 200, only parsing) : thpool_scope.
Notation "x ;; z" := (bind x (fun _ => z))
  (at level 100, z at level 200, only parsing, right associativity)
  : thpool_scope.
Local Open Scope thpool_scope.

Definition fault {A} : M A := fun _ => Fault.
Definition exit {A} (code : Z) : M A := fun w => Exited code w.
Definition blocked {A} : M A := fun w => Blocked w.

Definition call (e : event) : M unit :=
  fun w => Ret tt (set_trace (trace w ++ [e]) w).

(** [err(str)]: [THPOOL_DEBUG] is always defined by the time the macro is
    chosen, so it is the [fprintf(stderr, str)] branch. *)
Definition err (str : string) : M unit := call (fprintf_stderr str).

(** *** Heap access *)

Definition load (p : ptr) : M obj :=
  fun w =>
    match p with
    | None => Fault
    | Some l => match heap w !! l with
                | Some o => Ret o w
                | None => Fault
                end
    end.

Definition store (p : ptr) (o : obj) : M unit :=
  fun w =>
    match p with
    | None => Fault
    | Some l => match heap w !! l with
                | Some _ => Ret tt (set_heap (<[l := o]> (heap w)) w)
                | None => Fault
                end
    end.

(** [malloc]: the environment decides whether it succeeds; the block it
    returns is one that is not allocated.  [init] is what the block holds
    before the caller writes to it: the callers pass one of the [fresh_*]
    blocks below, whose contents are indeterminate. *)
Definition malloc (init : obj) : M ptr :=
  fun w =>
    let ok := match mallocs w with [] => true | b :: _ => b end in
    let w1 := set_mallocs (tail (mallocs w)) w in
    if ok then
      let l := fresh (dom (heap w)) in
      Ret (Some l) (set_heap (<[l := init]> (heap w)) w1)
    else Ret None w1.

(** [free(NULL)] does nothing. *)
Definition free (p : ptr) : M unit :=
  fun w =>
    match p with
    | None => Ret tt w
    | Some l => match heap w !! l with
                | Some _ => Ret tt (set_heap (delete l (heap w)) w)
                | None => Fault
                end
    end.

(** [pthread_mutex_init(..) == 0] and [pthread_cond_init(..) == 0]. *)
Definition init_ok (e : event) : M bool :=
  fun w =>
    let ok := match inits w with [] => true | b :: _ => b end in
    Ret ok (set_trace (trace w ++ [e]) (set_inits (tail (inits w)) w)).

Definition load_bsem (p : ptr) : M bsem :=
  o ← load p; if o is Obsem b then ret b else fault.
Definition load_job (p : ptr) : M job :=
  o ← load p; if o is Ojob j then ret j else fault.
Definition load_thread (p : ptr) : M thread :=
  o ← load p; if o is Othread t then ret t else fault.
Definition load_threads (p : ptr) : M (list ptr) :=
  o ← load p; if o is Othreads a then ret a else fault.
Definition load_thpool (p : ptr) : M thpool_ :=
  o ← load p; if o is Othpool t then ret t else fault.

(** [p->field] read and written through a typed pointer. *)
Definition get_v (p : ptr) : M Z :=
  b ← load_bsem p; ret (v b).
Definition set_v (p : ptr) (x : Z) : M unit :=
  b ← load_bsem p;
  store p (Obsem (mk_bsem x (mutex_inzed b) (cond_inzed b))).
Definition set_mutex_inzed (p : ptr) (x : bool) : M unit :=
  b ← load_bsem p;
  store p (Obsem (mk_bsem (v b) x (cond_inzed b))).
Definition set_cond_inzed (p : ptr) (x : bool) : M unit :=
  b ← load_bsem p;
  store p (Obsem (mk_bsem (v b) (mutex_inzed b) x)).

Definition set_prev (p : ptr) (x : ptr) : M unit :=
  j ← load_job p;
  store p (Ojob (mk_job x (function j) (arg j) (signal_ j))).
Definition set_function (p : ptr) (x : fnptr) : M unit :=
  j ← load_job p;
  store p (Ojob (mk_job (prev j) x (arg j) (signal_ j))).
Definition set_arg (p : ptr) (x : voidptr) : M unit :=
  j ← load_job p;
  store p (Ojob (mk_job (prev j) (function j) x (signal_ j))).
Definition set_signal_ (p : ptr) (x : ptr) : M unit :=
  j ← load_job p;
  store p (Ojob (mk_job (prev j) (function j) (arg j) x)).

Definition the_loc (p : ptr) : M loc :=
  if p is Some l then ret l else fault.

(** The job queue is a member of the pool structure and is handed to the
    queue functions by address; they are written here as taking the
    structure and giving it back. *)
Definition with_front (x : ptr) (q : jobqueue) : jobqueue :=
  mk_jobqueue x (rear q) (has_jobs q) (len q) (rwmutex_inzed q).
Definition with_rear (x : ptr) (q : jobqueue) : jobqueue :=
  mk_jobqueue (front q) x (has_jobs q) (len q) (rwmutex_inzed q).
Definition with_has_jobs (x : ptr) (q : jobqueue) : jobqueue :=
  mk_jobqueue (front q) (rear q) x (len q) (rwmutex_inzed q).
Definition with_len (x : Z) (q : jobqueue) : jobqueue :=
  mk_jobqueue (front q) (rear q) (has_jobs q) x (rwmutex_inzed q).
Definition with_rwmutex_inzed (x : bool) (q : jobqueue) : jobqueue :=
  mk_jobqueue (front q) (rear q) (has_jobs q) (len q) x.

(** Contents of a block that [malloc] has just returned.  C leaves them
    indeterminate: they are values that nothing can be proved about, and a
    field of a new block is known only once the code has written it. *)
Definition junk_bsem : bsem.
Proof. exact (mk_bsem 0 false false). Qed.
Definition junk_job : job.
Proof. exact (mk_job None 0 0 None). Qed.
Definition junk_thread : thread.
Proof. exact (mk_thread 0 None). Qed.
Definition junk_thpool : thpool_.
Proof.
  exact (mk_thpool None 0 0 (mk_jobqueue None None None 0 false) 0 false false).
Qed.
Definition junk_ptr : ptr.
Proof. exact None. Qed.

Definition fresh_bsem : obj := Obsem junk_bsem.
Definition fresh_job : obj := Ojob junk_job.
Definition fresh_thread : obj := Othread junk_thread.
Definition fresh_thpool : obj := Othpool junk_thpool.
Definition fresh_threads (n : nat) : obj := Othreads (replicate n junk_ptr).

(** ** Synchronisation *)

(** Init semaphore to 1 or 0. *)
Definition bsem_init (bsem_p : ptr) (value : Z) : M unit :=
  l ← the_loc bsem_p;
  set_mutex_inzed bsem_p false;;
  set_cond_inzed bsem_p false;;
  (if (value <? 0) || (value >? 1) then
     err "bsem_init(): Binary semaphore can take only values 1 or 0";;
     exit 1
   else ret tt);;
  mi ← init_ok (pthread_mutex_init (bsem_mutex l));
  set_mutex_inzed bsem_p mi;;
  ci ← init_ok (pthread_cond_init (bsem_cond l));
  set_cond_inzed bsem_p ci;;
  set_v bsem_p value.

(** Reset semaphore to 0. *)
Definition bsem_reset (bsem_p : ptr) : M unit :=
  l ← the_loc bsem_p;
  b ← load_bsem bsem_p;
  (if cond_inzed b then call (pthread_cond_destroy (bsem_cond l)) else ret tt);;
  (if mutex_inzed b then call (pthread_mutex_destroy (bsem_mutex l)) else ret tt);;
  bsem_init bsem_p 0.

(** Post to at least one thread. *)
Definition bsem_post (bsem_p : ptr) : M unit :=
  l ← the_loc bsem_p;
  call (pthread_mutex_lock (bsem_mutex l));;
  set_v bsem_p 1;;
  call (pthread_cond_signal (bsem_cond l));;
  call (pthread_mutex_unlock (bsem_mutex l)).

(** Post to all threads. *)
Definition bsem_post_all (bsem_p : ptr) : M unit :=
  l ← the_loc bsem_p;
  call (pthread_mutex_lock (bsem_mutex l));;
  set_v bsem_p 1;;
  call (pthread_cond_broadcast (bsem_cond l));;
  call (pthread_mutex_unlock (bsem_mutex l)).

(** [pthread_cond_wait(&bsem_p->cond, &bsem_p->mutex)]: the mutex is given
    up, other threads run, and the caller comes back holding the mutex with
    [bsem_p->v] as they left it, the head of the schedule [sched]; with no
    wake-up left the caller stays blocked.  This is the only place where the
    value changes under a waiting thread. *)
Definition bsem_cond_wait {A} (bsem_p : ptr) (l : loc) (sched : list Z)
    (k : list Z -> M A) : M A :=
  call (pthread_cond_wait (bsem_cond l) (bsem_mutex l));;
  match sched with
  | [] => blocked
  | x :: sched' =>
      (fun w => Ret tt (set_wakeups sched' w));;
      set_v bsem_p x;;
      k sched'
  end.

(** Wait on semaphore until semaphore has value 1. *)
Fixpoint bsem_wait_loop (bsem_p : ptr) (l : loc) (sched : list Z) : M unit :=
  x ← get_v bsem_p;
  if negb (x =? 1) then
    bsem_cond_wait bsem_p l sched (bsem_wait_loop bsem_p l)
  else ret tt.

Definition bsem_wait (bsem_p : ptr) : M unit :=
  l ← the_loc bsem_p;
  call (pthread_mutex_lock (bsem_mutex l));;
  (fun w => bsem_wait_loop bsem_p l (wakeups w) w);;
  (* bsem_p->v = 0; is commented out in the source *)
  call (pthread_mutex_unlock (bsem_mutex l)).

Definition bsem_destroy (bsem_p : ptr) : M unit :=
  l ← the_loc bsem_p;
  b ← load_bsem bsem_p;
  (if cond_inzed b then call (pthread_cond_destroy (bsem_cond l)) else ret tt);;
  (if mutex_inzed b then call (pthread_mutex_destroy (bsem_mutex l)) else ret tt);;
  free bsem_p.

Definition dec_bsem_init (bsem_p : ptr) (value : Z) : M unit :=
  l ← the_loc bsem_p;
  set_mutex_inzed bsem_p false;;
  set_cond_inzed bsem_p false;;
  (if value <? 0 then
     err "dec_bsem_init(): Dec semaphore can take only values gequal 0";;
     exit 1
   else ret tt);;
  mi ← init_ok (pthread_mutex_init (bsem_mutex l));
  set_mutex_inzed bsem_p mi;;
  ci ← init_ok (pthread_cond_init (bsem_cond l));
  set_cond_inzed bsem_p ci;;
  set_v bsem_p value.

(** Post to at least one thread. *)
Definition dec_bsem_post (bsem_p : ptr) : M unit :=
  l ← the_loc bsem_p;
  call (pthread_mutex_lock (bsem_mutex l));;
  x ← get_v bsem_p;
  set_v bsem_p (wrap (x - 1));;
  x ← get_v bsem_p;
  (if x =? 0 then call (pthread_cond_signal (bsem_cond l)) else ret tt);;
  call (pthread_mutex_unlock (bsem_mutex l)).

(** Post to all threads. *)
Definition dec_bsem_post_all (bsem_p : ptr) : M unit :=
  l ← the_loc bsem_p;
  call (pthread_mutex_lock (bsem_mutex l));;
  x ← get_v bsem_p;
  set_v bsem_p (wrap (x - 1));;
  call (pthread_cond_broadcast (bsem_cond l));;
  call (pthread_mutex_unlock (bsem_mutex l)).

(** Wait on semaphore until semaphore has value 0. *)
Fixpoint dec_bsem_wait_loop (bsem_p : ptr) (l : loc) (sched : list Z) : M unit :=
  x ← get_v bsem_p;
  if negb (x =? 0) then
    bsem_cond_wait bsem_p l sched (dec_bsem_wait_loop bsem_p l)
  else ret tt.

Definition dec_bsem_wait (bsem_p : ptr) : M unit :=
  l ← the_loc bsem_p;
  call (pthread_mutex_lock (bsem_mutex l));;
  (fun w => dec_bsem_wait_loop bsem_p l (wakeups w) w);;
  set_v bsem_p 0;;
  call (pthread_mutex_unlock (bsem_mutex l)).

(** ** Job queue *)

(** Initialize queue. *)
Definition jobqueue_init (q : jobqueue) : M (Z * jobqueue) :=
  let q := with_len 0 q in
  let q := with_front None q in
  let q := with_rear None q in
  let q := with_rwmutex_inzed false q in
  p ← malloc fresh_bsem;
  let q := with_has_jobs p q in
  if p is None then ret (-1, q)
  else
    mi ← init_ok (pthread_mutex_init rwmutex);
    let q := with_rwmutex_inzed mi q in
    bsem_init (has_jobs q) 0;;
    ret (0, q).

(** Add (allocated) job to queue. *)
Definition jobqueue_push (q : jobqueue) (newjob : ptr) : M jobqueue :=
  call (pthread_mutex_lock rwmutex);;
  set_prev newjob None;;
  q ← (if len q =? 0 then          (* if no jobs in queue *)
         ret (with_rear newjob (with_front newjob q))
       else                        (* if jobs in queue *)
         set_prev (rear q) newjob;;
         ret (with_rear newjob q));
  let q := with_len (wrap (len q + 1)) q in
  bsem_post_all (has_jobs q);;
  call (pthread_mutex_unlock rwmutex);;
  ret q.

(** Get first job from queue (removes it from queue). *)
Definition jobqueue_pull (q : jobqueue) : M (ptr * jobqueue) :=
  call (pthread_mutex_lock rwmutex);;
  let job_p := front q in
  q ← (if len q =? 0 then          (* if no jobs in queue *)
         ret q
       else if len q =? 1 then     (* if one job in queue *)
         ret (with_len 0 (with_rear None (with_front None q)))
       else                        (* if >1 jobs in queue *)
         j ← load_job job_p;
         ret (with_len (wrap (len q - 1)) (with_front (prev j) q)));
  (if len q =? 0 then
     l ← the_loc (has_jobs q);
     call (pthread_mutex_lock (bsem_mutex l));;
     set_v (has_jobs q) 0;;
     call (pthread_mutex_unlock (bsem_mutex l))
   else
     (* more than one job in queue -> post it *)
     bsem_post_all (has_jobs q));;
  call (pthread_mutex_unlock rwmutex);;
  ret (job_p, q).

(** Clear the queue.  [while (len)] pulls until [len] is 0, and a pull
    that does not crash takes 1 off [len]: the loop makes at most as many
    turns as it takes to bring the [int] down to 0, which is [len] itself
    when it is not negative and [2^32 + len] turns, through the overflow,
    when it is.  That number is the fuel. *)
Fixpoint jobqueue_clear_loop (fuel : nat) (q : jobqueue) : M jobqueue :=
  if len q =? 0 then ret q
  else match fuel with
       | O => blocked
       | S fuel' =>
           r ← jobqueue_pull q;
           free (fst r);;
           jobqueue_clear_loop fuel' (snd r)
       end.

Definition jobqueue_clear (q : jobqueue) : M jobqueue :=
  q ← jobqueue_clear_loop (Z.to_nat (len q mod 2 ^ 32)) q;
  let q := with_front None q in
  let q := with_rear None q in
  bsem_reset (has_jobs q);;
  ret (with_len 0 q).

(** Free all queue resources back to the system. *)
Definition jobqueue_destroy (q : jobqueue) : M jobqueue :=
  q ← jobqueue_clear q;
  (if rwmutex_inzed q then call (pthread_mutex_destroy rwmutex) else ret tt);;
  bsem_destroy (has_jobs q);;
  ret q.

(** ** Threads and the pool *)

Definition with_threads (x : ptr) (t : thpool_) : thpool_ :=
  mk_thpool x (num_threads_alive t) (num_threads_working t) (jobqueue_ t)
    (threads_keepalive t) (thcount_lock_inzed t) (threads_all_idle_inzed t).
Definition with_num_threads_alive (x : Z) (t : thpool_) : thpool_ :=
  mk_thpool (threads t) x (num_threads_working t) (jobqueue_ t)
    (threads_keepalive t) (thcount_lock_inzed t) (threads_all_idle_inzed t).
Definition with_num_threads_working (x : Z) (t : thpool_) : thpool_ :=
  mk_thpool (threads t) (num_threads_alive t) x (jobqueue_ t)
    (threads_keepalive t) (thcount_lock_inzed t) (threads_all_idle_inzed t).
Definition with_jobqueue (x : jobqueue) (t : thpool_) : thpool_ :=
  mk_thpool (threads t) (num_threads_alive t) (num_threads_working t) x
    (threads_keepalive t) (thcount_lock_inzed t) (threads_all_idle_inzed t).
Definition with_threads_keepalive (x : Z) (t : thpool_) : thpool_ :=
  mk_thpool (threads t) (num_threads_alive t) (num_threads_working t)
    (jobqueue_ t) x (thcount_lock_inzed t) (threads_all_idle_inzed t).
Definition with_thcount_lock_inzed (x : bool) (t : thpool_) : thpool_ :=
  mk_thpool (threads t) (num_threads_alive t) (num_threads_working t)
    (jobqueue_ t) (threads_keepalive t) x (threads_all_idle_inzed t).
Definition with_threads_all_idle_inzed (x : bool) (t : thpool_) : thpool_ :=
  mk_thpool (threads t) (num_threads_alive t) (num_threads_working t)
    (jobqueue_ t) (threads_keepalive t) (thcount_lock_inzed t) x.

(** [thpool_p->field = x]. *)
Definition upd_thpool (thpool_p : ptr) (f : thpool_ -> thpool_) : M unit :=
  t ← load_thpool thpool_p;
  store thpool_p (Othpool (f t)).

(** A queue function run on [&thpool_p->jobqueue]. *)
Definition on_jobqueue {A} (thpool_p : ptr) (f : jobqueue -> M (A * jobqueue))
    : M A :=
  t ← load_thpool thpool_p;
  r ← f (jobqueue_ t);
  upd_thpool thpool_p (with_jobqueue (snd r));;
  ret (fst r).

(** What the build and the machine decide. *)
Record platform := mk_platform {
  LINUX : bool;             (* the LINUX macro is defined *)
  CPU_COUNT : Z;            (* cpus in the mask sched_getaffinity fills in *)
  NPROCESSORS_ONLN : Z      (* sysconf(_SC_NPROCESSORS_ONLN) *)
}.

Definition EINVAL : Z := 22.

Section Pool.
Context (pf : platform).

Definition nprocs : Z :=
  if LINUX pf then CPU_COUNT pf else 1.

(** The call is logged with its arguments, as the event [stick_call], before
    anything else. *)
Definition stick_this_thread_to_core (thread_p : loc) (core_id : Z) : M Z :=
  call (stick_call thread_p core_id);;
  if LINUX pf then
    let num_cores := NPROCESSORS_ONLN pf in
    if (core_id <? 0) || (core_id >=? num_cores) then ret EINVAL
    else call (pthread_setaffinity_np thread_p core_id);; ret 0
  else ret 0.

(** Initialize a thread in the thread pool.  [thread_p] is
    [&thpool_p->threads[n]], given as the array and the index. *)
Definition thread_init (thpool_p : ptr) (arr : ptr) (n : Z)
    (id : Z) (preffed_cpu : Z) : M Z :=
  t ← malloc fresh_thread;
  a ← load_threads arr;
  (if (0 <=? n) && (n <? Z.of_nat (length a))
   then store arr (Othreads (<[Z.to_nat n := t]> a))
   else fault);;
  (* [thread_p == NULL] compares the address of the slot: never true *)
  (* the new thread structure gets its thpool_p and id *)
  load_thread t;;
  store t (Othread (mk_thread id thpool_p));;
  l ← the_loc t;
  call (pthread_create l);;
  (if preffed_cpu >=? 0
   then stick_this_thread_to_core l preffed_cpu;; ret tt
   else ret tt);;
  call (pthread_detach l);;
  ret 0.

(** [for (n=0; n<num_threads; n++)], the body run [fuel] times at most;
    [num_threads] is enough fuel, see [thread_init_loop_returns]. *)
Fixpoint thread_init_loop (fuel : nat) (thpool_p : ptr) (arr : ptr)
    (num_threads n_of_threads : Z) (n k : Z) : M unit :=
  if n <? num_threads then
    match fuel with
    | O => blocked
    | S fuel' =>
        thread_init thpool_p arr n n k;;
        let k := wrap (k + 1) in
        let k := if k >=? n_of_threads then 0 else k in
        thread_init_loop fuel' thpool_p arr num_threads n_of_threads
          (wrap (n + 1)) k
    end
  else ret tt.

(** [while (thpool_p->num_threads_alive != num_threads) {}]: between two
    reads of the volatile counter the worker threads run; [sched] is what
    they leave in it at each re-read. *)
Fixpoint alive_spin (thpool_p : ptr) (num_threads : Z) (sched : list Z)
    : M unit :=
  t ← load_thpool thpool_p;
  if negb (num_threads_alive t =? num_threads) then
    match sched with
    | [] => blocked
    | x :: sched' =>
        (fun w => Ret tt (set_wakeups sched' w));;
        upd_thpool thpool_p (with_num_threads_alive x);;
        alive_spin thpool_p num_threads sched'
    end
  else ret tt.

(** Initialise thread pool. *)
Definition thpool_init (num_threads : Z) : M ptr :=
  let num_threads := if num_threads <? 0 then 0 else num_threads in
  (* Make new thread pool *)
  thpool_p ← malloc fresh_thpool;
  if thpool_p is None then
    err "thpool_init(): Could not allocate memory for thread pool\n";;
    ret None
  else
    upd_thpool thpool_p (with_num_threads_alive 0);;
    upd_thpool thpool_p (with_num_threads_working 0);;
    upd_thpool thpool_p (with_threads_keepalive 1);;
    upd_thpool thpool_p (with_thcount_lock_inzed false);;
    upd_thpool thpool_p (with_threads_all_idle_inzed false);;
    (* Initialise the job queue *)
    r ← on_jobqueue thpool_p jobqueue_init;
    if r =? -1 then
      err "thpool_init(): Could not allocate memory for job queue\n";;
      free thpool_p;;
      ret None
    else
      (* Make threads in pool *)
      arr ← malloc (fresh_threads (Z.to_nat num_threads));
      upd_thpool thpool_p (with_threads arr);;
      if arr is None then
        err "thpool_init(): Could not allocate memory for threads\n";;
        on_jobqueue thpool_p (fun q => q' ← jobqueue_destroy q; ret (tt, q'));;
        free thpool_p;;
        ret None
      else
        li ← init_ok (pthread_mutex_init thcount_lock);
        upd_thpool thpool_p (with_thcount_lock_inzed li);;
        ci ← init_ok (pthread_cond_init threads_all_idle);
        upd_thpool thpool_p (with_threads_all_idle_inzed ci);;
        let n_of_threads := nprocs in
        (* Thread init *)
        thread_init_loop (Z.to_nat num_threads) thpool_p arr
          num_threads n_of_threads 0 0;;
        (* Wait for threads to initialize *)
        (fun w => alive_spin thpool_p num_threads (wakeups w) w);;
        ret thpool_p.
End Pool.

(** Add work to the thread pool. *)
Definition thpool_add_work (thpool_p : ptr) (function_p : fnptr)
    (arg_p : voidptr) : M Z :=
  newjob ← malloc fresh_job;
  if newjob is None then
    err "thpool_add_work(): Could not allocate memory for new job\n";;
    ret (-1)
  else
    (* add function and argument *)
    set_function newjob function_p;;
    set_arg newjob arg_p;;
    set_signal_ newjob None;;
    (* add job to queue *)
    on_jobqueue thpool_p (fun q => q' ← jobqueue_push q newjob; ret (tt, q'));;
    ret 0.

(** Add work to the thread pool, with a semaphore to post on completion. *)
Definition thpool_add_work_with_sem (thpool_p : ptr) (signal_p : ptr)
    (function_p : fnptr) (arg_p : voidptr) : M Z :=
  newjob ← malloc fresh_job;
  if newjob is None then
    err "thpool_add_work_and_wait(): Could not allocate memory for new job\n";;
    ret (-1)
  else if signal_p is None then
    err "thpool_add_work_and_wait(): signal_p is NULL\n";;
    ret (-2)
  else
    (* add function and argument *)
    set_function newjob function_p;;
    set_arg newjob arg_p;;
    set_signal_ newjob signal_p;;
    (* add job to queue *)
    on_jobqueue thpool_p (fun q => q' ← jobqueue_push q newjob; ret (tt, q'));;
    ret 0.

Definition thpool_wait_cond (el : ptr) : M unit :=
  dec_bsem_wait el;;
  bsem_destroy el.

Definition thpool_decsem_init (value : Z) : M ptr :=
  el ← malloc fresh_bsem;
  dec_bsem_init el value;;
  ret el.

Definition thpool_num_threads_working (thpool_p : ptr) : M Z :=
  t ← load_thpool thpool_p;
  ret (num_threads_working t).

(** ** The worker, waiting for the pool and destroying it *)

(** [DO_SLEEP0ms] and [DO_SLEEP1ms] ([nanosleep], [Sleep]) only let time
    pass. *)
Definition DO_SLEEP0ms : M unit := ret tt.
Definition DO_SLEEP1ms : M unit := ret tt.

(** Frees a thread. *)
Definition thread_destroy (thread_p : ptr) : M unit := free thread_p.

(** Pause and resume are empty in the source. *)
Definition thpool_pause (thpool_p : ptr) : M unit := ret tt.
Definition thpool_resume (thpool_p : ptr) : M unit := ret tt.

Section Worker.
(** What calling the function of a job on its argument does: the jobs are
    the user's code. *)
Context (call_job : fnptr -> voidptr -> M unit).

(** One turn of the loop [while(thpool_p->threads_keepalive)] of
    [thread_do]. *)
Definition thread_do_turn (thpool_p : ptr) : M unit :=
  tp ← load_thpool thpool_p;
  bsem_wait (has_jobs (jobqueue_ tp));;
  tp ← load_thpool thpool_p;
  if negb (threads_keepalive tp =? 0) then
    call (pthread_mutex_lock thcount_lock);;
    upd_thpool thpool_p
      (fun t => with_num_threads_working (wrap (num_threads_working t + 1)) t);;
    call (pthread_mutex_unlock thcount_lock);;
    (* Read job from queue and execute it *)
    job_p ← on_jobqueue thpool_p jobqueue_pull;
    (if job_p is Some _ then
       jb ← load_job job_p;
       call_job (function jb) (arg jb);;
       jb ← load_job job_p;
       (if signal_ jb is Some _ then dec_bsem_post (signal_ jb) else ret tt);;
       free job_p
     else ret tt);;
    call (pthread_mutex_lock thcount_lock);;
    upd_thpool thpool_p
      (fun t => with_num_threads_working (wrap (num_threads_working t - 1)) t);;
    tp ← load_thpool thpool_p;
    (if num_threads_working tp =? 0
     then call (pthread_cond_signal threads_all_idle)
     else ret tt);;
    call (pthread_mutex_unlock thcount_lock);;
    DO_SLEEP0ms
  else ret tt.

(** The loop itself does not end while [threads_keepalive] is set; it is
    run for [fuel] turns at most, and is still going after them. *)
Fixpoint thread_do_loop (fuel : nat) (thpool_p : ptr) : M unit :=
  tp ← load_thpool thpool_p;
  if negb (threads_keepalive tp =? 0) then
    match fuel with
    | O => blocked
    | S fuel' => thread_do_turn thpool_p;; thread_do_loop fuel' thpool_p
    end
  else ret tt.

(** What each thread is doing. *)
Definition thread_do (fuel : nat) (thread_p : ptr) : M ptr :=
  th ← load_thread thread_p;
  let pool := thpool_p th in
  (* Mark thread as alive (initialized) *)
  call (pthread_mutex_lock thcount_lock);;
  upd_thpool pool
    (fun t => with_num_threads_alive (wrap (num_threads_alive t + 1)) t);;
  call (pthread_mutex_unlock thcount_lock);;
  thread_do_loop fuel pool;;
  call (pthread_mutex_lock thcount_lock);;
  upd_thpool pool
    (fun t => with_num_threads_alive (wrap (num_threads_alive t - 1)) t);;
  call (pthread_mutex_unlock thcount_lock);;
  ret None.
End Worker.

(** Wait until all jobs have finished.  At each return of
    [pthread_cond_wait] on [threads_all_idle] the workers have moved the
    length of the queue and the number of working threads: [sched] gives the
    two values they left, wake-up after wake-up. *)
Fixpoint thpool_wait_loop (thpool_p : ptr) (sched : list (Z * Z)) : M unit :=
  tp ← load_thpool thpool_p;
  if negb (len (jobqueue_ tp) =? 0) || negb (num_threads_working tp =? 0) then
    call (pthread_cond_wait threads_all_idle thcount_lock);;
    match sched with
    | [] => blocked
    | (l, k) :: sched' =>
        upd_thpool thpool_p
          (fun t => with_num_threads_working k
                      (with_jobqueue (with_len l (jobqueue_ t)) t));;
        DO_SLEEP0ms;;
        thpool_wait_loop thpool_p sched'
    end
  else ret tt.

Definition thpool_wait (thpool_p : ptr) (sched : list (Z * Z)) : M unit :=
  call (pthread_mutex_lock thcount_lock);;
  thpool_wait_loop thpool_p sched;;
  call (pthread_mutex_unlock thcount_lock).

(** Destroy the threadpool.  [sched] is what the caller reads at each turn
    of its two polling loops: whether less than [TIMEOUT] seconds have
    passed since the start, and the number of threads still alive. *)
Fixpoint destroy_grace (thpool_p : ptr) (in_time : bool)
    (sched : list (bool * Z)) : M (list (bool * Z)) :=
  tp ← load_thpool thpool_p;
  if in_time && negb (num_threads_alive tp =? 0) then
    bsem_post_all (has_jobs (jobqueue_ tp));;
    match sched with
    | [] => blocked
    | (t, a) :: sched' =>
        upd_thpool thpool_p (with_num_threads_alive a);;
        destroy_grace thpool_p t sched'
    end
  else ret sched.

Fixpoint destroy_poll (thpool_p : ptr) (sched : list (bool * Z)) : M unit :=
  tp ← load_thpool thpool_p;
  if negb (num_threads_alive tp =? 0) then
    bsem_post_all (has_jobs (jobqueue_ tp));;
    DO_SLEEP1ms;;
    match sched with
    | [] => blocked
    | (_, a) :: sched' =>
        upd_thpool thpool_p (with_num_threads_alive a);;
        destroy_poll thpool_p sched'
    end
  else ret tt.

(** [for (n=0; n < threads_total; n++) thread_destroy(thpool_p->threads[n])] *)
Fixpoint destroy_threads (fuel : nat) (thpool_p : ptr) (threads_total n : Z)
    : M unit :=
  if n <? threads_total then
    match fuel with
    | O => blocked
    | S fuel' =>
        tp ← load_thpool thpool_p;
        a ← load_threads (threads tp);
        (if 0 <=? n then
           match a !! Z.to_nat n with
           | Some t => thread_destroy t
           | None => fault
           end
         else fault);;
        destroy_threads fuel' thpool_p threads_total (wrap (n + 1))
    end
  else ret tt.

Definition thpool_destroy (thpool_p : ptr) (sched : list (bool * Z)) : M unit :=
  (* No need to destory if it's NULL *)
  if thpool_p is None then ret tt
  else
    tp ← load_thpool thpool_p;
    let threads_total := num_threads_alive tp in
    (* End each thread 's infinite loop *)
    upd_thpool thpool_p (with_threads_keepalive 0);;
    (* Give one second to kill idle threads *)
    sched ← destroy_grace thpool_p true sched;
    (* Poll remaining threads *)
    destroy_poll thpool_p sched;;
    (* Job queue cleanup *)
    on_jobqueue thpool_p (fun q => q' ← jobqueue_destroy q; ret (tt, q'));;
    (* Deallocs *)
    destroy_threads (Z.to_nat threads_total) thpool_p threads_total 0;;
    tp ← load_thpool thpool_p;
    (if thcount_lock_inzed tp
     then call (pthread_mutex_destroy thcount_lock) else ret tt);;
    (if threads_all_idle_inzed tp
     then call (pthread_cond_destroy threads_all_idle) else ret tt);;
    free (threads tp);;
    free thpool_p.

(** * What the properties speak of *)

(** The value of the signal at [l]. *)
Definition value_at (l : loc) (w : world) : option Z :=
  match heap w !! l with
  | Some (Obsem b) => Some (v b)
  | _ => None
  end.

(** [n] completions posted one after the other on the same signal. *)
Fixpoint posts (n : nat) (bsem_p : ptr) : M unit :=
  match n with
  | O => ret tt
  | S n' => dec_bsem_post bsem_p;; posts n' bsem_p
  end.

(** How many times the condition of the signal at [l] was signalled. *)
Definition is_signal (l : loc) (e : event) : bool :=
  match e with
  | pthread_cond_signal (bsem_cond l') => bool_decide (l' = l)
  | _ => false
  end.

Definition signals (l : loc) (tr : list event) : nat :=
  length (List.filter (is_signal l) tr).


(** ** The queue as a sequence of jobs *)

(** [linked h p js]: following [prev] from [p] in the heap [h] goes through
    the job structures at [js], front first, and ends on [NULL]. *)
Fixpoint linked (h : gmap loc obj) (p : ptr) (js : list loc) : bool :=
  match js with
  | [] => bool_decide (p = None)
  | j :: js' =>
      bool_decide (p = Some j) &&
      match h !! j with
      | Some (Ojob jb) => linked h (prev jb) js'
      | _ => false
      end
  end.

Definition is_bsem (h : gmap loc obj) (p : ptr) : bool :=
  match p with
  | Some l => if h !! l is Some (Obsem _) then true else false
  | None => false
  end.

Definition is_job (h : gmap loc obj) (l : loc) : bool :=
  if h !! l is Some (Ojob _) then true else false.

(** The queue structure [q] holds the jobs [js], front first. *)
Definition queue_rep (w : world) (q : jobqueue) (js : list loc) : Prop :=
  linked (heap w) (front q) js = true /\
  rear q = last js /\
  len q = Z.of_nat (length js) /\
  Z.of_nat (length js) <= INT_MAX /\
  NoDup js /\
  is_bsem (heap w) (has_jobs q) = true.

(** The value of the queue's [has_jobs] semaphore. *)
Definition has_jobs_v (w : world) (q : jobqueue) : option Z :=
  match has_jobs q with
  | Some l => value_at l w
  | None => None
  end.

(** Any succession of pushes and pulls, and what a first-in first-out list
    answers to it. *)
Inductive qop :=
| Push (j : loc)
| Pull.

Fixpoint run_qops (ops : list qop) (q : jobqueue) : M (list ptr * jobqueue) :=
  match ops with
  | [] => ret ([], q)
  | Push j :: ops' => q' ← jobqueue_push q (Some j); run_qops ops' q'
  | Pull :: ops' =>
      r ← jobqueue_pull q;
      r' ← run_qops ops' (snd r);
      ret (fst r :: fst r', snd r')
  end.

Fixpoint fifo (ops : list qop) (js : list loc) : list ptr * list loc :=
  match ops with
  | [] => ([], js)
  | Push j :: ops' => fifo ops' (js ++ [j])
  | Pull :: ops' => let r := fifo ops' (tail js) in (head js :: fst r, snd r)
  end.

(** The pushes are of allocated jobs that are not in the queue at that
    time, and the queue never grows beyond [INT_MAX]. *)
Fixpoint qops_ok (h : gmap loc obj) (ops : list qop) (js : list loc) : Prop :=
  match ops with
  | [] => True
  | Push j :: ops' =>
      is_job h j = true /\ (j ∉ js) /\ Z.of_nat (length js) < INT_MAX /\
      qops_ok h ops' (js ++ [j])
  | Pull :: ops' => qops_ok h ops' (tail js)
  end.

(** What the queue functions leave alone: a job keeps its function,
    argument and signal; what is neither a job nor the queue's semaphore
    is untouched; no answer of the environment is consumed. *)
Definition same_payload (jb jb' : job) : Prop :=
  function jb' = function jb /\ arg jb' = arg jb /\ signal_ jb' = signal_ jb.

Definition queue_frame (q : jobqueue) (w w' : world) : Prop :=
  (forall l jb, heap w !! l = Some (Ojob jb) ->
     exists jb', heap w' !! l = Some (Ojob jb') /\ same_payload jb jb') /\
  (forall l, is_job (heap w) l = false -> Some l <> has_jobs q ->
     heap w' !! l = heap w !! l) /\
  mallocs w' = mallocs w /\ inits w' = inits w /\ wakeups w' = wakeups w.

(** Jobs pushed one after the other, and [n] pulls in a row. *)
Fixpoint push_all (q : jobqueue) (js : list loc) : M jobqueue :=
  match js with
  | [] => ret q
  | j :: js' => q' ← jobqueue_push q (Some j); push_all q' js'
  end.

Fixpoint pull_n (n : nat) (q : jobqueue) : M (list ptr * jobqueue) :=
  match n with
  | O => ret ([], q)
  | S n' =>
      r ← jobqueue_pull q;
      r' ← pull_n n' (snd r);
      ret (fst r :: fst r', snd r')
  end.

(** The invariant of the queue's signal: it is up whenever jobs are queued. *)
Definition has_jobs_inv (w : world) (q : jobqueue) : Prop :=
  len q > 0 -> has_jobs_v w q = Some 1.

(** The first [n] allocations to come all succeed. *)
Definition allocs_ok (n : nat) (ms : list bool) : bool :=
  forallb (fun b => b) (take n ms).

Definition allocs_succeed (n : nat) (w : world) : bool :=
  allocs_ok n (mallocs w).

(** The calls to [stick_this_thread_to_core], in order: the thread
    structure and the core it was given. *)
Definition stick_of (e : event) : option (loc * Z) :=
  match e with
  | stick_call t c => Some (t, c)
  | _ => None
  end.

Definition sticks (tr : list event) : list (loc * Z) :=
  omap stick_of tr.

(** The calls a thread start makes for the core [k]: none for a negative
    [k]; otherwise [stick_this_thread_to_core] is entered, and it sets the
    affinity only on Linux with [k] below the number of processors online. *)
Definition pin_events (pf : platform) (t : loc) (k : Z) : list event :=
  if k <? 0 then []
  else stick_call t k ::
       (if LINUX pf && (k <? NPROCESSORS_ONLN pf)
        then [pthread_setaffinity_np t k] else []).

(** The signal a queued job will post on completion, and how many of the
    jobs [js] post on [sg]. *)
Definition signal_of (w : world) (j : loc) : ptr :=
  match heap w !! j with
  | Some (Ojob jb) => signal_ jb
  | _ => None
  end.

Definition completions (w : world) (sg : loc) (js : list loc) : nat :=
  length (List.filter (fun j => bool_decide (signal_of w j = Some sg)) js).

(** The jobs [fs], each a function and its argument, handed to the pool
    one after the other with the same completion signal [el]. *)
Fixpoint submit_all (thpool_p el : ptr) (fs : list (fnptr * voidptr))
    : M unit :=
  match fs with
  | [] => ret tt
  | (f, a) :: fs' =>
      thpool_add_work_with_sem thpool_p el f a;;
      submit_all thpool_p el fs'
  end.

(** ** Small worlds to run the functions on *)

(** One signal, at address 1, holding [x]; [ws] is what the other threads
    will leave in it at each wake-up of a waiter. *)
Definition signal_world (x : Z) (ws : list Z) : world :=
  mk_world {[ 1%positive := Obsem (mk_bsem x true true) ]} [] [] ws [].

(** A queue that holds the job at 3, its semaphore at 2, and two jobs at 4
    and 5 that are allocated but not queued. *)
Definition queue_3 : jobqueue :=
  mk_jobqueue (Some 3%positive) (Some 3%positive) (Some 2%positive) 1 true.

Definition queue_world : world :=
  mk_world
    (<[2%positive := Obsem (mk_bsem 1 true true)]>
       (<[3%positive := Ojob (mk_job None 30 31 None)]>
          (<[4%positive := Ojob (mk_job None 40 41 None)]>
             (<[5%positive := Ojob (mk_job None 50 51 None)]> ∅))))
    [] [] [] [].

(** A pool at 1 without threads whose queue is empty, the queue's
    semaphore at 2 and a completion signal at 3; [ms] are the answers of
    the allocator. *)
Definition pool_0 : thpool_ :=
  mk_thpool None 0 0
    (mk_jobqueue None None (Some 2%positive) 0 true) 1 true true.

Definition pool_world (ms : list bool) : world :=
  mk_world
    (<[1%positive := Othpool pool_0]>
       (<[2%positive := Obsem (mk_bsem 0 true true)]>
          (<[3%positive := Obsem (mk_bsem 1 true true)]> ∅)))
    ms [] [] [].

(** A Linux machine with two processors in the affinity mask out of four,
    and a world with nothing allocated where the worker threads are seen
    alive one, then all three. *)
Definition two_of_four : platform := mk_platform true 2 4.

Definition empty_world : world := mk_world ∅ [] [] [1; 3] [].

(** The world in which an outcome leaves the program. *)
Definition world_of {A} (o : outcome A) (w0 : world) : world :=
  match o with
  | Ret _ w => w
  | Exited _ w => w
  | Blocked w => w
  | Fault => w0
  end.

Definition pool_3_world : world :=
  Eval vm_compute in world_of (thpool_init two_of_four 3 empty_world) empty_world.

Definition waited_world : world :=
  Eval vm_compute in
    world_of (bsem_wait (Some 1%positive) (signal_world 0 [0; 1; 7]))
      (signal_world 0 []).

Definition dec_waited_world : world :=
  Eval vm_compute in
    world_of (dec_bsem_wait (Some 1%positive) (signal_world 2 [1; 0; 7]))
      (signal_world 0 []).

(** The pool of three workers that [thpool_init] leaves at 1 in
    [pool_3_world], its semaphore at 2, its array at 3 and the thread
    structures at 4, 5 and 6. *)
Definition pool_3 : thpool_ :=
  mk_thpool (Some 3%positive) 3 0
    (mk_jobqueue None None (Some 2%positive) 0 true) 1 true true.

(** A world where the second allocation fails. *)
Definition scarce_world : world := mk_world ∅ [true; false] [] [] [].

(** An array of two thread pointers at 2, nothing else. *)
Definition array_world (ms : list bool) : world :=
  mk_world {[ 2%positive := Othreads [None; None] ]} ms [] [] [].

(** A pool at 1 that is being destroyed ([threads_keepalive] is 0) and a
    thread structure at 4 for a worker that has not started yet. *)
Definition stopped_pool : thpool_ :=
  mk_thpool None 0 0 (mk_jobqueue None None (Some 2%positive) 0 true)
    0 true true.

Definition stopped_world : world :=
  mk_world
    (<[1%positive := Othpool stopped_pool]>
       (<[2%positive := Obsem (mk_bsem 0 true true)]>
          (<[4%positive := Othread (mk_thread 0 (Some 1%positive))]> ∅)))
    [] [] [] [].

(** A pool at 1 whose queue holds the jobs at 3 and 5, both naming the
    completion signal at 6 that was made for two jobs; the queue's
    semaphore is at 2 and the thread structure of the worker at 4. *)
Definition loaded_pool : thpool_ :=
  mk_thpool None 0 0
    (mk_jobqueue (Some 3%positive) (Some 5%positive) (Some 2%positive) 2 true)
    1 true true.

Definition loaded_world : world :=
  mk_world
    (<[1%positive := Othpool loaded_pool]>
       (<[2%positive := Obsem (mk_bsem 1 true true)]>
          (<[3%positive := Ojob (mk_job (Some 5%positive) 30 31 (Some 6%positive))]>
             (<[4%positive := Othread (mk_thread 0 (Some 1%positive))]>
                (<[5%positive := Ojob (mk_job None 50 51 (Some 6%positive))]>
                   (<[6%positive := Obsem (mk_bsem 2 true true)]> ∅))))))
    [] [] [] [].

(** A pool at 1 with an empty queue, kept alive, the queue's semaphore at
    2 holding [x], and the thread structure of a worker at 4. *)
Definition ready_world (x : Z) : world :=
  mk_world
    (<[1%positive := Othpool pool_0]>
       (<[2%positive := Obsem (mk_bsem x true true)]>
          (<[4%positive := Othread (mk_thread 0 (Some 1%positive))]> ∅)))
    [] [] [] [].

(** Jobs that do nothing. *)
Definition idle_job : fnptr -> voidptr -> M unit := fun _ _ => ret tt.

(** * Properties *)

(** ** Running the primitives *)

Lemma bind_Ret {A B} (m : M A) (k : A -> M B) w a w' :
  m w = Ret a w' -> bind m k w = k a w'.
Proof. unfold bind. intros ->. reflexivity. Qed.

Lemma load_bsem_Ret l b w :
  heap w !! l = Some (Obsem b) -> load_bsem (Some l) w = Ret b w.
Proof. intros H. unfold load_bsem, bind, load. rewrite H. reflexivity. Qed.

Lemma get_v_Ret l b w :
  heap w !! l = Some (Obsem b) -> get_v (Some l) w = Ret (v b) w.
Proof. intros H. unfold get_v. rewrite (bind_Ret _ _ _ _ _ (load_bsem_Ret _ _ _ H)). reflexivity. Qed.

Lemma store_Ret l o o' w :
  heap w !! l = Some o' ->
  store (Some l) o w = Ret tt (set_heap (<[l := o]> (heap w)) w).
Proof. intros H. unfold store. rewrite H. reflexivity. Qed.

Lemma set_v_Ret l b x w :
  heap w !! l = Some (Obsem b) ->
  set_v (Some l) x w =
    Ret tt (set_heap (<[l := Obsem (mk_bsem x (mutex_inzed b) (cond_inzed b))]> (heap w)) w).
Proof.
  intros H. unfold set_v.
  rewrite (bind_Ret _ _ _ _ _ (load_bsem_Ret _ _ _ H)).
  apply (store_Ret _ _ _ _ H).
Qed.


Ltac unfold_ops :=
  unfold bsem_post, bsem_post_all, dec_bsem_post, dec_bsem_post_all,
    set_v, get_v, set_mutex_inzed, set_cond_inzed, set_prev, set_function,
    set_arg, set_signal_, load_bsem, load_job, load_thread, load_threads,
    load_thpool, the_loc, err, call, init_ok, store, load, exit, blocked,
    fault, bind, ret,
    set_heap, set_trace, set_mallocs, set_inits, set_wakeups in *.

Ltac run_step :=
  match goal with
  | H : ?h !! ?l = Some _ |- context [?h !! ?l] => rewrite H
  | |- context [<[?l := _]> _ !! ?l] => rewrite lookup_insert_eq
  | H : ?l ≠ ?l' |- context [<[?l := _]> _ !! ?l'] =>
      rewrite (lookup_insert_ne _ l l') by exact H
  | H : ?l' ≠ ?l |- context [<[?l := _]> _ !! ?l'] =>
      rewrite (lookup_insert_ne _ l l') by (intros ?; apply H; congruence)
  | |- context [<[?l := _]> (<[?l := _]> _)] => rewrite insert_insert_eq
  | |- context [mk_world _ _ _ _ ((_ ++ _) ++ _)] =>
      rewrite <- (@app_assoc event)
  end.

Ltac run := unfold_ops; cbn in *; repeat (run_step; cbn).

Lemma bsem_post_Ret l b w :
  heap w !! l = Some (Obsem b) ->
  bsem_post (Some l) w =
    Ret tt (mk_world (<[l := Obsem (mk_bsem 1 (mutex_inzed b) (cond_inzed b))]> (heap w))
              (mallocs w) (inits w) (wakeups w)
              (trace w ++ [pthread_mutex_lock (bsem_mutex l);
                           pthread_cond_signal (bsem_cond l);
                           pthread_mutex_unlock (bsem_mutex l)])).
Proof.
  intros H. destruct w. run. reflexivity. 
Qed.

Lemma wrap_in_int z : in_int z -> wrap z = z.
Proof.
  unfold in_int, INT_MIN, INT_MAX, wrap. intros H.
  rewrite Z.mod_small; lia.
Qed.

Lemma wrap_range z : in_int (wrap z).
Proof.
  unfold in_int, INT_MIN, INT_MAX, wrap.
  pose proof (Z.mod_pos_bound (z + 2 ^ 31) (2 ^ 32)). lia.
Qed.

Lemma bsem_post_all_Ret l b w :
  heap w !! l = Some (Obsem b) ->
  bsem_post_all (Some l) w =
    Ret tt (mk_world (<[l := Obsem (mk_bsem 1 (mutex_inzed b) (cond_inzed b))]> (heap w))
              (mallocs w) (inits w) (wakeups w)
              (trace w ++ [pthread_mutex_lock (bsem_mutex l);
                           pthread_cond_broadcast (bsem_cond l);
                           pthread_mutex_unlock (bsem_mutex l)])).
Proof.
  intros H. destruct w. run. reflexivity.
Qed.

Lemma value_at_insert l b h ms its ws tr :
  value_at l (mk_world (<[l := Obsem b]> h) ms its ws tr) = Some (v b).
Proof. unfold value_at. cbn. rewrite lookup_insert_eq. reflexivity. Qed.

(** ** LevelSignal: post and post_all *)

(** C10. [bsem_post] and [bsem_post_all] leave the value at 1 whatever it
    was, and a second application changes nothing in the heap: both are
    idempotent on the value. *)
Theorem bsem_post_idempotent (w : world) (l : loc) (b : bsem) :
  heap w !! l = Some (Obsem b) ->
  (exists w1 w2,
      bsem_post (Some l) w = Ret tt w1 /\
      bsem_post (Some l) w1 = Ret tt w2 /\
      value_at l w1 = Some 1 /\
      value_at l w2 = value_at l w1 /\
      heap w2 = heap w1) /\
  (exists w1 w2,
      bsem_post_all (Some l) w = Ret tt w1 /\
      bsem_post_all (Some l) w1 = Ret tt w2 /\
      value_at l w1 = Some 1 /\
      value_at l w2 = value_at l w1 /\
      heap w2 = heap w1).
Proof.
  intros H. split.
  - rewrite (bsem_post_Ret _ _ _ H).
    eexists. eexists. split; [reflexivity|].
    split; [apply bsem_post_Ret; cbn; apply lookup_insert_eq|].
    rewrite !value_at_insert. cbn.
    rewrite insert_insert_eq. auto.
  - rewrite (bsem_post_all_Ret _ _ _ H).
    eexists. eexists. split; [reflexivity|].
    split; [apply bsem_post_all_Ret; cbn; apply lookup_insert_eq|].
    rewrite !value_at_insert. cbn.
    rewrite insert_insert_eq. auto.
Qed.

(** ** Initialisation of the two signals *)

(** C5. [bsem_init] ends the process with [exit(1)] when the value is below
    0 or above 1, [dec_bsem_init] when it is below 0; on every other value
    each returns with exactly that value stored in the signal. *)
Theorem bsem_init_validates (w : world) (l : loc) (b : bsem) (value : Z) :
  heap w !! l = Some (Obsem b) ->
  (value < 0 \/ value > 1 ->
     exists w', bsem_init (Some l) value w = Exited 1 w') /\
  (0 <= value <= 1 ->
     exists w', bsem_init (Some l) value w = Ret tt w' /\
                value_at l w' = Some value) /\
  (value < 0 ->
     exists w', dec_bsem_init (Some l) value w = Exited 1 w') /\
  (0 <= value ->
     exists w', dec_bsem_init (Some l) value w = Ret tt w' /\
                value_at l w' = Some value).
Proof.
  intros H. destruct w as [h ms its ws tr]. cbn in H.
  repeat split.
  - intros Hv. unfold bsem_init.
    replace ((value <? 0) || (value >? 1)) with true
      by (symmetry; apply orb_true_iff; lia).
    run. eauto.
  - intros Hv. unfold bsem_init.
    replace ((value <? 0) || (value >? 1)) with false
      by (symmetry; apply orb_false_iff; lia).
    run. eexists. split; [reflexivity|]. apply value_at_insert.
  - intros Hv. unfold dec_bsem_init.
    replace (value <? 0) with true by lia.
    run. eauto.
  - intros Hv. unfold dec_bsem_init.
    replace (value <? 0) with false by lia.
    run. eexists. split; [reflexivity|]. apply value_at_insert.
Qed.

(** ** CountdownSignal: post *)

Lemma signals_app l tr1 tr2 :
  signals l (tr1 ++ tr2) = (signals l tr1 + signals l tr2)%nat.
Proof. unfold signals. rewrite List.filter_app, length_app. reflexivity. Qed.

Lemma dec_bsem_post_Ret l b w :
  heap w !! l = Some (Obsem b) ->
  dec_bsem_post (Some l) w =
    Ret tt (mk_world
              (<[l := Obsem (mk_bsem (wrap (v b - 1)) (mutex_inzed b) (cond_inzed b))]> (heap w))
              (mallocs w) (inits w) (wakeups w)
              (trace w ++
                 pthread_mutex_lock (bsem_mutex l) ::
                 (if wrap (v b - 1) =? 0
                  then [pthread_cond_signal (bsem_cond l)] else []) ++
                 [pthread_mutex_unlock (bsem_mutex l)])).
Proof.
  intros H. destruct w. run.
  destruct (wrap (v b - 1) =? 0); cbn; rewrite <- ?app_assoc; reflexivity.
Qed.

(** One post: the counter goes down by one (modulo 2^32), and the
    condition is signalled exactly when the new value is 0. *)
Lemma dec_bsem_post_step l b w :
  heap w !! l = Some (Obsem b) ->
  exists w',
    dec_bsem_post (Some l) w = Ret tt w' /\
    heap w' !! l = Some (Obsem (mk_bsem (wrap (v b - 1)) (mutex_inzed b) (cond_inzed b))) /\
    signals l (trace w') =
      (signals l (trace w) + if (wrap (v b - 1) =? 0)%Z then 1 else 0)%nat.
Proof.
  intros H. rewrite (dec_bsem_post_Ret _ _ _ H).
  eexists. split; [reflexivity|]. cbn [heap trace]. split.
  - apply lookup_insert_eq.
  - rewrite signals_app. f_equal.
    destruct (wrap (v b - 1) =? 0); unfold signals; cbn;
      rewrite ?bool_decide_eq_true_2 by reflexivity; reflexivity.
Qed.

(** C3. Every [dec_bsem_post] takes exactly one off the counter and never
    stops at zero: after [p] posts on a counter that held [k] the counter
    holds [k - p], a negative value as soon as [p > k]; the condition is
    signalled once if the counter went through zero ([0 < k <= p]) and not
    at all otherwise.  The bounds say that [k] and [k - p] are values of
    the C type [int]. *)
Theorem dec_bsem_post_no_clamp (w : world) (l : loc) (b : bsem) (p : nat) :
  heap w !! l = Some (Obsem b) ->
  v b <= INT_MAX ->
  INT_MIN <= v b - Z.of_nat p ->
  exists w',
    posts p (Some l) w = Ret tt w' /\
    value_at l w' = Some (v b - Z.of_nat p) /\
    (v b < Z.of_nat p -> value_at l w' <> Some 0 /\ v b - Z.of_nat p < 0) /\
    signals l (trace w') =
      (signals l (trace w) +
         if bool_decide (0 < v b <= Z.of_nat p)%Z then 1 else 0)%nat.
Proof.
  revert w b. induction p as [|p IH]; intros w b H Hmax Hmin.
  - exists w. cbn. unfold ret, value_at. rewrite H.
    rewrite Z.sub_0_r. split; [reflexivity|]. split; [reflexivity|].
    split; [intros Hlt; split; [intros [= ?]|]; lia|].
    rewrite bool_decide_eq_false_2 by lia. lia.
  - destruct (dec_bsem_post_step _ _ _ H) as (w1 & Hrun & Hl & Hsig).
    assert (Hw : wrap (v b - 1) = v b - 1)
      by (apply wrap_in_int; unfold in_int; lia).
    rewrite Hw in Hl, Hsig.
    destruct (IH _ _ Hl) as (w' & Hrun' & Hval & _ & Hsig'); cbn; try lia.
    exists w'. cbn [posts]. rewrite (bind_Ret _ _ _ _ _ Hrun).
    split; [exact Hrun'|]. cbn in Hval, Hsig'.
    replace (v b - 1 - Z.of_nat p) with (v b - Z.of_nat (S p)) in Hval by lia.
    split; [exact Hval|].
    split; [intros Hlt; rewrite Hval; split; [intros [= ?]|]; lia|].
    rewrite Hsig', Hsig.
    destruct (Z.eqb_spec (v b - 1) 0).
    + rewrite (bool_decide_eq_false_2 (0 < v b - 1 <= _)) by lia.
      rewrite bool_decide_eq_true_2 by lia. lia.
    + destruct (decide (0 < v b - 1 <= Z.of_nat p)).
      * rewrite !bool_decide_eq_true_2 by lia. lia.
      * rewrite !bool_decide_eq_false_2 by lia. lia.
Qed.

(** ** Waiting on the two signals *)

Lemma bsem_wait_loop_unfold bsem_p l sched :
  bsem_wait_loop bsem_p l sched =
    (x ← get_v bsem_p;
     if negb (x =? 1) then
       bsem_cond_wait bsem_p l sched (bsem_wait_loop bsem_p l)
     else ret tt).
Proof. destruct sched; reflexivity. Qed.

Lemma dec_bsem_wait_loop_unfold bsem_p l sched :
  dec_bsem_wait_loop bsem_p l sched =
    (x ← get_v bsem_p;
     if negb (x =? 0) then
       bsem_cond_wait bsem_p l sched (dec_bsem_wait_loop bsem_p l)
     else ret tt).
Proof. destruct sched; reflexivity. Qed.

(** What one [pthread_cond_wait] on the signal at [l] does to the world. *)
Lemma bsem_cond_wait_cons {A} l b y sched (k : list Z -> M A) w :
  heap w !! l = Some (Obsem b) ->
  bsem_cond_wait (Some l) l (y :: sched) k w =
    k sched (mk_world
               (<[l := Obsem (mk_bsem y (mutex_inzed b) (cond_inzed b))]> (heap w))
               (mallocs w) (inits w) sched
               (trace w ++ [pthread_cond_wait (bsem_cond l) (bsem_mutex l)])).
Proof. intros H. destruct w. unfold bsem_cond_wait. run. reflexivity. Qed.

Lemma bsem_cond_wait_nil {A} l (k : list Z -> M A) w :
  bsem_cond_wait (Some l) l [] k w =
    Blocked (set_trace
               (trace w ++ [pthread_cond_wait (bsem_cond l) (bsem_mutex l)]) w).
Proof. reflexivity. Qed.

(** The values a waiter reads at its successive checks are the value it
    finds on entry followed by the wake-ups it consumes. *)
Lemma bsem_wait_loop_Ret l sched :
  forall w b w',
    heap w !! l = Some (Obsem b) ->
    wakeups w = sched ->
    bsem_wait_loop (Some l) l sched w = Ret tt w' ->
    exists woken seen,
      sched = woken ++ wakeups w' /\
      v b :: woken = seen ++ [1] /\
      Forall (fun x => x <> 1) seen /\
      heap w' = <[l := Obsem (mk_bsem 1 (mutex_inzed b) (cond_inzed b))]> (heap w).
Proof.
  induction sched as [|y sched IH]; intros w b w' H Hs Hrun;
    rewrite bsem_wait_loop_unfold in Hrun;
    rewrite (bind_Ret _ _ _ _ _ (get_v_Ret _ _ _ H)) in Hrun;
    destruct (Z.eqb_spec (v b) 1) as [E|E]; cbn [negb] in Hrun.
  - injection Hrun as <-. exists [], []. rewrite <- E, Hs.
    repeat split; [constructor|].
    symmetry. apply insert_id. rewrite H. destruct b; reflexivity.
  - rewrite bsem_cond_wait_nil in Hrun. discriminate.
  - injection Hrun as <-. exists [], []. rewrite <- E, Hs.
    repeat split; [constructor|].
    symmetry. apply insert_id. rewrite H. destruct b; reflexivity.
  - rewrite (bsem_cond_wait_cons _ _ _ _ _ _ H) in Hrun.
    apply IH with (b := mk_bsem y (mutex_inzed b) (cond_inzed b)) in Hrun;
      [|apply lookup_insert_eq|reflexivity].
    destruct Hrun as (woken & seen & -> & Hseen & Hall & Hheap).
    cbn in Hseen, Hheap.
    exists (y :: woken), (v b :: seen).
    split; [reflexivity|].
    split; [cbn; rewrite Hseen; reflexivity|].
    split; [constructor; assumption|].
    rewrite Hheap. apply insert_insert_eq.
Qed.

Lemma dec_bsem_wait_loop_Ret l sched :
  forall w b w',
    heap w !! l = Some (Obsem b) ->
    wakeups w = sched ->
    dec_bsem_wait_loop (Some l) l sched w = Ret tt w' ->
    exists woken seen,
      sched = woken ++ wakeups w' /\
      v b :: woken = seen ++ [0] /\
      Forall (fun x => x <> 0) seen /\
      heap w' = <[l := Obsem (mk_bsem 0 (mutex_inzed b) (cond_inzed b))]> (heap w).
Proof.
  induction sched as [|y sched IH]; intros w b w' H Hs Hrun;
    rewrite dec_bsem_wait_loop_unfold in Hrun;
    rewrite (bind_Ret _ _ _ _ _ (get_v_Ret _ _ _ H)) in Hrun;
    destruct (Z.eqb_spec (v b) 0) as [E|E]; cbn [negb] in Hrun.
  - injection Hrun as <-. exists [], []. rewrite <- E, Hs.
    repeat split; [constructor|].
    symmetry. apply insert_id. rewrite H. destruct b; reflexivity.
  - rewrite bsem_cond_wait_nil in Hrun. discriminate.
  - injection Hrun as <-. exists [], []. rewrite <- E, Hs.
    repeat split; [constructor|].
    symmetry. apply insert_id. rewrite H. destruct b; reflexivity.
  - rewrite (bsem_cond_wait_cons _ _ _ _ _ _ H) in Hrun.
    apply IH with (b := mk_bsem y (mutex_inzed b) (cond_inzed b)) in Hrun;
      [|apply lookup_insert_eq|reflexivity].
    destruct Hrun as (woken & seen & -> & Hseen & Hall & Hheap).
    cbn in Hseen, Hheap.
    exists (y :: woken), (v b :: seen).
    split; [reflexivity|].
    split; [cbn; rewrite Hseen; reflexivity|].
    split; [constructor; assumption|].
    rewrite Hheap. apply insert_insert_eq.
Qed.

Lemma bind_Ret_inv {A B} (m : M A) (k : A -> M B) w b w' :
  bind m k w = Ret b w' ->
  exists a w1, m w = Ret a w1 /\ k a w1 = Ret b w'.
Proof.
  unfold bind. destruct (m w) as [a w1|c w1|w1|]; try discriminate.
  intros H. exists a, w1. auto.
Qed.

(** A waiter does come back once the value is 1 at one of its checks. *)
Lemma bsem_wait_loop_returns l sched :
  forall w b,
    heap w !! l = Some (Obsem b) ->
    1 ∈ v b :: sched ->
    exists w', bsem_wait_loop (Some l) l sched w = Ret tt w'.
Proof.
  induction sched as [|y sched IH]; intros w b H Hin;
    rewrite bsem_wait_loop_unfold;
    rewrite (bind_Ret _ _ _ _ _ (get_v_Ret _ _ _ H));
    destruct (Z.eqb_spec (v b) 1) as [E|E]; cbn [negb]; eauto.
  - apply elem_of_cons in Hin as [?|Hin]; [congruence|].
    apply elem_of_nil in Hin. contradiction.
  - apply elem_of_cons in Hin as [?|Hin]; [congruence|].
    rewrite (bsem_cond_wait_cons _ _ _ _ _ _ H).
    eapply IH; [apply lookup_insert_eq|exact Hin].
Qed.

Lemma bsem_wait_returns w l b :
  heap w !! l = Some (Obsem b) ->
  1 ∈ v b :: wakeups w ->
  exists w', bsem_wait (Some l) w = Ret tt w'.
Proof.
  intros H Hin. unfold bsem_wait, the_loc.
  destruct (bsem_wait_loop_returns l (wakeups w)
              (set_trace (trace w ++ [pthread_mutex_lock (bsem_mutex l)]) w) b H Hin)
    as [w1 Hw1].
  unfold bind at 1. cbn [ret]. unfold bind at 1. cbn [call].
  unfold bind at 1. cbn [wakeups set_trace] in *. rewrite Hw1.
  eexists. reflexivity.
Qed.

Lemma dec_bsem_wait_loop_returns l sched :
  forall w b,
    heap w !! l = Some (Obsem b) ->
    0 ∈ v b :: sched ->
    exists w' b', dec_bsem_wait_loop (Some l) l sched w = Ret tt w' /\
                  heap w' !! l = Some (Obsem b').
Proof.
  induction sched as [|y sched IH]; intros w b H Hin;
    rewrite dec_bsem_wait_loop_unfold;
    rewrite (bind_Ret _ _ _ _ _ (get_v_Ret _ _ _ H));
    destruct (Z.eqb_spec (v b) 0) as [E|E]; cbn [negb]; eauto.
  - apply elem_of_cons in Hin as [?|Hin]; [congruence|].
    apply elem_of_nil in Hin. contradiction.
  - apply elem_of_cons in Hin as [?|Hin]; [congruence|].
    rewrite (bsem_cond_wait_cons _ _ _ _ _ _ H).
    eapply IH; [apply lookup_insert_eq|exact Hin].
Qed.

Lemma dec_bsem_wait_returns w l b :
  heap w !! l = Some (Obsem b) ->
  0 ∈ v b :: wakeups w ->
  exists w', dec_bsem_wait (Some l) w = Ret tt w'.
Proof.
  intros H Hin. unfold dec_bsem_wait, the_loc.
  destruct (dec_bsem_wait_loop_returns l (wakeups w)
              (set_trace (trace w ++ [pthread_mutex_lock (bsem_mutex l)]) w) b H Hin)
    as (w1 & b1 & Hw1 & Hb1).
  unfold bind at 1. cbn [ret]. unfold bind at 1. cbn [call].
  unfold bind at 1. cbn [wakeups set_trace] in *. rewrite Hw1.
  rewrite (bind_Ret _ _ _ _ _ (set_v_Ret _ _ _ _ Hb1)).
  eexists. reflexivity.
Qed.

(** C4. When [bsem_wait] returns, the value is 1 and is the one read at the
    check that ended the wait: the values read were the one found on entry
    and then those left by other threads at each wake-up, every one but the
    last different from 1.  The wait stores nothing itself: apart from what
    those threads wrote, the heap is as it was. *)
Theorem bsem_wait_leaves_one (w w' : world) (l : loc) (b : bsem) :
  heap w !! l = Some (Obsem b) ->
  bsem_wait (Some l) w = Ret tt w' ->
  exists woken seen,
    wakeups w = woken ++ wakeups w' /\
    v b :: woken = seen ++ [1] /\
    Forall (fun x => x <> 1) seen /\
    value_at l w' = Some 1 /\
    value_at l w' = last (v b :: woken) /\
    heap w' = <[l := Obsem (mk_bsem 1 (mutex_inzed b) (cond_inzed b))]> (heap w) /\
    (woken = [] -> heap w' = heap w).
Proof.
  intros H Hrun. unfold bsem_wait, the_loc in Hrun.
  apply bind_Ret_inv in Hrun as (l' & w0 & [= <- <-] & Hrun).
  apply bind_Ret_inv in Hrun as ([] & w1 & [= <-] & Hrun).
  apply bind_Ret_inv in Hrun as ([] & w2 & Hloop & [= <-]).
  apply bsem_wait_loop_Ret with (b := b) in Hloop; [|exact H|reflexivity].
  destruct Hloop as (woken & seen & Hw & Hseen & Hall & Hheap).
  exists woken, seen. cbn in Hw |- *.
  split; [exact Hw|]. split; [exact Hseen|]. split; [exact Hall|].
  assert (Hv : value_at l (set_trace (trace w2 ++ [pthread_mutex_unlock (bsem_mutex l)]) w2) = Some 1).
  { unfold value_at. cbn. rewrite Hheap. cbn. rewrite lookup_insert_eq. reflexivity. }
  split; [exact Hv|].
  split; [rewrite Hv, Hseen, last_snoc; reflexivity|].
  split; [exact Hheap|].
  intros ->. rewrite Hheap. cbn. apply insert_id. rewrite H.
  destruct seen as [|x [|x' seen]]; cbn in Hseen; [|discriminate..|].
  - injection Hseen as Hvb. destruct b; cbn in *; subst; reflexivity.
  - destruct seen; discriminate.
Qed.

(** C9. When [dec_bsem_wait] returns the counter is 0: the loop ended on a
    check that read 0 (it read the value found on entry, then those left at
    each wake-up, all but the last different from 0), and 0 is then stored
    in the counter. *)
Theorem dec_bsem_wait_leaves_zero (w w' : world) (l : loc) (b : bsem) :
  heap w !! l = Some (Obsem b) ->
  dec_bsem_wait (Some l) w = Ret tt w' ->
  value_at l w' = Some 0 /\
  exists woken seen,
    wakeups w = woken ++ wakeups w' /\
    v b :: woken = seen ++ [0] /\
    Forall (fun x => x <> 0) seen.
Proof.
  intros H Hrun. unfold dec_bsem_wait, the_loc in Hrun.
  apply bind_Ret_inv in Hrun as (l' & w0 & [= <- <-] & Hrun).
  apply bind_Ret_inv in Hrun as ([] & w1 & [= <-] & Hrun).
  apply bind_Ret_inv in Hrun as ([] & w2 & Hloop & Hrun).
  apply dec_bsem_wait_loop_Ret with (b := b) in Hloop; [|exact H|reflexivity].
  destruct Hloop as (woken & seen & Hw & Hseen & Hall & Hheap).
  cbn in Hw, Hheap.
  assert (H2 : heap w2 !! l = Some (Obsem (mk_bsem 0 (mutex_inzed b) (cond_inzed b))))
    by (rewrite Hheap; apply lookup_insert_eq).
  rewrite (bind_Ret _ _ _ _ _ (set_v_Ret _ _ _ _ H2)) in Hrun.
  injection Hrun as <-. split.
  - unfold value_at. cbn. rewrite lookup_insert_eq. reflexivity.
  - exists woken, seen. cbn. auto.
Qed.

(** ** The job queue *)

Lemma linked_insert_notin h l o p js :
  l ∉ js -> linked (<[l := o]> h) p js = linked h p js.
Proof.
  revert p. induction js as [|j js IH]; intros p Hl; cbn; [reflexivity|].
  apply not_elem_of_cons in Hl as [Hne Hl].
  rewrite lookup_insert_ne by exact Hne.
  destruct (h !! j) as [[]|]; try reflexivity.
  rewrite IH by exact Hl. reflexivity.
Qed.

Lemma linked_cons_inv h p j js :
  linked h p (j :: js) = true ->
  p = Some j /\ exists jb, h !! j = Some (Ojob jb) /\ linked h (prev jb) js = true.
Proof.
  cbn. intros H. apply andb_true_iff in H as [Hp H].
  apply bool_decide_eq_true in Hp. split; [exact Hp|].
  destruct (h !! j) as [[| jb | | |]|]; try discriminate.
  exists jb. auto.
Qed.

Lemma linked_cons h j jb js :
  h !! j = Some (Ojob jb) ->
  linked h (prev jb) js = true ->
  linked h (Some j) (j :: js) = true.
Proof.
  intros Hj H. cbn. rewrite Hj, H.
  rewrite bool_decide_eq_true_2 by reflexivity. reflexivity.
Qed.

Lemma linked_nil_inv h p : linked h p [] = true -> p = None.
Proof. cbn. apply bool_decide_eq_true. Qed.

(** Linking a job [j] behind the rear [r] of a chain. *)
Lemma linked_snoc h p js r rb j jb :
  linked h p (js ++ [r]) = true ->
  NoDup (js ++ [r]) ->
  j ∉ js ++ [r] ->
  h !! r = Some (Ojob rb) ->
  h !! j = Some (Ojob jb) ->
  prev jb = None ->
  linked (<[r := Ojob (mk_job (Some j) (function rb) (arg rb) (signal_ rb))]> h)
    p ((js ++ [r]) ++ [j]) = true.
Proof.
  revert p. induction js as [|a js IH]; intros p Hl Hnd Hj Hr Hjb Hprev.
  - cbn [app] in *. apply linked_cons_inv in Hl as (-> & rb' & Hr' & _).
    apply not_elem_of_cons in Hj as [Hne _].
    eapply linked_cons; [apply lookup_insert_eq|]. cbn [prev].
    eapply linked_cons; [rewrite lookup_insert_ne by congruence; exact Hjb|].
    rewrite Hprev. reflexivity.
  - cbn [app] in *. apply linked_cons_inv in Hl as (-> & ab & Ha & Hl).
    apply NoDup_cons in Hnd as [Hnotin Hnd].
    apply not_elem_of_cons in Hj as [Hne Hj].
    assert (a <> r) by (intros ->; apply Hnotin, elem_of_app; right; apply list_elem_of_singleton; reflexivity).
    eapply linked_cons; [rewrite lookup_insert_ne by congruence; exact Ha|].
    apply IH; assumption.
Qed.

Lemma linked_is_job h p js l :
  linked h p js = true -> l ∈ js -> exists jb, h !! l = Some (Ojob jb).
Proof.
  revert p. induction js as [|a js IH]; intros p Hl Hin.
  - apply elem_of_nil in Hin. contradiction.
  - apply linked_cons_inv in Hl as (-> & ab & Ha & Hl).
    apply elem_of_cons in Hin as [->|Hin]; eauto.
Qed.

Lemma is_bsem_inv h p :
  is_bsem h p = true -> exists l b, p = Some l /\ h !! l = Some (Obsem b).
Proof.
  unfold is_bsem. destruct p as [l|]; [|discriminate].
  destruct (h !! l) as [[b| | | |]|] eqn:E; intros H; try discriminate.
  eauto.
Qed.

Lemma is_job_inv h l :
  is_job h l = true -> exists jb, h !! l = Some (Ojob jb).
Proof.
  unfold is_job. destruct (h !! l) as [[|jb| | |]|] eqn:E; intros H;
    try discriminate. eauto.
Qed.

(** Looking up an address in a heap built by inserts, by cases on the
    address. *)
Ltac frame_lookup :=
  cbn [heap mallocs inits wakeups trace
       front rear has_jobs len rwmutex_inzed] in *;
  repeat rewrite lookup_insert; repeat (case_decide; subst);
  repeat match goal with
         | H : ?h !! ?l = Some _, H' : ?h !! ?l = Some _ |- _ =>
             rewrite H in H'; inversion H'; subst; clear H'
         | H : ?h !! ?l = Some _, H' : context [?h !! ?l] |- _ =>
             rewrite H in H'
         end;
  try discriminate; try congruence;
  try (eexists; split; [eassumption || reflexivity|];
       unfold same_payload; cbn; auto).

Lemma jobqueue_push_spec w q js j :
  queue_rep w q js ->
  is_job (heap w) j = true ->
  j ∉ js ->
  Z.of_nat (length js) < INT_MAX ->
  exists w' q',
    jobqueue_push q (Some j) w = Ret q' w' /\
    queue_rep w' q' (js ++ [j]) /\
    has_jobs_v w' q' = Some 1 /\
    has_jobs q' = has_jobs q /\
    rwmutex_inzed q' = rwmutex_inzed q /\
    len q' = wrap (len q + 1) /\
    queue_frame q w w'.
Proof.
  intros (Hlink & Hrear & Hlen & Hmax & Hnd & Hsem) Hjob Hnotin Hlt.
  apply is_bsem_inv in Hsem as (s & sb & Hs & Hsb).
  apply is_job_inv in Hjob as (jb & Hjb).
  assert (Hsj : s <> j) by congruence.
  destruct w as [h ms its ws tr]. destruct q as [fr re hj ln rw].
  cbn in *. subst hj ln.
  destruct js as [|r js _] using rev_ind.
  - change (Z.of_nat (length [])) with 0 in *.
    unfold jobqueue_push. cbn. run.
    eexists. eexists. split; [reflexivity|].
    unfold queue_rep, has_jobs_v, value_at, is_bsem. cbn.
    rewrite lookup_insert_eq.
    rewrite lookup_insert_ne by congruence. rewrite lookup_insert_eq.
    rewrite !bool_decide_eq_true_2 by reflexivity.
    repeat split; cbn; try reflexivity; try lia.
    + apply NoDup_singleton.
    + intros l jb' Hl. frame_lookup.
    + intros l Hl Hne. unfold is_job in Hl. frame_lookup.
  - rewrite last_snoc in Hrear. subst re.
    destruct (linked_is_job _ _ _ r Hlink) as [rb Hrb];
      [apply elem_of_app; right; apply list_elem_of_singleton; reflexivity|].
    assert (Hrj : r <> j).
    { intros ->. apply Hnotin, elem_of_app. right.
      apply list_elem_of_singleton. reflexivity. }
    assert (Hsr : s <> r) by congruence.
    rewrite length_app in *. cbn [length] in *.
    unfold jobqueue_push. cbn.
    destruct (Z.eqb_spec (Z.of_nat (length js + 1)) 0) as [E|_]; [lia|].
    run.
    eexists. eexists. split; [reflexivity|].
    unfold queue_rep, has_jobs_v, value_at, is_bsem. cbn.
    rewrite !lookup_insert_eq.
    assert (Hs_notin : s ∉ (js ++ [r]) ++ [j]).
    { intros Hin. apply elem_of_app in Hin as [Hin|Hin].
      - destruct (linked_is_job _ _ _ s Hlink Hin). congruence.
      - apply list_elem_of_singleton in Hin. congruence. }
    split; [split|].
    { rewrite linked_insert_notin by exact Hs_notin.
      eapply linked_snoc; eauto.
      - rewrite linked_insert_notin by exact Hnotin. exact Hlink.
      - rewrite lookup_insert_ne by congruence. exact Hrb.
      - apply lookup_insert_eq.
      - reflexivity. }
    rewrite last_snoc, !length_app. cbn [length].
    repeat split; try reflexivity; try lia.
    + rewrite wrap_in_int by (unfold in_int, INT_MIN, INT_MAX in *; lia). lia.
    + apply NoDup_app. split; [exact Hnd|]. split; [|apply NoDup_singleton].
      intros x Hx Hx'. apply list_elem_of_singleton in Hx'. subst x.
      contradiction.
    + cbn. repeat split; try reflexivity.
      * intros l jb' Hl. frame_lookup.
      * intros l Hl Hne. unfold is_job in Hl. frame_lookup.
Qed.

Lemma jobqueue_pull_spec w q js :
  queue_rep w q js ->
  exists w' q',
    jobqueue_pull q w = Ret (head js, q') w' /\
    queue_rep w' q' (tail js) /\
    has_jobs_v w' q' = Some (if bool_decide (tail js = []) then 0 else 1) /\
    has_jobs q' = has_jobs q /\
    rwmutex_inzed q' = rwmutex_inzed q /\
    (forall l, Some l <> has_jobs q -> heap w' !! l = heap w !! l) /\
    queue_frame q w w'.
Proof.
  intros (Hlink & Hrear & Hlen & Hmax & Hnd & Hsem).
  apply is_bsem_inv in Hsem as (s & sb & Hs & Hsb).
  destruct w as [h ms its ws tr]. destruct q as [fr re hj ln rw].
  cbn [front rear has_jobs len rwmutex_inzed heap] in *. subst hj.
  destruct js as [|j [|j2 js]].
  - apply linked_nil_inv in Hlink. cbn in Hlen, Hrear.
    change (Z.of_nat 0) with 0 in *. subst.
    unfold jobqueue_pull. cbn. run.
    eexists. eexists. split; [reflexivity|].
    unfold queue_rep, has_jobs_v, value_at, is_bsem. cbn.
    rewrite lookup_insert_eq.
    repeat split; try reflexivity; try assumption.
    + intros l Hne. frame_lookup.
    + intros l jb Hl. frame_lookup.
    + intros l Hl Hne. frame_lookup.
  - apply linked_cons_inv in Hlink as (-> & jb & Hjb & Hlink).
    cbn in Hlen, Hrear. change (Z.of_nat 1) with 1 in *. subst.
    unfold jobqueue_pull. cbn. run.
    eexists. eexists. split; [reflexivity|].
    unfold queue_rep, has_jobs_v, value_at, is_bsem. cbn.
    rewrite lookup_insert_eq.
    repeat split; try reflexivity; try (unfold INT_MAX; lia).
    + constructor.
    + intros l Hne. frame_lookup.
    + intros l jb' Hl. frame_lookup.
    + intros l Hl Hne. frame_lookup.
  - apply linked_cons_inv in Hlink as (-> & jb & Hjb & Hlink).
    rewrite last_cons_cons in Hrear.
    apply NoDup_cons in Hnd as [Hnotin Hnd].
    assert (Hs_notin : s ∉ j2 :: js).
    { intros Hin. destruct (linked_is_job _ _ _ s Hlink Hin). congruence. }
    assert (Hsj : s <> j) by congruence.
    cbn [length] in *. subst ln.
    unfold jobqueue_pull. cbn [front len].
    destruct (Z.eqb_spec (Z.of_nat (S (S (length js)))) 0) as [E|_]; [lia|].
    destruct (Z.eqb_spec (Z.of_nat (S (S (length js)))) 1) as [E|_]; [lia|].
    assert (Hw : wrap (Z.of_nat (S (S (length js))) - 1) = Z.of_nat (S (length js))).
    { rewrite wrap_in_int; unfold in_int, INT_MIN, INT_MAX in *; lia. }
    run. rewrite Hw.
    destruct (Z.eqb_spec (Z.of_nat (S (length js))) 0) as [E|_]; [lia|].
    run.
    eexists. eexists. split; [reflexivity|].
    unfold queue_rep, has_jobs_v, value_at, is_bsem, with_len, with_front.
    cbn [tail heap front rear has_jobs len length].
    rewrite lookup_insert_eq.
    rewrite linked_insert_notin by exact Hs_notin.
    repeat split; try reflexivity; try assumption; try lia.
    + intros l Hne. frame_lookup.
    + intros l jb' Hl. frame_lookup.
    + intros l Hl Hne. frame_lookup.
Qed.

Lemma queue_frame_is_job q w w' l :
  queue_frame q w w' -> is_job (heap w) l = true -> is_job (heap w') l = true.
Proof.
  intros (Hjobs & _) Hl. apply is_job_inv in Hl as (jb & Hjb).
  destruct (Hjobs _ _ Hjb) as (jb' & Hjb' & _).
  unfold is_job. rewrite Hjb'. reflexivity.
Qed.

Lemma push_all_spec js :
  forall w q js0,
    queue_rep w q js0 ->
    Forall (fun j => is_job (heap w) j = true) js ->
    NoDup (js0 ++ js) ->
    Z.of_nat (length (js0 ++ js)) <= INT_MAX ->
    exists w' q',
      push_all q js w = Ret q' w' /\ queue_rep w' q' (js0 ++ js).
Proof.
  induction js as [|j js IH]; intros w q js0 Hrep Hjobs Hnd Hlen.
  - exists w, q. rewrite app_nil_r. split; [reflexivity|exact Hrep].
  - apply Forall_cons in Hjobs as [Hj Hjobs].
    rewrite length_app in Hlen. cbn [length] in Hlen.
    destruct (jobqueue_push_spec w q js0 j Hrep Hj)
      as (w1 & q1 & Hrun & Hrep1 & _ & _ & _ & _ & Hframe).
    { apply NoDup_app in Hnd as (_ & Hdisj & _).
      intros Hin. apply (Hdisj _ Hin). left. }
    { lia. }
    destruct (IH w1 q1 (js0 ++ [j]) Hrep1) as (w' & q' & Hrun' & Hrep').
    { eapply Forall_impl; [exact Hjobs|].
      intros l. apply (queue_frame_is_job _ _ _ _ Hframe). }
    { rewrite <- app_assoc. exact Hnd. }
    { rewrite !length_app. cbn [length]. lia. }
    exists w', q'. cbn [push_all].
    rewrite (bind_Ret _ _ _ _ _ Hrun).
    rewrite <- app_assoc in Hrep'. auto.
Qed.

Lemma pull_n_spec n :
  forall w q js,
    queue_rep w q js ->
    exists w' q',
      pull_n n q w =
        Ret (map Some (take n js) ++ replicate (n - length js) None, q') w' /\
      queue_rep w' q' (drop n js).
Proof.
  induction n as [|n IH]; intros w q js Hrep.
  - exists w, q. cbn. rewrite take_0, drop_0. split; [reflexivity|exact Hrep].
  - destruct (jobqueue_pull_spec w q js Hrep)
      as (w1 & q1 & Hrun & Hrep1 & _).
    destruct (IH w1 q1 (tail js) Hrep1) as (w' & q' & Hrun' & Hrep').
    exists w', q'. cbn [pull_n].
    rewrite (bind_Ret _ _ _ _ _ Hrun). cbn [fst snd].
    rewrite (bind_Ret _ _ _ _ _ Hrun'). cbn [fst snd].
    destruct js as [|j js]; cbn in *; auto.
    rewrite take_nil, drop_nil in *. cbn in *.
    rewrite Nat.sub_0_r in *. auto.
Qed.

(** C1. The queue is first in, first out: on a queue that holds [js0],
    after the jobs [js] have been pushed one by one, [n] pulls in a row
    return the first [n] of [js0 ++ js] in that order (and [NULL] once the
    queue is empty), and leave the remaining ones queued in the same order.
    The rear of the queue is the job pushed last. *)
Theorem jobqueue_fifo (w : world) (q : jobqueue) (js0 js : list loc) (n : nat) :
  queue_rep w q js0 ->
  Forall (fun j => is_job (heap w) j = true) js ->
  NoDup (js0 ++ js) ->
  Z.of_nat (length (js0 ++ js)) <= INT_MAX ->
  exists w1 q1 w' q',
    push_all q js w = Ret q1 w1 /\
    rear q1 = last (js0 ++ js) /\
    front q1 = head (js0 ++ js) /\
    pull_n n q1 w1 =
      Ret (map Some (take n (js0 ++ js)) ++
             replicate (n - length (js0 ++ js)) None, q') w' /\
    queue_rep w' q' (drop n (js0 ++ js)).
Proof.
  intros Hrep Hjobs Hnd Hlen.
  destruct (push_all_spec js w q js0 Hrep Hjobs Hnd Hlen)
    as (w1 & q1 & Hpush & Hrep1).
  destruct (pull_n_spec n w1 q1 _ Hrep1) as (w' & q' & Hpull & Hrep').
  exists w1, q1, w', q'.
  split; [exact Hpush|].
  split; [apply Hrep1|].
  split; [|auto].
  destruct Hrep1 as (Hlink & _).
  destruct (js0 ++ js) as [|j l].
  - apply linked_nil_inv in Hlink. exact Hlink.
  - apply linked_cons_inv in Hlink as (-> & _). reflexivity.
Qed.

(** Whatever the order of the pushes and pulls, the queue answers as a
    first-in first-out list does. *)
Lemma jobqueue_refines_fifo ops :
  forall w q js h0,
    queue_rep w q js ->
    (forall l, is_job h0 l = true -> is_job (heap w) l = true) ->
    qops_ok h0 ops js ->
    exists w' q',
      run_qops ops q w = Ret (fst (fifo ops js), q') w' /\
      queue_rep w' q' (snd (fifo ops js)).
Proof.
  induction ops as [|[j|] ops IH]; intros w q js h0 Hrep Hjobs Hok.
  - exists w, q. split; [reflexivity|exact Hrep].
  - destruct Hok as (Hj & Hnotin & Hlt & Hok).
    destruct (jobqueue_push_spec w q js j Hrep (Hjobs _ Hj) Hnotin Hlt)
      as (w1 & q1 & Hrun & Hrep1 & _ & _ & _ & _ & Hframe).
    destruct (IH w1 q1 (js ++ [j]) h0 Hrep1) as (w' & q' & Hrun' & Hrep');
      [|exact Hok|].
    { intros l Hl. apply (queue_frame_is_job _ _ _ _ Hframe), Hjobs, Hl. }
    exists w', q'. cbn [run_qops fifo].
    rewrite (bind_Ret _ _ _ _ _ Hrun). auto.
  - destruct (jobqueue_pull_spec w q js Hrep)
      as (w1 & q1 & Hrun & Hrep1 & _ & _ & _ & _ & Hframe).
    destruct (IH w1 q1 (tail js) h0 Hrep1) as (w' & q' & Hrun' & Hrep');
      [|exact Hok|].
    { intros l Hl. apply (queue_frame_is_job _ _ _ _ Hframe), Hjobs, Hl. }
    exists w', q'. cbn [run_qops fifo].
    rewrite (bind_Ret _ _ _ _ _ Hrun). cbn [fst snd].
    rewrite (bind_Ret _ _ _ _ _ Hrun'). auto.
Qed.

(** ** The queue's signal *)

Lemma queue_rep_agree w w' q js :
  queue_rep w q js ->
  (forall l, l ∈ js -> heap w' !! l = heap w !! l) ->
  (forall l, has_jobs q = Some l -> heap w' !! l = heap w !! l) ->
  queue_rep w' q js.
Proof.
  intros (Hlink & Hrear & Hlen & Hmax & Hnd & Hsem) Hjs Hs.
  repeat split; try assumption.
  - clear Hrear Hlen Hmax Hnd. revert Hlink Hjs. generalize (front q).
    induction js as [|j js IH]; intros p Hlink Hjs; [exact Hlink|].
    apply linked_cons_inv in Hlink as (-> & jb & Hjb & Hlink).
    eapply linked_cons.
    + rewrite Hjs by left. exact Hjb.
    + apply IH; [exact Hlink|]. intros l Hl. apply Hjs. right. exact Hl.
  - unfold is_bsem in *. destruct (has_jobs q) as [s|]; [|discriminate].
    rewrite Hs by reflexivity. exact Hsem.
Qed.

(** What [bsem_reset] does to the heap. *)
Lemma bsem_reset_run w l b :
  heap w !! l = Some (Obsem b) ->
  exists w' mi ci,
    bsem_reset (Some l) w = Ret tt w' /\
    heap w' = <[l := Obsem (mk_bsem 0 mi ci)]> (heap w) /\
    mallocs w' = mallocs w /\ wakeups w' = wakeups w.
Proof.
  intros H. destruct w as [h ms its ws tr]. cbn [heap] in H.
  unfold bsem_reset, bsem_init.
  destruct b as [x [] []]; run; eexists; eexists; eexists;
    (split; [reflexivity|]); cbn; auto.
Qed.

Lemma queue_rep_nil_inv w q :
  queue_rep w q [] -> front q = None /\ rear q = None /\ len q = 0.
Proof.
  intros (Hlink & Hrear & Hlen & _). apply linked_nil_inv in Hlink. auto.
Qed.

(** The loop of [jobqueue_clear]: every job of the queue is pulled and
    freed. *)
Lemma jobqueue_clear_loop_spec js :
  forall w q,
    queue_rep w q js ->
    exists w' q',
      jobqueue_clear_loop (length js) q w = Ret q' w' /\
      queue_rep w' q' [] /\
      has_jobs q' = has_jobs q /\
      rwmutex_inzed q' = rwmutex_inzed q /\
      (forall j, j ∈ js -> heap w' !! j = None) /\
      (forall l, l ∉ js -> Some l <> has_jobs q -> heap w' !! l = heap w !! l) /\
      mallocs w' = mallocs w /\ wakeups w' = wakeups w.
Proof.
  induction js as [|j js IH]; intros w q Hrep.
  - destruct (queue_rep_nil_inv _ _ Hrep) as (_ & _ & Hlen).
    exists w, q. cbn [length jobqueue_clear_loop]. rewrite Hlen.
    split; [reflexivity|]. split; [exact Hrep|].
    repeat (split; [reflexivity|]).
    split; [|auto]. intros j Hj. apply elem_of_nil in Hj. contradiction.
  - pose proof Hrep as (Hlink & _ & Hlen & _ & Hnd & Hsem).
    apply NoDup_cons in Hnd as [Hnotin Hnd].
    destruct (linked_is_job _ _ _ j Hlink) as [jb Hjb]; [left|].
    apply is_bsem_inv in Hsem as (s & sb & Hs & Hsb).
    assert (Hsj : s <> j) by congruence.
    destruct (jobqueue_pull_spec w q (j :: js) Hrep)
      as (w1 & q1 & Hrun & Hrep1 & _ & Hhj & Hrw & Hkeep & Hframe).
    cbn [head tail] in *.
    assert (Hj1 : heap w1 !! j = Some (Ojob jb)).
    { rewrite Hkeep; [exact Hjb|]. rewrite Hs. congruence. }
    set (w2 := set_heap (delete j (heap w1)) w1).
    assert (Hrep2 : queue_rep w2 q1 js).
    { eapply queue_rep_agree; [exact Hrep1| |]; intros l Hl; cbn.
      - apply lookup_delete_ne. intros <-. contradiction.
      - apply lookup_delete_ne. rewrite Hhj, Hs in Hl. congruence. }
    destruct (IH w2 q1 Hrep2)
      as (w' & q' & Hrun' & Hrep' & Hhj' & Hrw' & Hfreed & Hothers & Hms & Hwk).
    exists w', q'.
    split.
    { cbn [length jobqueue_clear_loop]. rewrite Hlen.
      destruct (Z.eqb_spec (Z.of_nat (length (j :: js))) 0) as [E|_];
        [cbn [length] in E; lia|].
      rewrite (bind_Ret _ _ _ _ _ Hrun). cbn [fst snd].
      unfold bind at 1, free. rewrite Hj1. exact Hrun'. }
    split; [exact Hrep'|]. split; [congruence|]. split; [congruence|].
    destruct Hframe as (_ & _ & Hms1 & _ & Hwk1).
    split.
    { intros l Hl. apply elem_of_cons in Hl as [->|Hl]; [|auto].
      rewrite Hothers; [apply lookup_delete_eq|exact Hnotin|].
      rewrite Hhj, Hs. congruence. }
    split.
    { intros l Hl Hne. apply not_elem_of_cons in Hl as [Hlj Hl].
      rewrite Hothers; [|exact Hl|congruence].
      cbn. rewrite lookup_delete_ne by congruence.
      apply Hkeep. exact Hne. }
    split; [rewrite Hms; exact Hms1|rewrite Hwk; exact Hwk1].
Qed.

(** [jobqueue_clear] on a well-formed queue. *)
Lemma jobqueue_clear_spec (w : world) (q : jobqueue) (js : list loc) :
  queue_rep w q js ->
  exists w' q',
    jobqueue_clear q w = Ret q' w' /\
    queue_rep w' q' [] /\
    has_jobs_v w' q' = Some 0 /\
    has_jobs q' = has_jobs q /\
    rwmutex_inzed q' = rwmutex_inzed q /\
    (forall j, j ∈ js -> heap w' !! j = None) /\
    (forall l, l ∉ js -> Some l <> has_jobs q -> heap w' !! l = heap w !! l) /\
    mallocs w' = mallocs w /\ wakeups w' = wakeups w.
Proof.
  intros Hrep.
  destruct (jobqueue_clear_loop_spec js w q Hrep)
    as (w1 & q1 & Hrun & Hrep1 & Hhj & Hrw & Hfreed & Hothers & Hms & Hwk).
  pose proof Hrep as (Hlink & _ & Hlen & _ & _ & Hsem0).
  pose proof Hrep1 as (_ & _ & _ & _ & _ & Hsem).
  destruct (queue_rep_nil_inv _ _ Hrep1) as (Hfr & Hre & Hlen1).
  apply is_bsem_inv in Hsem as (s & sb & Hs & Hsb).
  destruct (bsem_reset_run w1 s sb Hsb)
    as (w' & mi & ci & Hreset & Hheap & Hms' & Hwk').
  assert (Hs_notin : s ∉ js).
  { intros Hin. destruct (linked_is_job _ _ _ s Hlink Hin) as [jb Hjb].
    apply is_bsem_inv in Hsem0 as (s0 & sb0 & Hs0 & Hsb0).
    assert (s0 = s) by congruence. subst s0. congruence. }
  exists w', (with_len 0 (with_rear None (with_front None q1))).
  split.
  { unfold jobqueue_clear. rewrite Hlen.
    rewrite Z.mod_small
      by (destruct Hrep as (_ & _ & _ & Hmax & _); unfold INT_MAX in Hmax; lia).
    rewrite Nat2Z.id.
    rewrite (bind_Ret _ _ _ _ _ Hrun). cbv zeta.
    change (has_jobs (with_rear None (with_front None q1)))
      with (has_jobs q1).
    rewrite Hs. rewrite (bind_Ret _ _ _ _ _ Hreset). reflexivity. }
  unfold queue_rep, has_jobs_v, value_at, is_bsem.
  cbn [front rear len has_jobs rwmutex_inzed with_len with_rear with_front].
  rewrite Hs, Hheap, lookup_insert_eq. cbn.
  repeat split; try reflexivity; try congruence.
  - unfold INT_MAX. lia.
  - constructor.
  - intros j Hj. rewrite lookup_insert_ne by congruence. auto.
  - intros l Hl Hne. rewrite lookup_insert_ne by congruence. auto.
Qed.

(** C2 (as the code has it).  Every pull leaves the [has_jobs] value at 0
    if the queue is then empty and at 1 if jobs remain, whatever the value
    was before; every push leaves it at 1.  Both therefore keep the
    invariant that the value is 1 whenever the length is positive.  The
    value is not driven to 0 by the dequeue that empties the queue only: a
    pull on a queue that is already empty returns [NULL] and stores 0 as
    well, over a 1 if it finds one, and [jobqueue_clear] resets the value
    to 0 on any queue. *)
Theorem jobqueue_signal_repaired (w : world) (q : jobqueue) (js : list loc) :
  queue_rep w q js ->
  (exists w' q',
      jobqueue_pull q w = Ret (head js, q') w' /\
      len q' = Z.of_nat (length (tail js)) /\
      has_jobs_v w' q' = Some (if len q' =? 0 then 0 else 1) /\
      has_jobs_inv w' q' /\
      (has_jobs_v w' q' = Some 0 <-> (length js <= 1)%nat) /\
      (js = [] -> head js = None /\ has_jobs_v w' q' = Some 0)) /\
  (forall j,
      is_job (heap w) j = true -> j ∉ js ->
      Z.of_nat (length js) < INT_MAX ->
      exists w' q',
        jobqueue_push q (Some j) w = Ret q' w' /\
        len q' = Z.of_nat (length (js ++ [j])) /\
        has_jobs_v w' q' = Some 1 /\
        has_jobs_inv w' q') /\
  (exists w' q',
      jobqueue_clear q w = Ret q' w' /\
      len q' = 0 /\
      has_jobs_v w' q' = Some 0).
Proof.
  intros Hrep. split; [|split].
  - destruct (jobqueue_pull_spec w q js Hrep)
      as (w' & q' & Hrun & Hrep' & Hv & _).
    exists w', q'. split; [exact Hrun|].
    destruct Hrep' as (_ & _ & Hlen & _).
    split; [exact Hlen|].
    assert (Hv' : has_jobs_v w' q' = Some (if len q' =? 0 then 0 else 1)).
    { rewrite Hv, Hlen. destruct (tail js); reflexivity. }
    split; [exact Hv'|].
    split.
    { intros Hpos. rewrite Hv'.
      destruct (Z.eqb_spec (len q') 0); [lia|reflexivity]. }
    split.
    { rewrite Hv. destruct js as [|j [|j' js]]; cbn; split; intros H;
        try reflexivity; try discriminate; lia. }
    intros ->. split; [reflexivity|]. rewrite Hv. reflexivity.
  - intros j Hj Hnotin Hlt.
    destruct (jobqueue_push_spec w q js j Hrep Hj Hnotin Hlt)
      as (w' & q' & Hrun & Hrep' & Hv & _).
    exists w', q'. split; [exact Hrun|].
    destruct Hrep' as (_ & _ & Hlen & _).
    split; [exact Hlen|]. split; [exact Hv|].
    intros _. exact Hv.
  - destruct (jobqueue_clear_spec w q js Hrep)
      as (w' & q' & Hrun & Hrep' & Hv & _).
    exists w', q'. split; [exact Hrun|].
    destruct (queue_rep_nil_inv _ _ Hrep') as (_ & _ & Hlen).
    split; [exact Hlen|exact Hv].
Qed.

(** ** Submitting work *)

Lemma malloc_Ret w init :
  head (mallocs w) <> Some false ->
  heap w !! fresh (dom (heap w)) = None /\
  malloc init w =
    Ret (Some (fresh (dom (heap w))))
      (mk_world (<[fresh (dom (heap w)) := init]> (heap w))
         (tail (mallocs w)) (inits w) (wakeups w) (trace w)).
Proof.
  intros Hok. split.
  - apply not_elem_of_dom. apply is_fresh.
  - unfold malloc. destruct (mallocs w) as [|[] ?]; try reflexivity.
    cbn in Hok. congruence.
Qed.

Lemma malloc_NULL w init :
  head (mallocs w) = Some false ->
  malloc init w = Ret None (set_mallocs (tail (mallocs w)) w).
Proof.
  intros Hko. unfold malloc.
  destruct (mallocs w) as [|[] ?]; try discriminate. reflexivity.
Qed.

(** The representation of a queue only reads the jobs it holds and its
    semaphore. *)
Lemma queue_rep_allocated w q js l :
  queue_rep w q js -> l ∈ js \/ has_jobs q = Some l -> heap w !! l <> None.
Proof.
  intros (Hlink & _ & _ & _ & _ & Hsem) [Hl|Hl].
  - destruct (linked_is_job _ _ _ _ Hlink Hl) as [jb ->]. discriminate.
  - apply is_bsem_inv in Hsem as (s & sb & Hs & Hsb). congruence.
Qed.

Lemma load_thpool_Ret l t w :
  heap w !! l = Some (Othpool t) -> load_thpool (Some l) w = Ret t w.
Proof. intros H. unfold load_thpool, bind, load. rewrite H. reflexivity. Qed.

Lemma upd_thpool_Ret l t f w :
  heap w !! l = Some (Othpool t) ->
  upd_thpool (Some l) f w =
    Ret tt (set_heap (<[l := Othpool (f t)]> (heap w)) w).
Proof.
  intros H. unfold upd_thpool.
  rewrite (bind_Ret _ _ _ _ _ (load_thpool_Ret _ _ _ H)).
  apply (store_Ret _ _ _ _ H).
Qed.

(** A new job filled in and pushed on the queue of the pool at [p]. *)
Lemma submit_push_spec w p tp js j jb :
  heap w !! p = Some (Othpool tp) ->
  heap w !! j = Some (Ojob jb) ->
  queue_rep w (jobqueue_ tp) js ->
  j ∉ js ->
  Z.of_nat (length js) < INT_MAX ->
  exists w' tp' jb',
    on_jobqueue (Some p)
      (fun q => q' ← jobqueue_push q (Some j); ret (tt, q')) w = Ret tt w' /\
    heap w' !! p = Some (Othpool tp') /\
    queue_rep w' (jobqueue_ tp') (js ++ [j]) /\
    has_jobs_v w' (jobqueue_ tp') = Some 1 /\
    heap w' !! j = Some (Ojob jb') /\ same_payload jb jb'.
Proof.
  intros Hp Hj Hrep Hnotin Hlt.
  assert (Hjob : is_job (heap w) j = true) by (unfold is_job; rewrite Hj; reflexivity).
  destruct (jobqueue_push_spec w _ js j Hrep Hjob Hnotin Hlt)
    as (w1 & q1 & Hrun & Hrep1 & Hv & Hhj & _ & _ & Hframe).
  destruct Hframe as (Hjobs & Hothers & _).
  assert (Hp1 : heap w1 !! p = Some (Othpool tp)).
  { rewrite Hothers; [exact Hp| |].
    - unfold is_job. rewrite Hp. reflexivity.
    - intros Heq. destruct Hrep as (_ & _ & _ & _ & _ & Hsem).
      apply is_bsem_inv in Hsem as (s & sb & Hs & Hsb). congruence. }
  destruct (Hjobs _ _ Hj) as (jb' & Hj1 & Hpay).
  assert (Hp_notin : forall l, l ∈ js ++ [j] \/ has_jobs q1 = Some l -> p <> l).
  { intros l Hl ->. destruct Hrep1 as (Hlink & _ & _ & _ & _ & Hsem).
    destruct Hl as [Hl|Hl].
    - destruct (linked_is_job _ _ _ _ Hlink Hl). congruence.
    - apply is_bsem_inv in Hsem as (s & sb & Hs & Hsb). congruence. }
  exists (set_heap (<[p := Othpool (with_jobqueue q1 tp)]> (heap w1)) w1),
    (with_jobqueue q1 tp), jb'.
  split.
  { unfold on_jobqueue.
    rewrite (bind_Ret _ _ _ _ _ (load_thpool_Ret _ _ _ Hp)).
    erewrite bind_Ret; [|rewrite (bind_Ret _ _ _ _ _ Hrun); reflexivity].
    cbn [fst snd].
    rewrite (bind_Ret _ _ _ _ _ (upd_thpool_Ret _ _ _ _ Hp1)). reflexivity. }
  cbn [heap set_heap jobqueue_ with_jobqueue].
  split; [apply lookup_insert_eq|].
  split.
  { eapply queue_rep_agree; [exact Hrep1| |]; intros l Hl; cbn;
      apply lookup_insert_ne, Hp_notin; auto. }
  split.
  { unfold has_jobs_v, value_at in *. destruct (has_jobs q1) as [s|]; [|discriminate].
    cbn. rewrite lookup_insert_ne by (apply Hp_notin; auto). exact Hv. }
  split; [|exact Hpay].
  rewrite lookup_insert_ne by congruence. exact Hj1.
Qed.

(** C6 (as the code has it). [thpool_add_work_with_sem] first allocates
    the job and returns -1 if that fails, whatever the signal is; with the
    job allocated it returns -2 if the signal is [NULL]; otherwise it
    returns 0 and the queue holds one more job, at the rear, carrying the
    signal, the function and the argument.  On -1 the heap is as before; on
    -2 the only change is the block just allocated, which is not queued:
    the pool structure and the queue are unchanged. *)
Theorem thpool_add_work_with_sem_codes (w : world) (p : loc) (tp : thpool_)
    (js : list loc) (signal_p : ptr) (function_p : fnptr) (arg_p : voidptr) :
  heap w !! p = Some (Othpool tp) ->
  queue_rep w (jobqueue_ tp) js ->
  Z.of_nat (length js) < INT_MAX ->
  (head (mallocs w) = Some false ->
     exists w',
       thpool_add_work_with_sem (Some p) signal_p function_p arg_p w
         = Ret (-1) w' /\
       heap w' = heap w /\
       queue_rep w' (jobqueue_ tp) js) /\
  (head (mallocs w) <> Some false -> signal_p = None ->
     exists w' j,
       thpool_add_work_with_sem (Some p) signal_p function_p arg_p w
         = Ret (-2) w' /\
       heap w !! j = None /\
       heap w' = <[j := fresh_job]> (heap w) /\
       heap w' !! p = Some (Othpool tp) /\
       queue_rep w' (jobqueue_ tp) js) /\
  (head (mallocs w) <> Some false -> forall s, signal_p = Some s ->
     exists w' tp' j jb,
       thpool_add_work_with_sem (Some p) signal_p function_p arg_p w
         = Ret 0 w' /\
       heap w !! j = None /\
       heap w' !! p = Some (Othpool tp') /\
       queue_rep w' (jobqueue_ tp') (js ++ [j]) /\
       heap w' !! j = Some (Ojob jb) /\
       signal_ jb = Some s /\ function jb = function_p /\ arg jb = arg_p).
Proof.
  intros Hp Hrep Hlt. unfold thpool_add_work_with_sem. repeat split.
  - intros Hko.
    rewrite (bind_Ret _ _ _ _ _ (malloc_NULL _ _ Hko)).
    eexists. split; [reflexivity|]. split; [reflexivity|]. exact Hrep.
  - intros Hok ->.
    destruct (malloc_Ret w fresh_job Hok) as [Hfresh Hm].
    rewrite (bind_Ret _ _ _ _ _ Hm).
    eexists. exists (fresh (dom (heap w))).
    split; [reflexivity|]. cbn [heap set_trace].
    split; [exact Hfresh|]. split; [reflexivity|].
    split; [rewrite lookup_insert_ne by congruence; exact Hp|].
    eapply queue_rep_agree; [exact Hrep| |]; intros l Hl; cbn [heap];
      apply lookup_insert_ne; intros <-;
      eapply (queue_rep_allocated _ _ _ _ Hrep); eauto.
  - intros Hok s ->.
    destruct (malloc_Ret w fresh_job Hok) as [Hfresh Hm].
    rewrite (bind_Ret _ _ _ _ _ Hm).
    set (j := fresh (dom (heap w))) in *.
    set (jb := mk_job (prev junk_job) function_p arg_p (Some s)).
    set (w1 := mk_world (<[j := Ojob jb]> (heap w)) (tail (mallocs w))
                 (inits w) (wakeups w) (trace w)).
    assert (Hfill :
      (set_function (Some j) function_p;;
       set_arg (Some j) arg_p;;
       set_signal_ (Some j) (Some s))
        (mk_world (<[j := fresh_job]> (heap w)) (tail (mallocs w))
           (inits w) (wakeups w) (trace w)) = Ret tt w1).
    { subst w1 jb. unfold fresh_job. run. reflexivity. }
    assert (Hj1 : heap w1 !! j = Some (Ojob jb)) by apply lookup_insert_eq.
    assert (Hnotin : j ∉ js).
    { intros Hin. eapply (queue_rep_allocated _ _ _ _ Hrep); eauto. }
    assert (Hp1 : heap w1 !! p = Some (Othpool tp)).
    { cbn. rewrite lookup_insert_ne by congruence. exact Hp. }
    assert (Hrep1 : queue_rep w1 (jobqueue_ tp) js).
    { eapply queue_rep_agree; [exact Hrep| |]; intros l Hl; cbn [heap w1];
        apply lookup_insert_ne; intros <-;
        eapply (queue_rep_allocated _ _ _ _ Hrep); eauto. }
    destruct (submit_push_spec w1 p tp js j jb Hp1 Hj1 Hrep1 Hnotin Hlt)
      as (w' & tp' & jb' & Hrun & Hp' & Hrep' & _ & Hj' & Hf & Ha & Hs).
    exists w', tp', j, jb'.
    split.
    { apply bind_Ret_inv in Hfill as ([] & wa & Ha1 & Hfill).
      apply bind_Ret_inv in Hfill as ([] & wb & Hb1 & Hc1).
      rewrite (bind_Ret _ _ _ _ _ Ha1), (bind_Ret _ _ _ _ _ Hb1),
        (bind_Ret _ _ _ _ _ Hc1), (bind_Ret _ _ _ _ _ Hrun).
      reflexivity. }
    auto 10.
Qed.

(** ** Creating the pool *)

Arguments malloc : simpl never.
Arguments allocs_ok : simpl never.

Lemma allocs_succeed_S n ms :
  allocs_ok (S n) ms = true ->
  head ms <> Some false /\ allocs_ok n (tail ms) = true.
Proof.
  unfold allocs_ok. destruct ms as [|b l]; cbn.
  - intros _. split; [discriminate|]. rewrite take_nil. reflexivity.
  - intros H. apply andb_true_iff in H as [-> H]. split; [discriminate|].
    exact H.
Qed.

(** Running one [malloc] that succeeds: [l] is the block, [Hl] says that it
    was free. *)
Ltac run_malloc l Hl :=
  match goal with
  | Hok : allocs_ok (S _) ?ms = true
    |- context [malloc ?i (mk_world ?h ?ms ?its ?ws ?tr)] =>
      let Hm := fresh "Hm" in
      let Hok1 := fresh "Hhead" in
      let Hok2 := fresh "Htail" in
      destruct (allocs_succeed_S _ _ Hok) as [Hok1 Hok2];
      destruct (malloc_Ret (mk_world h ms its ws tr) i Hok1) as [Hl Hm];
      rewrite Hm; clear Hm Hok1 Hok;
      cbn [heap mallocs inits wakeups trace] in *;
      set (l := fresh (dom _)) in *; clearbody l
  end.

Ltac unfold_pool :=
  unfold fresh_thpool, fresh_bsem, upd_thpool, on_jobqueue, jobqueue_init,
    bsem_init, with_threads, with_num_threads_alive,
    with_num_threads_working, with_jobqueue, with_threads_keepalive,
    with_thcount_lock_inzed, with_threads_all_idle_inzed,
    with_front, with_rear, with_len, with_has_jobs, with_rwmutex_inzed in *.

Ltac run_pool :=
  repeat (progress (unfold_pool; unfold_ops; cbn in *; repeat (run_step; cbn))).

Lemma sticks_app tr1 tr2 : sticks (tr1 ++ tr2) = sticks tr1 ++ sticks tr2.
Proof. apply omap_app. Qed.

(** With its three allocations done, [thpool_init] has set up the pool
    [p], the queue's semaphore [s] and the array [arr] of [N] thread
    pointers; what remains is to start the threads and wait for them. *)
Lemma thpool_init_setup pf N w :
  0 <= N ->
  allocs_succeed 3 w = true ->
  exists p s arr w5 tp rw mi ci,
    thpool_init pf N w =
      (thread_init_loop pf (Z.to_nat N) (Some p) (Some arr) N (nprocs pf) 0 0;;
       (fun w => alive_spin (Some p) N (wakeups w) w);;
       ret (Some p)) w5 /\
    heap w5 !! p = Some (Othpool tp) /\
    threads tp = Some arr /\
    num_threads_alive tp = 0 /\
    num_threads_working tp = 0 /\
    threads_keepalive tp = 1 /\
    jobqueue_ tp = mk_jobqueue None None (Some s) 0 rw /\
    heap w5 !! s = Some (Obsem (mk_bsem 0 mi ci)) /\
    heap w5 !! arr = Some (Othreads (replicate (Z.to_nat N) junk_ptr)) /\
    p <> s /\ p <> arr /\ s <> arr /\
    sticks (trace w5) = sticks (trace w) /\
    wakeups w5 = wakeups w /\
    mallocs w5 = tail (tail (tail (mallocs w))).
Proof.
  intros HN Hok. destruct w as [h ms its ws tr].
  unfold allocs_succeed in Hok. cbn [mallocs] in Hok.
  unfold thpool_init. destruct (Z.ltb_spec N 0) as [?|_]; [lia|].
  unfold bind at 1.
  run_malloc p Hp.
  run_pool.
  run_malloc s Hs.
  apply lookup_insert_None in Hs as [Hs Hps].
  run_pool.
  run_malloc arr Harr.
  apply lookup_insert_None in Harr as [Harr Hsa].
  apply lookup_insert_None in Harr as [Harr Hpa].
  run_pool.
  exists p, s, arr. eexists. eexists. eexists. eexists. eexists.
  split; [reflexivity|].
  cbn [heap trace wakeups].
  rewrite lookup_insert_eq.
  split; [reflexivity|]. cbn.
  repeat (split; [reflexivity|]).
  split.
  { rewrite lookup_insert_ne by congruence.
    rewrite lookup_insert_ne by congruence.
    rewrite lookup_insert_ne by congruence.
    rewrite lookup_insert_eq. reflexivity. }
  split.
  { rewrite lookup_insert_ne by congruence.
    rewrite lookup_insert_eq. reflexivity. }
  repeat (split; [congruence|]).
  split; [|split; reflexivity].
  rewrite sticks_app. cbn. apply app_nil_r.
Qed.

Lemma alive_spin_unfold thpool_p num_threads sched :
  alive_spin thpool_p num_threads sched =
    (t ← load_thpool thpool_p;
     if negb (num_threads_alive t =? num_threads) then
       match sched with
       | [] => blocked
       | x :: sched' =>
           (fun w => Ret tt (set_wakeups sched' w));;
           upd_thpool thpool_p (with_num_threads_alive x);;
           alive_spin thpool_p num_threads sched'
       end
     else ret tt).
Proof. destruct sched; reflexivity. Qed.

(** The spin loop is over at once when the counter already has the value
    waited for. *)
Lemma alive_spin_done p tp N sched w :
  heap w !! p = Some (Othpool tp) ->
  num_threads_alive tp = N ->
  alive_spin (Some p) N sched w = Ret tt w.
Proof.
  intros Hp HN. rewrite alive_spin_unfold.
  rewrite (bind_Ret _ _ _ _ _ (load_thpool_Ret _ _ _ Hp)).
  rewrite HN, Z.eqb_refl. reflexivity.
Qed.

(** When the spin loop ends, only the counter of live threads has moved,
    to the value waited for. *)
Lemma alive_spin_Ret p N sched :
  forall w w' tp,
    heap w !! p = Some (Othpool tp) ->
    alive_spin (Some p) N sched w = Ret tt w' ->
    heap w' = <[p := Othpool (with_num_threads_alive N tp)]> (heap w) /\
    trace w' = trace w.
Proof.
  induction sched as [|x sched IH]; intros w w' tp Hp Hrun;
    rewrite alive_spin_unfold in Hrun;
    rewrite (bind_Ret _ _ _ _ _ (load_thpool_Ret _ _ _ Hp)) in Hrun;
    destruct (Z.eqb_spec (num_threads_alive tp) N) as [E|E];
    cbn [negb] in Hrun; try discriminate.
  - injection Hrun as <-. split; [|reflexivity].
    symmetry. apply insert_id. rewrite Hp. subst N. destruct tp; reflexivity.
  - injection Hrun as <-. split; [|reflexivity].
    symmetry. apply insert_id. rewrite Hp. subst N. destruct tp; reflexivity.
  - unfold bind at 1 in Hrun.
    assert (Hp' : heap (set_wakeups sched w) !! p = Some (Othpool tp)) by exact Hp.
    rewrite (bind_Ret _ _ _ _ _ (upd_thpool_Ret _ _ _ _ Hp')) in Hrun.
    apply IH with (tp := with_num_threads_alive x tp) in Hrun;
      [|apply lookup_insert_eq].
    destruct Hrun as [Hheap Htrace]. split; [|exact Htrace].
    rewrite Hheap. cbn. rewrite insert_insert_eq. reflexivity.
Qed.

(** C7. A negative number of threads is taken as 0: [thpool_init] gives
    the same outcome, in the same world, for any [n < 0] as for 0.  And
    when its three allocations succeed, [thpool_init(0)] returns a pool
    that is not [NULL], with no thread alive or working and an empty
    queue. *)
Theorem thpool_init_negative_as_zero (pf : platform) (n : Z) (w : world) :
  (n < 0 -> thpool_init pf n w = thpool_init pf 0 w) /\
  (allocs_succeed 3 w = true ->
   exists w' p tp arr,
     thpool_init pf 0 w = Ret (Some p) w' /\
     heap w' !! p = Some (Othpool tp) /\
     num_threads_alive tp = 0 /\
     num_threads_working tp = 0 /\
     threads tp = Some arr /\
     heap w' !! arr = Some (Othreads []) /\
     len (jobqueue_ tp) = 0 /\
     queue_rep w' (jobqueue_ tp) [] /\
     has_jobs_v w' (jobqueue_ tp) = Some 0).
Proof.
  split.
  - intros Hn. unfold thpool_init.
    destruct (Z.ltb_spec n 0) as [_|?]; [|lia]. reflexivity.
  - intros Hok.
    destruct (thpool_init_setup pf 0 w) as
      (p & s & arr & w5 & tp & rw & mi & ci & Hrun & Hp & Harr_p & Halive &
       Hwork & _ & Hq & Hs & Harr & _); [lia|exact Hok|].
    exists w5, p, tp, arr.
    split.
    { rewrite Hrun. unfold bind. change (Z.to_nat 0) with 0%nat.
      cbn [thread_init_loop Z.ltb Z.compare ret].
      rewrite (alive_spin_done _ _ _ _ _ Hp Halive). reflexivity. }
    rewrite Hq. cbn [len].
    unfold queue_rep, has_jobs_v, value_at, is_bsem.
    cbn. rewrite Hs. cbn.
    repeat split; try assumption; try reflexivity.
    + unfold INT_MAX. lia.
    + constructor.
Qed.

Lemma load_threads_Ret l a w :
  heap w !! l = Some (Othreads a) -> load_threads (Some l) w = Ret a w.
Proof. intros H. unfold load_threads, bind, load. rewrite H. reflexivity. Qed.

(** One thread started: a new thread structure [t] is put in the slot [n]
    of the array, filled in, and given the core [k]. *)
Lemma thread_init_Ret pf p arr n k a w r w' :
  thread_init pf (Some p) (Some arr) n n k w = Ret r w' ->
  heap w !! arr = Some (Othreads a) ->
  0 <= n < Z.of_nat (length a) ->
  0 <= k ->
  exists t,
    heap w !! t = None /\
    heap w' !! t = Some (Othread (mk_thread n (Some p))) /\
    heap w' !! arr = Some (Othreads (<[Z.to_nat n := Some t]> a)) /\
    (forall l, l <> t -> l <> arr -> heap w' !! l = heap w !! l) /\
    sticks (trace w') = sticks (trace w) ++ [(t, k)] /\
    wakeups w' = wakeups w.
Proof.
  intros Hrun Harr Hn Hk. destruct w as [h ms its ws tr].
  unfold thread_init in Hrun. cbn [heap] in *.
  assert (Hin : (0 <=? n) && (n <? Z.of_nat (length a)) = true)
    by (apply andb_true_iff; lia).
  assert (Hk' : (k >=? 0) = true) by lia.
  destruct (decide (head ms = Some false)) as [Hko|Hok].
  - exfalso. unfold bind at 1 in Hrun.
    rewrite (malloc_NULL (mk_world h ms its ws tr) _ Hko) in Hrun.
    erewrite bind_Ret in Hrun by (apply load_threads_Ret; exact Harr).
    rewrite Hin in Hrun. revert Hrun.
    run. discriminate.
  - unfold bind at 1 in Hrun.
    destruct (malloc_Ret (mk_world h ms its ws tr) fresh_thread Hok)
      as [Hfresh Hm].
    rewrite Hm in Hrun. clear Hm. cbn [heap mallocs inits wakeups trace] in *.
    set (t := fresh (dom h)) in *. clearbody t.
    assert (Hta : t <> arr) by congruence.
    erewrite bind_Ret in Hrun
      by (apply load_threads_Ret; cbn [heap];
          rewrite lookup_insert_ne by congruence; exact Harr).
    rewrite Hin, Hk' in Hrun.
    unfold stick_this_thread_to_core, fresh_thread in Hrun.
    revert Hrun.
    destruct (LINUX pf);
      [destruct ((k <? 0) || (k >=? NPROCESSORS_ONLN pf))|];
      run; intros [= <- <-]; exists t; cbn [heap trace wakeups];
      (split; [assumption|]);
      (split; [apply lookup_insert_eq|]);
      (split; [rewrite lookup_insert_ne by congruence;
               rewrite lookup_insert_eq; reflexivity|]);
      (split; [intros l Hlt Hla; rewrite !lookup_insert_ne by congruence;
               reflexivity|]);
      (split; [|reflexivity]);
      rewrite sticks_app; reflexivity.
Qed.

(** The cursor of the round-robin: one more, back to 0 when it reaches the
    number of processors. *)
Lemma next_core n P :
  1 <= P <= INT_MAX ->
  (if wrap (n mod P + 1) >=? P then 0 else wrap (n mod P + 1)) =
    (n + 1) mod P.
Proof.
  intros HP. assert (HP0 : 0 < P) by lia.
  pose proof (Z.mod_pos_bound n P HP0) as Hb.
  rewrite wrap_in_int by (unfold in_int, INT_MIN, INT_MAX in *; lia).
  rewrite <- (Zplus_mod_idemp_l n 1 P).
  destruct (Z.geb_spec (n mod P + 1) P) as [Hge|Hlt].
  - replace (n mod P + 1) with P by lia. rewrite Z_mod_same_full. reflexivity.
  - rewrite (Z.mod_small (n mod P + 1)) by lia. reflexivity.
Qed.

Lemma thread_init_loop_unfold pf fuel thpool_p arr N P n k :
  thread_init_loop pf fuel thpool_p arr N P n k =
    if n <? N then
      match fuel with
      | O => blocked
      | S fuel' =>
          thread_init pf thpool_p arr n n k;;
          let k := wrap (k + 1) in
          let k := if k >=? P then 0 else k in
          thread_init_loop pf fuel' thpool_p arr N P (wrap (n + 1)) k
      end
    else ret tt.
Proof. destruct fuel; reflexivity. Qed.

(** The threads started by the loop from index [n] on: their structures
    [ts] fill the rest of the array, the one of index [n + i] has id
    [n + i] and was given the core [(n + i) mod P]. *)
Lemma thread_init_loop_Ret pf p arr N P :
  1 <= P <= INT_MAX ->
  0 <= N <= INT_MAX ->
  forall fuel n k w w' a,
    thread_init_loop pf fuel (Some p) (Some arr) N P n k w = Ret tt w' ->
    0 <= n <= N ->
    fuel = Z.to_nat (N - n) ->
    k = n mod P ->
    heap w !! arr = Some (Othreads a) ->
    length a = Z.to_nat N ->
    exists ts,
      length ts = fuel /\
      heap w' !! arr = Some (Othreads (take (Z.to_nat n) a ++ map Some ts)) /\
      (forall i t, ts !! i = Some t ->
         heap w' !! t = Some (Othread (mk_thread (n + Z.of_nat i) (Some p))) /\
         heap w !! t = None) /\
      (forall l, heap w !! l <> None -> l <> arr -> heap w' !! l = heap w !! l) /\
      sticks (trace w') =
        sticks (trace w) ++
        zip ts (map (fun i => (n + Z.of_nat i) mod P) (seq 0 fuel)) /\
      wakeups w' = wakeups w.
Proof.
  intros HP HN. induction fuel as [|fuel IH];
    intros n k w w' a Hrun Hn Hfuel Hk Harr Hlen;
    rewrite thread_init_loop_unfold in Hrun.
  - assert (n = N) by lia. subst n.
    rewrite Z.ltb_irrefl in Hrun. injection Hrun as <-.
    exists []. cbn. rewrite app_nil_r, take_ge by lia.
    repeat split; auto.
    + match goal with H : [] !! _ = Some _ |- _ =>
        rewrite lookup_nil in H; discriminate end.
    + match goal with H : [] !! _ = Some _ |- _ =>
        rewrite lookup_nil in H; discriminate end.
    + rewrite app_nil_r. reflexivity.
  - assert (Hlt : n < N) by lia.
    destruct (Z.ltb_spec n N) as [_|?]; [|lia].
    apply bind_Ret_inv in Hrun as (r & w1 & Hstep & Hrun).
    assert (HP0 : 0 < P) by lia.
    pose proof (Z.mod_pos_bound n P HP0) as Hkb.
    destruct (thread_init_Ret _ _ _ _ _ a _ _ _ Hstep Harr)
      as (t & Hfresh & Ht & Harr1 & Hframe1 & Hsticks1 & Hwk1);
      [lia|lia|].
    rewrite (wrap_in_int (n + 1)) in Hrun
      by (unfold in_int, INT_MIN, INT_MAX in *; lia).
    subst k. cbv zeta in Hrun. rewrite (next_core n P HP) in Hrun.
    assert (Hta : t <> arr) by congruence.
    apply IH with (a := <[Z.to_nat n := Some t]> a) in Hrun;
      [|lia|lia|reflexivity|exact Harr1|rewrite length_insert; exact Hlen].
    destruct Hrun as (ts & Hlts & Harr' & Hts & Hframe & Hsticks & Hwk).
    exists (t :: ts).
    split; [cbn; lia|].
    split.
    { rewrite Harr'. do 2 f_equal.
      replace (Z.to_nat (n + 1)) with (S (Z.to_nat n)) by lia.
      assert (Hnn : (Z.to_nat n < length a)%nat) by lia.
      rewrite (take_S_r (<[Z.to_nat n := Some t]> a) (Z.to_nat n) (Some t))
        by (apply list_lookup_insert_eq; exact Hnn).
      rewrite take_insert_ge by lia.
      rewrite <- app_assoc. reflexivity. }
    split.
    { intros [|i] t' Hi; cbn in Hi.
      - injection Hi as <-. rewrite Z.add_0_r. split; [|exact Hfresh].
        rewrite Hframe by congruence. exact Ht.
      - destruct (Hts _ _ Hi) as [Ht' Hfresh'].
        replace (n + Z.of_nat (S i)) with (n + 1 + Z.of_nat i) by lia.
        split; [exact Ht'|].
        rewrite <- Hframe1; [exact Hfresh'|congruence|congruence]. }
    split.
    { intros l Hl Hla. rewrite Hframe.
      - apply Hframe1; congruence.
      - rewrite Hframe1; congruence.
      - exact Hla. }
    split; [|congruence].
    rewrite Hsticks, Hsticks1, <- app_assoc. f_equal.
    cbn [seq map zip zip_with app]. rewrite Z.add_0_r. f_equal. f_equal.
    rewrite <- seq_shift, List.map_map.
    apply List.map_ext. intros i. f_equal. lia.
Qed.

(** Running one [malloc] whose answer is known. *)
Ltac run_malloc_known l Hl :=
  match goal with
  | |- context [malloc ?i (mk_world ?h (true :: ?ms) ?its ?ws ?tr)] =>
      let Hm := fresh "Hm" in
      destruct (malloc_Ret (mk_world h (true :: ms) its ws tr) i
                  ltac:(discriminate)) as [Hl Hm];
      rewrite Hm; clear Hm;
      cbn [heap mallocs inits wakeups trace tail] in *;
      set (l := fresh (dom _)) in *; clearbody l
  | |- context [malloc ?i (mk_world ?h (false :: ?ms) ?its ?ws ?tr)] =>
      rewrite (malloc_NULL (mk_world h (false :: ms) its ws tr) i eq_refl);
      cbn [heap mallocs inits wakeups trace tail set_mallocs] in *
  end.

Arguments jobqueue_destroy : simpl never.

(** Case analysis on whatever a goal [_ = Ret (Some _) _ -> False] is
    stuck on, when none of the ways out returns a pool. *)
Ltac no_pool :=
  intros;
  repeat match goal with
         | H : context [match ?x with _ => _ end] |- _ =>
             destruct x; try discriminate H
         end;
  try discriminate.

(** A pool is returned only if the three allocations of [thpool_init]
    succeeded. *)
Lemma thpool_init_Ret_allocs pf N w p w' :
  thpool_init pf N w = Ret (Some p) w' -> allocs_succeed 3 w = true.
Proof.
  destruct w as [h ms its ws tr]. unfold allocs_succeed, allocs_ok.
  cbn [mallocs]. unfold thpool_init.
  generalize (if N <? 0 then 0 else N). intros N'.
  destruct ms as [|[] ms]; [reflexivity| |].
  2:{ intros Hrun; exfalso; revert Hrun; unfold bind at 1.
      run_malloc_known q Hq. run_pool. discriminate. }
  destruct ms as [|[] ms]; [reflexivity| |].
  2:{ intros Hrun; exfalso; revert Hrun; unfold bind at 1.
      run_malloc_known q Hq. run_pool.
      run_malloc_known s Hs. run_pool. no_pool. }
  destruct ms as [|[] ms]; [reflexivity|reflexivity|].
  intros Hrun; exfalso; revert Hrun; unfold bind at 1.
  run_malloc_known q Hq. run_pool.
  run_malloc_known s Hs. apply lookup_insert_None in Hs as [Hs Hqs].
  run_pool.
  run_malloc_known x Hx. run_pool. no_pool.
Qed.

(** C8. Cores are handed out round-robin: when [thpool_init] returns a pool
    of [N] workers on a machine where [nprocs()] is [P >= 1], the thread
    structures [ts] in the pool's array are such that the one at index [n]
    has id [n], and the calls to [stick_this_thread_to_core] made since the
    start are, in order, one per worker, giving worker [n] the core
    [n mod P]: the cursor starts at 0, goes up by one per worker and wraps
    to 0 after core [P - 1]. *)
Theorem thpool_init_round_robin (pf : platform) (N : Z) (w w' : world)
    (p : loc) :
  1 <= nprocs pf <= INT_MAX ->
  0 <= N <= INT_MAX ->
  thpool_init pf N w = Ret (Some p) w' ->
  exists tp arr ts,
    heap w' !! p = Some (Othpool tp) /\
    threads tp = Some arr /\
    heap w' !! arr = Some (Othreads (map Some ts)) /\
    length ts = Z.to_nat N /\
    (forall n t, ts !! n = Some t ->
       heap w' !! t = Some (Othread (mk_thread (Z.of_nat n) (Some p)))) /\
    sticks (trace w') =
      sticks (trace w) ++
      zip ts (map (fun n => Z.of_nat n mod nprocs pf) (seq 0 (Z.to_nat N))).
Proof.
  intros HP HN Hrun.
  pose proof (thpool_init_Ret_allocs _ _ _ _ _ Hrun) as Hok.
  destruct (thpool_init_setup pf N w) as
    (p' & s & arr & w5 & tp & rw & mi & ci & Heq & Hp & Harr_p & Halive &
     Hwork & Hkeep & Hq & Hs & Harr & Hps & Hpa & Hsa & Hsticks5 & Hwk5 & _);
    [lia|exact Hok|].
  rewrite Heq in Hrun. clear Heq.
  apply bind_Ret_inv in Hrun as ([] & w6 & Hloop & Hrun).
  apply bind_Ret_inv in Hrun as ([] & w7 & Hspin & [= -> <-]).
  destruct (thread_init_loop_Ret pf p arr N (nprocs pf) HP HN _ _ _ _ _
              (replicate (Z.to_nat N) junk_ptr) Hloop)
    as (ts & Hlts & Harr6 & Hts & Hframe & Hsticks6 & Hwk6);
    [lia|lia|reflexivity|exact Harr|rewrite length_replicate; reflexivity|].
  assert (Hp6 : heap w6 !! p = Some (Othpool tp))
    by (rewrite Hframe; [exact Hp|congruence|exact Hpa]).
  destruct (alive_spin_Ret _ _ _ _ _ _ Hp6 Hspin) as [Hheap7 Htrace7].
  exists (with_num_threads_alive N tp), arr, ts.
  rewrite Hheap7, Htrace7.
  split; [apply lookup_insert_eq|].
  split; [exact Harr_p|].
  split.
  { rewrite lookup_insert_ne by exact Hpa. rewrite Harr6.
    rewrite take_0. reflexivity. }
  split; [rewrite Hlts; lia|].
  split.
  { intros n t Hn. destruct (Hts _ _ Hn) as [Ht Hfresh].
    rewrite lookup_insert_ne by congruence.
    rewrite Ht. rewrite Z.add_0_l. reflexivity. }
  rewrite Hsticks6, Hsticks5. reflexivity.
Qed.

(** *** [thpool_init] does return *)

Lemma thread_init_returns pf p arr n k a w :
  heap w !! arr = Some (Othreads a) ->
  0 <= n < Z.of_nat (length a) ->
  0 <= k ->
  head (mallocs w) <> Some false ->
  exists w',
    thread_init pf (Some p) (Some arr) n n k w = Ret 0 w' /\
    mallocs w' = tail (mallocs w).
Proof.
  intros Harr Hn Hk Hok. destruct w as [h ms its ws tr].
  unfold thread_init. cbn [heap mallocs] in *.
  assert (Hin : (0 <=? n) && (n <? Z.of_nat (length a)) = true)
    by (apply andb_true_iff; lia).
  assert (Hk' : (k >=? 0) = true) by lia.
  unfold bind at 1.
  destruct (malloc_Ret (mk_world h ms its ws tr) fresh_thread Hok)
    as [Hfresh Hm].
  rewrite Hm. clear Hm. cbn [heap mallocs inits wakeups trace] in *.
  set (t := fresh (dom h)) in *. clearbody t.
  assert (Hta : t <> arr) by congruence.
  erewrite bind_Ret
    by (apply load_threads_Ret; cbn [heap];
        rewrite lookup_insert_ne by congruence; exact Harr).
  rewrite Hin, Hk'.
  unfold stick_this_thread_to_core, fresh_thread.
  destruct (LINUX pf);
    [destruct ((k <? 0) || (k >=? NPROCESSORS_ONLN pf))|];
    run; eexists; split; reflexivity.
Qed.

(** The fuel given to the loop, the number of threads left to start, is
    enough: when the allocations succeed the loop returns. *)
Lemma thread_init_loop_returns pf p arr N P :
  P <= INT_MAX ->
  0 <= N <= INT_MAX ->
  forall fuel n k w a,
    fuel = Z.to_nat (N - n) ->
    0 <= n <= N ->
    0 <= k < Z.max P 1 ->
    heap w !! arr = Some (Othreads a) ->
    length a = Z.to_nat N ->
    allocs_ok fuel (mallocs w) = true ->
    exists w',
      thread_init_loop pf fuel (Some p) (Some arr) N P n k w = Ret tt w' /\
      (forall l, heap w !! l <> None -> l <> arr ->
         heap w' !! l = heap w !! l) /\
      wakeups w' = wakeups w.
Proof.
  intros HP HN. induction fuel as [|fuel IH];
    intros n k w a Hfuel Hn Hk Harr Hlen Hok;
    rewrite thread_init_loop_unfold.
  - destruct (Z.ltb_spec n N) as [?|_]; [lia|]. exists w. auto.
  - destruct (Z.ltb_spec n N) as [_|?]; [|lia].
    destruct (allocs_succeed_S _ _ Hok) as [Hhead Htail].
    destruct (thread_init_returns pf p arr n k a w Harr) as (w1 & Hstep & Hms);
      [lia|lia|exact Hhead|].
    destruct (thread_init_Ret _ _ _ _ _ a _ _ _ Hstep Harr)
      as (t & Hfresh & Ht & Harr1 & Hframe1 & _ & Hwk1); [lia|lia|].
    rewrite (bind_Ret _ _ _ _ _ Hstep). cbv zeta.
    rewrite (wrap_in_int (n + 1))
      by (unfold in_int, INT_MIN, INT_MAX in *; lia).
    rewrite (wrap_in_int (k + 1))
      by (unfold in_int, INT_MIN, INT_MAX in *; lia).
    destruct (IH (n + 1) (if k + 1 >=? P then 0 else k + 1) w1
                (<[Z.to_nat n := Some t]> a))
      as (w' & Hrun & Hframe & Hwk);
      [lia|lia|destruct (Z.geb_spec (k + 1) P); lia|exact Harr1|
       rewrite length_insert; exact Hlen|rewrite Hms; exact Htail|].
    exists w'. split; [exact Hrun|]. split; [|congruence].
    intros l Hl Hla. rewrite Hframe.
    + apply Hframe1; congruence.
    + rewrite Hframe1; congruence.
    + exact Hla.
Qed.

(** The spin loop ends as soon as the counter is seen with the value
    waited for. *)
Lemma alive_spin_returns p N sched :
  forall w tp,
    heap w !! p = Some (Othpool tp) ->
    N ∈ num_threads_alive tp :: sched ->
    exists w', alive_spin (Some p) N sched w = Ret tt w'.
Proof.
  induction sched as [|x sched IH]; intros w tp Hp Hin;
    rewrite alive_spin_unfold;
    rewrite (bind_Ret _ _ _ _ _ (load_thpool_Ret _ _ _ Hp));
    destruct (Z.eqb_spec (num_threads_alive tp) N) as [E|E];
    cbn [negb]; eauto.
  - apply elem_of_cons in Hin as [?|Hin]; [congruence|].
    apply elem_of_nil in Hin. contradiction.
  - apply elem_of_cons in Hin as [?|Hin]; [congruence|].
    unfold bind at 1.
    assert (Hp' : heap (set_wakeups sched w) !! p = Some (Othpool tp))
      by exact Hp.
    rewrite (bind_Ret _ _ _ _ _ (upd_thpool_Ret _ _ _ _ Hp')).
    eapply IH; [apply lookup_insert_eq|exact Hin].
Qed.

Lemma allocs_ok_tail n ms :
  allocs_ok (S n) ms = true -> allocs_ok n (tail ms) = true.
Proof. intros H. apply (allocs_succeed_S _ _ H). Qed.

(** [thpool_init] returns a pool whenever its allocations succeed (three,
    and one per thread) and the worker threads are at some point all seen
    alive. *)
Lemma thpool_init_returns pf N w :
  0 <= N <= INT_MAX ->
  nprocs pf <= INT_MAX ->
  allocs_succeed (3 + Z.to_nat N) w = true ->
  N ∈ 0 :: wakeups w ->
  exists p w', thpool_init pf N w = Ret (Some p) w'.
Proof.
  intros HN HP Hok Hseen.
  assert (Hok3 : allocs_succeed 3 w = true).
  { unfold allocs_succeed, allocs_ok in *.
    apply forallb_forall. intros b Hb.
    apply (proj1 (forallb_forall _ _) Hok).
    apply list_elem_of_In in Hb. apply list_elem_of_In.
    apply elem_of_take in Hb as (i & Hi & Hlt).
    apply elem_of_take. exists i. split; [exact Hi|lia]. }
  destruct (thpool_init_setup pf N w) as
    (p & s & arr & w5 & tp & rw & mi & ci & Heq & Hp & Harr_p & Halive &
     _ & _ & _ & _ & Harr & _ & Hpa & _ & _ & Hwk5 & Hms5);
    [lia|exact Hok3|].
  destruct (thread_init_loop_returns pf p arr N (nprocs pf) HP HN
              (Z.to_nat N) 0 0 w5 (replicate (Z.to_nat N) junk_ptr))
    as (w6 & Hloop & Hframe & Hwk6);
    [lia|lia|lia|exact Harr|apply length_replicate| |].
  { rewrite Hms5. unfold allocs_succeed in Hok.
    do 3 apply allocs_ok_tail. exact Hok. }
  assert (Hp6 : heap w6 !! p = Some (Othpool tp))
    by (rewrite Hframe; [exact Hp|congruence|exact Hpa]).
  destruct (alive_spin_returns p N (wakeups w6) w6 tp Hp6) as [w7 Hspin].
  { rewrite Halive, Hwk6, Hwk5. exact Hseen. }
  exists p, w7. rewrite Heq.
  rewrite (bind_Ret _ _ _ _ _ Hloop).
  unfold bind at 1. rewrite Hspin. reflexivity.
Qed.

(** * The theorems at work on small worlds *)

Lemma bsem_post_idempotent_witness :
  exists w1,
    bsem_post (Some 1%positive) (signal_world 0 []) = Ret tt w1 /\
    value_at 1%positive w1 = Some 1 /\
    exists w2, bsem_post_all (Some 1%positive) w1 = Ret tt w2 /\
               value_at 1%positive w2 = Some 1.
Proof.
  destruct (bsem_post_idempotent (signal_world 0 []) 1%positive
              (mk_bsem 0 true true) eq_refl)
    as [(w1 & w2 & H1 & H2 & Hv1 & Hv2 & Hh) _].
  exists w1. split; [exact H1|]. split; [exact Hv1|].
  injection H1 as <-.
  eexists. split; reflexivity.
Defined.

Lemma bsem_init_validates_witness :
  (exists w', bsem_init (Some 1%positive) 1 (signal_world 5 []) = Ret tt w' /\
              value_at 1%positive w' = Some 1) /\
  (exists w', bsem_init (Some 1%positive) 2 (signal_world 5 []) = Exited 1 w') /\
  (exists w', dec_bsem_init (Some 1%positive) 7 (signal_world 5 []) = Ret tt w' /\
              value_at 1%positive w' = Some 7) /\
  (exists w', dec_bsem_init (Some 1%positive) (-1) (signal_world 5 [])
              = Exited 1 w').
Proof.
  pose proof (bsem_init_validates (signal_world 5 []) 1%positive
                (mk_bsem 5 true true)) as H.
  split; [apply (H 1 eq_refl); lia|].
  split; [apply (H 2 eq_refl); lia|].
  split; [apply (H 7 eq_refl); lia|].
  apply (H (-1) eq_refl); lia.
Defined.

Lemma dec_bsem_post_no_clamp_witness :
  exists w',
    posts 5 (Some 1%positive) (signal_world 2 []) = Ret tt w' /\
    value_at 1%positive w' = Some (-3) /\
    signals 1%positive (trace w') = 1%nat.
Proof.
  destruct (dec_bsem_post_no_clamp (signal_world 2 []) 1%positive
              (mk_bsem 2 true true) 5 eq_refl)
    as (w' & Hrun & Hv & _ & Hsig).
  - vm_compute. discriminate.
  - vm_compute. discriminate.
  - exists w'. split; [exact Hrun|]. split; [exact Hv|]. exact Hsig.
Defined.

Lemma bsem_wait_leaves_one_witness :
  bsem_wait (Some 1%positive) (signal_world 0 [0; 1; 7]) = Ret tt waited_world /\
  value_at 1%positive waited_world = Some 1 /\
  wakeups waited_world = [7].
Proof.
  assert (Hrun : bsem_wait (Some 1%positive) (signal_world 0 [0; 1; 7])
                 = Ret tt waited_world) by (vm_compute; reflexivity).
  split; [exact Hrun|].
  destruct (bsem_wait_leaves_one (signal_world 0 [0; 1; 7]) waited_world
              1%positive (mk_bsem 0 true true) eq_refl Hrun)
    as (woken & seen & Hw & Hseen & Hall & Hv & _).
  split; [exact Hv|]. reflexivity.
Defined.

Lemma dec_bsem_wait_leaves_zero_witness :
  dec_bsem_wait (Some 1%positive) (signal_world 2 [1; 0; 7])
    = Ret tt dec_waited_world /\
  value_at 1%positive dec_waited_world = Some 0.
Proof.
  assert (Hrun : dec_bsem_wait (Some 1%positive) (signal_world 2 [1; 0; 7])
                 = Ret tt dec_waited_world) by (vm_compute; reflexivity).
  split; [exact Hrun|].
  apply (dec_bsem_wait_leaves_zero (signal_world 2 [1; 0; 7]) dec_waited_world
           1%positive (mk_bsem 2 true true) eq_refl Hrun).
Defined.

Lemma queue_world_rep : queue_rep queue_world queue_3 [3%positive].
Proof.
  unfold queue_rep. repeat split; try reflexivity.
  - vm_compute. discriminate.
  - apply NoDup_singleton.
Qed.

Lemma jobqueue_fifo_witness :
  exists w1 q1 w' q',
    push_all queue_3 [4%positive; 5%positive] queue_world = Ret q1 w1 /\
    rear q1 = Some 5%positive /\
    pull_n 4 q1 w1 =
      Ret ([Some 3%positive; Some 4%positive; Some 5%positive; None], q') w' /\
    queue_rep w' q' [].
Proof.
  destruct (jobqueue_fifo queue_world queue_3 [3%positive]
              [4%positive; 5%positive] 4 queue_world_rep)
    as (w1 & q1 & w' & q' & Hpush & Hrear & _ & Hpull & Hrep).
  - repeat constructor.
  - apply (bool_decide_unpack _). vm_compute. exact I.
  - vm_compute. discriminate.
  - exists w1, q1, w', q'. auto.
Defined.

Lemma jobqueue_signal_repaired_witness :
  (exists w' q',
      jobqueue_pull queue_3 queue_world = Ret (Some 3%positive, q') w' /\
      len q' = 0 /\ has_jobs_v w' q' = Some 0) /\
  (exists w' q',
      jobqueue_push queue_3 (Some 4%positive) queue_world = Ret q' w' /\
      len q' = 2 /\ has_jobs_v w' q' = Some 1) /\
  (exists w' q',
      jobqueue_clear queue_3 queue_world = Ret q' w' /\
      len q' = 0 /\ has_jobs_v w' q' = Some 0) /\
  (exists w' q',
      jobqueue_pull (jobqueue_ pool_0) (ready_world 1) = Ret (None, q') w' /\
      has_jobs_v (ready_world 1) (jobqueue_ pool_0) = Some 1 /\
      has_jobs_v w' q' = Some 0).
Proof.
  destruct (jobqueue_signal_repaired queue_world queue_3 [3%positive]
              queue_world_rep) as (Hpull & Hpush & Hclear).
  split; [|split; [|split]].
  - destruct Hpull as (w' & q' & Hrun & Hlen & Hv & _).
    exists w', q'. split; [exact Hrun|]. split; [exact Hlen|].
    rewrite Hv, Hlen. reflexivity.
  - destruct (Hpush 4%positive) as (w' & q' & Hrun & Hlen & Hv & _).
    + reflexivity.
    + apply (bool_decide_unpack _). vm_compute. exact I.
    + vm_compute. reflexivity.
    + exists w', q'. auto.
  - exact Hclear.
  - assert (Hrep : queue_rep (ready_world 1) (jobqueue_ pool_0) []).
    { unfold queue_rep. repeat split; try reflexivity.
      - vm_compute. discriminate.
      - constructor. }
    destruct (jobqueue_signal_repaired (ready_world 1) (jobqueue_ pool_0) []
                Hrep) as ((w' & q' & Hrun & _ & _ & _ & _ & Hempty) & _).
    exists w', q'. split; [exact Hrun|]. split; [reflexivity|].
    apply Hempty. reflexivity.
Defined.

(** C2 as it was stated fails on a queue that is already empty: with
    [has_jobs] at 1 and nothing queued, a pull dequeues nothing and yet
    drives the value to 0. *)
Lemma jobqueue_pull_on_empty_counterexample :
  len (jobqueue_ pool_0) = 0 /\
  has_jobs_v (ready_world 1) (jobqueue_ pool_0) = Some 1 /\
  (exists w' q',
      jobqueue_pull (jobqueue_ pool_0) (ready_world 1) = Ret (None, q') w' /\
      len q' = 0 /\
      has_jobs_v w' q' = Some 0) /\
  ~ (forall r w' q',
       jobqueue_pull (jobqueue_ pool_0) (ready_world 1) = Ret (r, q') w' ->
       has_jobs_v w' q' = Some 0 ->
       r <> None).
Proof.
  assert (Hrun : exists w' q',
            jobqueue_pull (jobqueue_ pool_0) (ready_world 1) =
              Ret (None, q') w' /\
            len q' = 0 /\
            has_jobs_v w' q' = Some 0).
  { eexists. eexists. split; [vm_compute; reflexivity|].
    split; reflexivity. }
  split; [reflexivity|]. split; [reflexivity|]. split; [exact Hrun|].
  intros H. destruct Hrun as (w' & q' & Hrun & _ & Hv).
  exact (H None w' q' Hrun Hv eq_refl).
Qed.

Lemma pool_world_rep ms : queue_rep (pool_world ms) (jobqueue_ pool_0) [].
Proof.
  unfold queue_rep. repeat split; try reflexivity.
  - vm_compute. discriminate.
  - constructor.
Qed.

Lemma thpool_add_work_with_sem_codes_witness :
  (exists w',
      thpool_add_work_with_sem (Some 1%positive) (Some 3%positive) 5 6
        (pool_world [false]) = Ret (-1) w' /\
      heap w' = heap (pool_world [false])) /\
  (exists w',
      thpool_add_work_with_sem (Some 1%positive) None 5 6
        (pool_world [true]) = Ret (-2) w' /\
      heap w' !! 1%positive = Some (Othpool pool_0)) /\
  (exists w' tp' j jb,
      thpool_add_work_with_sem (Some 1%positive) (Some 3%positive) 5 6
        (pool_world [true]) = Ret 0 w' /\
      heap w' !! 1%positive = Some (Othpool tp') /\
      queue_rep w' (jobqueue_ tp') [j] /\
      heap w' !! j = Some (Ojob jb) /\
      signal_ jb = Some 3%positive).
Proof.
  assert (Hlt : Z.of_nat (length (@nil loc)) < INT_MAX) by reflexivity.
  split; [|split].
  - destruct (thpool_add_work_with_sem_codes (pool_world [false]) 1%positive
                pool_0 [] (Some 3%positive) 5 6 eq_refl
                (pool_world_rep [false]) Hlt) as (Hfail & _ & _).
    destruct (Hfail eq_refl) as (w' & Hrun & Hheap & _).
    exists w'. auto.
  - destruct (thpool_add_work_with_sem_codes (pool_world [true]) 1%positive
                pool_0 [] None 5 6 eq_refl
                (pool_world_rep [true]) Hlt) as (_ & Hnull & _).
    destruct Hnull as (w' & j & Hrun & _ & _ & Hp & _);
      [discriminate|reflexivity|].
    exists w'. auto.
  - destruct (thpool_add_work_with_sem_codes (pool_world [true]) 1%positive
                pool_0 [] (Some 3%positive) 5 6 eq_refl
                (pool_world_rep [true]) Hlt) as (_ & _ & Hok).
    destruct (Hok ltac:(discriminate) 3%positive eq_refl)
      as (w' & tp' & j & jb & Hrun & _ & Hp & Hrep & Hj & Hs & _).
    exists w', tp', j, jb. auto.
Defined.

(** C6 as it was stated fails where the allocation fails and the signal is
    [NULL] at once: the result is -1, not -2. *)
Lemma thpool_add_work_with_sem_null_signal_counterexample :
  (exists w',
      thpool_add_work_with_sem (Some 1%positive) None 5 6 (pool_world [false])
        = Ret (-1) w') /\
  ~ (exists w',
      thpool_add_work_with_sem (Some 1%positive) None 5 6 (pool_world [false])
        = Ret (-2) w').
Proof.
  split.
  - eexists. vm_compute. reflexivity.
  - intros [w' H]. vm_compute in H. discriminate.
Qed.

Lemma thpool_init_negative_as_zero_witness :
  thpool_init two_of_four (-3) empty_world = thpool_init two_of_four 0 empty_world /\
  exists w' p tp,
    thpool_init two_of_four 0 empty_world = Ret (Some p) w' /\
    heap w' !! p = Some (Othpool tp) /\
    num_threads_alive tp = 0 /\
    queue_rep w' (jobqueue_ tp) [].
Proof.
  destruct (thpool_init_negative_as_zero two_of_four (-3) empty_world)
    as [Hneg Hzero].
  split; [apply Hneg; reflexivity|].
  destruct (Hzero eq_refl)
    as (w' & p & tp & arr & Hrun & Hp & Halive & _ & _ & _ & _ & Hrep & _).
  exists w', p, tp. auto.
Defined.

Lemma thpool_init_round_robin_witness :
  thpool_init two_of_four 3 empty_world = Ret (Some 1%positive) pool_3_world /\
  exists ts,
    length ts = 3%nat /\
    sticks (trace pool_3_world) = zip ts [0; 1; 0].
Proof.
  assert (Hrun : thpool_init two_of_four 3 empty_world
                 = Ret (Some 1%positive) pool_3_world)
    by (vm_compute; reflexivity).
  split; [exact Hrun|].
  destruct (thpool_init_round_robin two_of_four 3 empty_world pool_3_world
              1%positive) as (tp & arr & ts & _ & _ & _ & Hlen & _ & Hsticks).
  - vm_compute. split; discriminate.
  - vm_compute. split; discriminate.
  - exact Hrun.
  - exists ts. split; [exact Hlen|]. rewrite Hsticks. reflexivity.
Defined.

(** * More of the pool *)

(** ** Submitting work without a signal *)

(** X1. [thpool_add_work] returns -1 with the heap untouched when the job
    cannot be allocated; otherwise it returns 0, the new job is the rear of
    the queue with the function and argument given and no signal, and the
    queue's [has_jobs] is up. *)
Theorem thpool_add_work_codes (w : world) (p : loc) (tp : thpool_)
    (js : list loc) (function_p : fnptr) (arg_p : voidptr) :
  heap w !! p = Some (Othpool tp) ->
  queue_rep w (jobqueue_ tp) js ->
  Z.of_nat (length js) < INT_MAX ->
  (head (mallocs w) = Some false ->
     exists w',
       thpool_add_work (Some p) function_p arg_p w = Ret (-1) w' /\
       heap w' = heap w) /\
  (head (mallocs w) <> Some false ->
     exists w' tp' j jb,
       thpool_add_work (Some p) function_p arg_p w = Ret 0 w' /\
       heap w !! j = None /\
       heap w' !! p = Some (Othpool tp') /\
       queue_rep w' (jobqueue_ tp') (js ++ [j]) /\
       has_jobs_v w' (jobqueue_ tp') = Some 1 /\
       heap w' !! j = Some (Ojob jb) /\
       signal_ jb = None /\ function jb = function_p /\ arg jb = arg_p).
Proof.
  intros Hp Hrep Hlt. unfold thpool_add_work. split.
  - intros Hko.
    rewrite (bind_Ret _ _ _ _ _ (malloc_NULL _ _ Hko)).
    eexists. split; reflexivity.
  - intros Hok.
    destruct (malloc_Ret w fresh_job Hok) as [Hfresh Hm].
    rewrite (bind_Ret _ _ _ _ _ Hm).
    set (j := fresh (dom (heap w))) in *.
    set (jb := mk_job (prev junk_job) function_p arg_p None).
    set (w1 := mk_world (<[j := Ojob jb]> (heap w)) (tail (mallocs w))
                 (inits w) (wakeups w) (trace w)).
    assert (Hfill :
      (set_function (Some j) function_p;;
       set_arg (Some j) arg_p;;
       set_signal_ (Some j) None)
        (mk_world (<[j := fresh_job]> (heap w)) (tail (mallocs w))
           (inits w) (wakeups w) (trace w)) = Ret tt w1).
    { subst w1 jb. unfold fresh_job. run. reflexivity. }
    assert (Hj1 : heap w1 !! j = Some (Ojob jb)) by apply lookup_insert_eq.
    assert (Hnotin : j ∉ js).
    { intros Hin. eapply (queue_rep_allocated _ _ _ _ Hrep); eauto. }
    assert (Hp1 : heap w1 !! p = Some (Othpool tp)).
    { cbn. rewrite lookup_insert_ne by congruence. exact Hp. }
    assert (Hrep1 : queue_rep w1 (jobqueue_ tp) js).
    { eapply queue_rep_agree; [exact Hrep| |]; intros l Hl; cbn [heap w1];
        apply lookup_insert_ne; intros <-;
        eapply (queue_rep_allocated _ _ _ _ Hrep); eauto. }
    destruct (submit_push_spec w1 p tp js j jb Hp1 Hj1 Hrep1 Hnotin Hlt)
      as (w' & tp' & jb' & Hrun & Hp' & Hrep' & Hv & Hj' & Hf & Ha & Hs).
    exists w', tp', j, jb'.
    split.
    { apply bind_Ret_inv in Hfill as ([] & wa & Ha1 & Hfill).
      apply bind_Ret_inv in Hfill as ([] & wb & Hb1 & Hc1).
      rewrite (bind_Ret _ _ _ _ _ Ha1), (bind_Ret _ _ _ _ _ Hb1),
        (bind_Ret _ _ _ _ _ Hc1), (bind_Ret _ _ _ _ _ Hrun).
      reflexivity. }
    auto 10.
Qed.

(** ** Setting up and tearing down the queue *)

(** X2. [jobqueue_init] gives an empty queue whatever the structure held.
    If its semaphore cannot be allocated it returns -1 with the heap
    untouched and [has_jobs] left [NULL]; otherwise it returns 0, the only
    new block is the semaphore, its value is 0 and the queue is a
    well-formed empty one. *)
Theorem jobqueue_init_empty (w : world) (q : jobqueue) :
  (head (mallocs w) = Some false ->
     exists w' q',
       jobqueue_init q w = Ret (-1, q') w' /\
       heap w' = heap w /\
       has_jobs q' = None /\ len q' = 0 /\ front q' = None /\ rear q' = None) /\
  (head (mallocs w) <> Some false ->
     exists w' q' s,
       jobqueue_init q w = Ret (0, q') w' /\
       heap w !! s = None /\
       has_jobs q' = Some s /\
       queue_rep w' q' [] /\
       has_jobs_v w' q' = Some 0 /\
       (forall l, l <> s -> heap w' !! l = heap w !! l)).
Proof.
  destruct w as [h ms its ws tr]. cbn [heap mallocs]. split.
  - intros Hko. unfold jobqueue_init. unfold bind at 1.
    rewrite (malloc_NULL (mk_world h ms its ws tr) _ Hko).
    eexists. eexists. split; [reflexivity|]. cbn. auto 10.
  - intros Hok. unfold jobqueue_init. unfold bind at 1.
    destruct (malloc_Ret (mk_world h ms its ws tr) fresh_bsem Hok)
      as [Hfresh Hm].
    rewrite Hm. clear Hm. cbn [heap mallocs inits wakeups trace] in *.
    set (s := fresh (dom h)) in *. clearbody s.
    run_pool.
    eexists. eexists. exists s. split; [reflexivity|].
    split; [exact Hfresh|]. split; [reflexivity|].
    unfold queue_rep, has_jobs_v, value_at, is_bsem. cbn.
    rewrite lookup_insert_eq.
    repeat split; try reflexivity.
    + unfold INT_MAX. lia.
    + constructor.
    + intros l Hl. apply lookup_insert_ne. congruence.
Qed.

(** X3. [bsem_reset] never ends the process and leaves the value at 0
    whatever the semaphore held; the condition and the mutex are destroyed
    first exactly when they had been initialised, and both are then
    initialised again. *)
Theorem bsem_reset_zero (w : world) (l : loc) (b : bsem) :
  heap w !! l = Some (Obsem b) ->
  exists w' mi ci,
    bsem_reset (Some l) w = Ret tt w' /\
    heap w' = <[l := Obsem (mk_bsem 0 mi ci)]> (heap w) /\
    trace w' =
      trace w ++
      (if cond_inzed b then [pthread_cond_destroy (bsem_cond l)] else []) ++
      (if mutex_inzed b then [pthread_mutex_destroy (bsem_mutex l)] else []) ++
      [pthread_mutex_init (bsem_mutex l); pthread_cond_init (bsem_cond l)] /\
    mallocs w' = mallocs w /\ wakeups w' = wakeups w.
Proof.
  intros H. destruct w as [h ms its ws tr]. cbn [heap] in H.
  unfold bsem_reset, bsem_init.
  destruct b as [x [] []]; run; eexists; eexists; eexists;
    (split; [reflexivity|]); cbn; auto.
Qed.

(** X4. [jobqueue_clear] empties the queue and frees what it held: every
    job that was queued is freed, the structure is left with [front] and
    [rear] at [NULL], [len] at 0 and the semaphore and mutex it had, the
    semaphore [has_jobs] holds 0, and nothing else in the heap has
    changed. *)
Theorem jobqueue_clear_frees (w : world) (q : jobqueue) (js : list loc) :
  queue_rep w q js ->
  exists w',
    jobqueue_clear q w =
      Ret (mk_jobqueue None None (has_jobs q) 0 (rwmutex_inzed q)) w' /\
    (exists s b, has_jobs q = Some s /\ heap w' !! s = Some (Obsem b) /\
                 v b = 0) /\
    (forall j, j ∈ js -> heap w' !! j = None) /\
    (forall l, l ∉ js -> Some l <> has_jobs q -> heap w' !! l = heap w !! l) /\
    mallocs w' = mallocs w /\ wakeups w' = wakeups w.
Proof.
  intros Hrep.
  destruct (jobqueue_clear_spec w q js Hrep)
    as (w' & q' & Hrun & Hrep' & Hv & Hhj & Hrw & Hfreed & Hothers & Hms).
  destruct (queue_rep_nil_inv _ _ Hrep') as (Hfr & Hre & Hlen).
  exists w'. split.
  { rewrite Hrun. f_equal. destruct q' as [fr re hj ln rw].
    cbn in Hfr, Hre, Hlen, Hhj, Hrw. subst. reflexivity. }
  split.
  { destruct Hrep' as (_ & _ & _ & _ & _ & Hsem).
    apply is_bsem_inv in Hsem as (s & b & Hs & Hb).
    exists s, b. split; [congruence|]. split; [exact Hb|].
    unfold has_jobs_v, value_at in Hv. rewrite Hs, Hb in Hv.
    congruence. }
  auto.
Qed.

Lemma bsem_destroy_spec w l b :
  heap w !! l = Some (Obsem b) ->
  exists w',
    bsem_destroy (Some l) w = Ret tt w' /\
    heap w' = delete l (heap w) /\
    mallocs w' = mallocs w /\ wakeups w' = wakeups w.
Proof.
  intros H. destruct w as [h ms its ws tr]. cbn [heap] in H.
  unfold bsem_destroy, free.
  destruct b as [x [] []]; run; eexists; (split; [reflexivity|]); cbn; auto.
Qed.

(** A heap [h'] that has lost the blocks [gone] of [h] and kept the
    others. *)
Lemma heap_without (h h' : gmap loc obj) (gone : list loc) :
  (forall l, l ∈ gone -> h' !! l = None) ->
  (forall l, l ∉ gone -> h' !! l = h !! l) ->
  h' = filter (fun kv => kv.1 ∉ gone) h.
Proof.
  intros Hgone Hkept. apply map_eq. intros l.
  destruct (decide (l ∈ gone)) as [Hin|Hnotin].
  - rewrite (Hgone l Hin). symmetry. apply map_lookup_filter_None_2.
    right. intros o _ Hno. apply Hno. exact Hin.
  - rewrite (Hkept l Hnotin).
    destruct (h !! l) as [o|] eqn:E.
    + symmetry. apply map_lookup_filter_Some. split; [exact E|exact Hnotin].
    + symmetry. apply map_lookup_filter_None_2. left. exact E.
Qed.

(** [jobqueue_destroy] on a well-formed queue. *)
Lemma jobqueue_destroy_spec (w : world) (q : jobqueue) (js : list loc)
    (s : loc) :
  queue_rep w q js ->
  has_jobs q = Some s ->
  exists w' q',
    jobqueue_destroy q w = Ret q' w' /\
    heap w' !! s = None /\
    (forall j, j ∈ js -> heap w' !! j = None) /\
    (forall l, l ∉ js -> l <> s -> heap w' !! l = heap w !! l) /\
    has_jobs q' = Some s /\
    mallocs w' = mallocs w /\ wakeups w' = wakeups w /\
    front q' = None /\ rear q' = None /\ len q' = 0 /\
    rwmutex_inzed q' = rwmutex_inzed q.
Proof.
  intros Hrep Hs.
  destruct (jobqueue_clear_spec w q js Hrep)
    as (w1 & q1 & Hrun & Hrep1 & _ & Hhj & Hrw & Hfreed & Hothers & Hms & Hwk).
  pose proof Hrep1 as (_ & _ & _ & _ & _ & Hsem).
  apply is_bsem_inv in Hsem as (s1 & sb & Hs1 & Hsb).
  assert (s1 = s) by congruence. subst s1.
  set (w2 := if rwmutex_inzed q1
             then set_trace (trace w1 ++ [pthread_mutex_destroy rwmutex]) w1
             else w1).
  assert (Hsb2 : heap w2 !! s = Some (Obsem sb))
    by (subst w2; destruct (rwmutex_inzed q1); exact Hsb).
  destruct (bsem_destroy_spec w2 s sb Hsb2) as (w' & Hdestroy & Hheap & Hms' & Hwk').
  assert (Hheap2 : heap w2 = heap w1)
    by (subst w2; destruct (rwmutex_inzed q1); reflexivity).
  assert (Hms2 : mallocs w2 = mallocs w1 /\ wakeups w2 = wakeups w1)
    by (subst w2; destruct (rwmutex_inzed q1); split; reflexivity).
  exists w', q1.
  split.
  { unfold jobqueue_destroy. rewrite (bind_Ret _ _ _ _ _ Hrun).
    erewrite bind_Ret with (w' := w2)
      by (subst w2; destruct (rwmutex_inzed q1); reflexivity).
    rewrite Hs1. rewrite (bind_Ret _ _ _ _ _ Hdestroy). reflexivity. }
  rewrite Hheap, Hheap2.
  split; [apply lookup_delete_eq|].
  split.
  { intros j Hj. destruct (decide (s = j)) as [->|Hne].
    - apply lookup_delete_eq.
    - rewrite lookup_delete_ne by exact Hne. auto. }
  split.
  { intros l Hl Hne. rewrite lookup_delete_ne by congruence.
    apply Hothers; [exact Hl|]. rewrite Hs. congruence. }
  split; [exact Hs1|].
  destruct Hms2. do 2 (split; [congruence|]).
  destruct (queue_rep_nil_inv _ _ Hrep1) as (Hfr & Hre & Hlen). auto.
Qed.

(** X5. [jobqueue_destroy] gives back everything the queue owns: the jobs
    still queued and the [has_jobs] semaphore are freed, and the rest of
    the heap is as it was: the heap that is left is the one before the call
    without these blocks.  The structure is left empty, and keeps the
    address of the freed semaphore in [has_jobs]. *)
Theorem jobqueue_destroy_releases (w : world) (q : jobqueue) (js : list loc)
    (s : loc) :
  queue_rep w q js ->
  has_jobs q = Some s ->
  exists w',
    jobqueue_destroy q w =
      Ret (mk_jobqueue None None (Some s) 0 (rwmutex_inzed q)) w' /\
    heap w' = filter (fun kv => kv.1 ∉ s :: js) (heap w) /\
    mallocs w' = mallocs w /\ wakeups w' = wakeups w.
Proof.
  intros Hrep Hs.
  destruct (jobqueue_destroy_spec w q js s Hrep Hs)
    as (w' & q' & Hrun & Hs' & Hfreed & Hkept & Hhj & Hms & Hwk &
        Hfr & Hre & Hlen & Hrw).
  exists w'. split.
  { rewrite Hrun. f_equal. destruct q' as [fr re hj ln rw].
    cbn in Hfr, Hre, Hlen, Hhj, Hrw. subst. reflexivity. }
  split; [|auto].
  apply heap_without.
  - intros l Hin. apply elem_of_cons in Hin as [->|Hin]; auto.
  - intros l Hnotin. apply not_elem_of_cons in Hnotin as [Hls Hljs]. auto.
Qed.

(** ** The completion signal from creation to release *)

Ltac run_all :=
  repeat (progress (unfold_ops; cbn in *; repeat (run_step; cbn))).

Lemma wrap_wrap_sub z n : wrap (wrap z - n) = wrap (z - n).
Proof.
  unfold wrap. f_equal.
  replace ((z + 2 ^ 31) mod 2 ^ 32 - 2 ^ 31 - n + 2 ^ 31)
    with ((z + 2 ^ 31) mod 2 ^ 32 + (- n)) by lia.
  replace (z - n + 2 ^ 31) with ((z + 2 ^ 31) + (- n)) by lia.
  apply Zplus_mod_idemp_l.
Qed.

(** [p] posts in a row: the counter goes down by [p] and nothing else
    moves in the heap. *)
Lemma posts_heap l p :
  forall w b,
    heap w !! l = Some (Obsem b) ->
    v b <= INT_MAX ->
    INT_MIN <= v b - Z.of_nat p ->
    exists w',
      posts p (Some l) w = Ret tt w' /\
      heap w' = <[l := Obsem (mk_bsem (v b - Z.of_nat p)
                            (mutex_inzed b) (cond_inzed b))]> (heap w) /\
      mallocs w' = mallocs w /\ wakeups w' = wakeups w.
Proof.
  induction p as [|p IH]; intros w b H Hmax Hmin.
  - exists w. split; [reflexivity|].
    rewrite Z.sub_0_r. split; [|auto].
    symmetry. apply insert_id. rewrite H. destruct b; reflexivity.
  - pose proof (dec_bsem_post_Ret _ _ _ H) as Hrun.
    rewrite wrap_in_int in Hrun by (unfold in_int; lia).
    match type of Hrun with _ = Ret tt ?x => set (w1 := x) in * end.
    destruct (IH w1 (mk_bsem (v b - 1) (mutex_inzed b) (cond_inzed b)))
      as (w' & Hrun' & Hheap & Hms & Hwk);
      [apply lookup_insert_eq|cbn; lia|cbn; lia|].
    exists w'. cbn [posts]. rewrite (bind_Ret _ _ _ _ _ Hrun).
    split; [exact Hrun'|]. rewrite Hheap. cbn.
    rewrite insert_insert_eq.
    replace (v b - 1 - Z.of_nat p) with (v b - Z.of_nat (S p)) by lia.
    auto.
Qed.

(** A waiter that finds the counter different from 0 and is never woken
    stays blocked. *)
Lemma dec_bsem_wait_blocked w l b :
  heap w !! l = Some (Obsem b) ->
  v b <> 0 ->
  wakeups w = [] ->
  exists w', dec_bsem_wait (Some l) w = Blocked w'.
Proof.
  intros H Hv Hwk. destruct w as [h ms its ws tr].
  cbn [heap wakeups] in *. subst ws.
  apply Z.eqb_neq in Hv.
  unfold dec_bsem_wait, bsem_cond_wait. run_all. rewrite Hv. run_all.
  eexists. reflexivity.
Qed.

(** X6. A completion signal made for [k] jobs, posted [p] times and then
    awaited by [thpool_wait_cond], with no other thread touching it: the
    wait returns exactly when [p = k], and the signal is then freed, so
    that the heap is as before the signal was made.  With fewer or more
    posts than [k] the waiter blocks. *)
Theorem completion_signal_released_iff (w : world) (k : Z) (p : nat) :
  head (mallocs w) <> Some false ->
  0 <= k <= INT_MAX ->
  INT_MIN <= k - Z.of_nat p ->
  wakeups w = [] ->
  (Z.of_nat p = k ->
     exists w',
       (el ← thpool_decsem_init k; posts p el;; thpool_wait_cond el) w
         = Ret tt w' /\
       heap w' = heap w) /\
  (Z.of_nat p <> k ->
     exists w',
       (el ← thpool_decsem_init k; posts p el;; thpool_wait_cond el) w
         = Blocked w').
Proof.
  intros Hok Hk Hmin Hwk. destruct w as [h ms its ws tr].
  cbn [heap mallocs wakeups] in *. subst ws.
  assert (Hinit : exists l mi ci w1,
    h !! l = None /\
    thpool_decsem_init k (mk_world h ms its [] tr) = Ret (Some l) w1 /\
    heap w1 = <[l := Obsem (mk_bsem k mi ci)]> h /\ wakeups w1 = []).
  { unfold thpool_decsem_init, dec_bsem_init. unfold bind at 1.
    destruct (malloc_Ret (mk_world h ms its [] tr) fresh_bsem Hok)
      as [Hfresh Hm].
    rewrite Hm. clear Hm. cbn [heap mallocs inits wakeups trace] in *.
    set (l := fresh (dom h)) in *. clearbody l.
    destruct (Z.ltb_spec k 0) as [?|_]; [lia|].
    unfold fresh_bsem. run.
    exists l. eexists. eexists. eexists.
    split; [exact Hfresh|]. split; [reflexivity|]. split; reflexivity. }
  destruct Hinit as (l & mi & ci & w1 & Hfresh & Hinit & Hheap1 & Hwk1).
  assert (Hl1 : heap w1 !! l = Some (Obsem (mk_bsem k mi ci)))
    by (rewrite Hheap1; apply lookup_insert_eq).
  destruct (posts_heap l p w1 _ Hl1) as (w2 & Hposts & Hheap2 & _ & Hwk2);
    [cbn; lia|cbn; lia|].
  cbn [v mutex_inzed cond_inzed] in Hheap2.
  assert (Hl2 : heap w2 !! l = Some (Obsem (mk_bsem (k - Z.of_nat p) mi ci)))
    by (rewrite Hheap2; apply lookup_insert_eq).
  rewrite Hwk1 in Hwk2.
  split; intros Hpk.
  - destruct w2 as [h2 ms2 its2 ws2 tr2]. cbn [heap wakeups] in *. subst ws2.
    replace (k - Z.of_nat p) with 0 in Hl2, Hheap2 by lia.
    rewrite (bind_Ret _ _ _ _ _ Hinit), (bind_Ret _ _ _ _ _ Hposts).
    unfold thpool_wait_cond, dec_bsem_wait, bsem_destroy, free.
    destruct mi, ci; run_all; (eexists; split; [reflexivity|]); cbn [heap];
      rewrite Hheap2, Hheap1, !insert_insert_eq;
      apply delete_insert_id; exact Hfresh.
  - destruct w2 as [h2 ms2 its2 ws2 tr2]. cbn [heap wakeups] in *. subst ws2.
    rewrite (bind_Ret _ _ _ _ _ Hinit), (bind_Ret _ _ _ _ _ Hposts).
    destruct (dec_bsem_wait_blocked (mk_world h2 ms2 its2 [] tr2) l _ Hl2)
      as [w' Hblocked]; [cbn; lia|reflexivity|].
    exists w'. unfold thpool_wait_cond, bind at 1. rewrite Hblocked.
    reflexivity.
Qed.

(** ** Starting a thread *)

(** X7. [thread_init] tests the address of the array slot, not the block it
    has just allocated: when the allocation fails it goes on to write
    through the null pointer instead of returning -1.  When the allocation
    succeeds it returns 0 with the new structure in the slot, holding the id
    and the pool, and the thread is created and detached whether or not it
    could be bound to the core asked for. *)
Theorem thread_init_outcome (pf : platform) (p arr : loc) (n id' k : Z)
    (a : list ptr) (w : world) :
  heap w !! arr = Some (Othreads a) ->
  0 <= n < Z.of_nat (length a) ->
  (head (mallocs w) = Some false ->
     thread_init pf (Some p) (Some arr) n id' k w = Fault) /\
  (head (mallocs w) <> Some false ->
     exists t w',
       thread_init pf (Some p) (Some arr) n id' k w = Ret 0 w' /\
       heap w !! t = None /\
       heap w' !! t = Some (Othread (mk_thread id' (Some p))) /\
       heap w' !! arr = Some (Othreads (<[Z.to_nat n := Some t]> a)) /\
       trace w' =
         trace w ++ [pthread_create t] ++ pin_events pf t k ++
         [pthread_detach t]).
Proof.
  intros Harr Hn. destruct w as [h ms its ws tr].
  unfold thread_init. cbn [heap mallocs] in *.
  assert (Hin : (0 <=? n) && (n <? Z.of_nat (length a)) = true)
    by (apply andb_true_iff; lia).
  split.
  - intros Hko. unfold bind at 1.
    rewrite (malloc_NULL (mk_world h ms its ws tr) _ Hko).
    erewrite bind_Ret by (apply load_threads_Ret; exact Harr).
    rewrite Hin. run. reflexivity.
  - intros Hok. unfold bind at 1.
    destruct (malloc_Ret (mk_world h ms its ws tr) fresh_thread Hok)
      as [Hfresh Hm].
    rewrite Hm. clear Hm. cbn [heap mallocs inits wakeups trace] in *.
    set (t := fresh (dom h)) in *. clearbody t.
    assert (Hta : t <> arr) by congruence.
    erewrite bind_Ret
      by (apply load_threads_Ret; cbn [heap];
          rewrite lookup_insert_ne by congruence; exact Harr).
    rewrite Hin.
    unfold stick_this_thread_to_core, fresh_thread, pin_events.
    exists t.
    destruct (Z.ltb_spec k 0) as [Hk|Hk].
    + replace (k >=? 0) with false by lia.
      run. eexists. split; [reflexivity|]. cbn [heap trace].
      split; [exact Hfresh|]. split; [apply lookup_insert_eq|].
      split; [|reflexivity].
      rewrite lookup_insert_ne by congruence. apply lookup_insert_eq.
    + replace (k >=? 0) with true by lia.
      replace (k >=? NPROCESSORS_ONLN pf) with (negb (k <? NPROCESSORS_ONLN pf))
        by (destruct (Z.ltb_spec k (NPROCESSORS_ONLN pf)); cbn; lia).
      destruct (LINUX pf); [destruct (k <? NPROCESSORS_ONLN pf)|];
        run; (eexists; split; [reflexivity|]); cbn [heap trace];
        (split; [exact Hfresh|]); (split; [apply lookup_insert_eq|]);
        (split; [|reflexivity]);
        rewrite lookup_insert_ne by congruence; apply lookup_insert_eq.
Qed.

(** ** A pool that cannot be created *)

(** Destroying a queue that holds no job: only the semaphore goes. *)
Lemma jobqueue_destroy_empty w s b rw :
  heap w !! s = Some (Obsem b) ->
  exists w' tr',
    jobqueue_destroy (mk_jobqueue None None (Some s) 0 rw) w =
      Ret (mk_jobqueue None None (Some s) 0 rw) w' /\
    heap w' = delete s (heap w) /\
    trace w' = trace w ++ tr' /\
    mallocs w' = mallocs w /\ wakeups w' = wakeups w /\ inits w' = tail (tail (inits w)).
Proof.
  intros H. destruct w as [h ms its ws tr]. cbn [heap] in H.
  unfold jobqueue_destroy, jobqueue_clear, bsem_destroy, bsem_reset,
    bsem_init, free.
  change (Z.to_nat (len (mk_jobqueue None None (Some s) 0 rw) mod 2 ^ 32))
    with 0%nat.
  destruct b as [x [] []], rw, its as [|[] [|[] its]]; run_pool;
    eexists; eexists;
    (split; [reflexivity|]); cbn [heap trace mallocs wakeups inits].
  all: split; [apply map_eq; intros l; destruct (decide (l = s)) as [->|];
                [rewrite !lookup_delete_eq; reflexivity
                |rewrite !lookup_delete_ne, ?lookup_insert_ne by congruence;
                 reflexivity]|].
  all: split; [rewrite <- ?app_assoc; reflexivity|auto].
Qed.

(** X8. When one of its three allocations fails, [thpool_init] returns
    [NULL] after a message on stderr and gives back what it had allocated:
    the heap is as it was before the call. *)
Theorem thpool_init_failure_clean (pf : platform) (N : Z) (w : world) :
  allocs_succeed 3 w = false ->
  exists w' tr msg,
    thpool_init pf N w = Ret None w' /\
    heap w' = heap w /\
    trace w' = trace w ++ tr /\
    fprintf_stderr msg ∈ tr.
Proof.
  destruct w as [h ms its ws tr]. unfold allocs_succeed, allocs_ok.
  cbn [mallocs heap trace]. unfold thpool_init.
  generalize (if N <? 0 then 0 else N). intros N'.
  destruct ms as [|[] ms]; [discriminate| |].
  2:{ intros _. unfold bind at 1. run_malloc_known q Hq. run_pool.
      eexists. eexists. eexists. split; [reflexivity|]. cbn.
      split; [reflexivity|]. split; [reflexivity|]. left. }
  destruct ms as [|[] ms]; [discriminate| |].
  2:{ intros _. unfold bind at 1. run_malloc_known q Hq. run_pool.
      run_malloc_known s Hs. unfold free. run_pool.
      eexists. eexists. eexists. split; [reflexivity|]. cbn.
      split; [apply delete_insert_id; exact Hq|].
      split; [reflexivity|]. left. }
  destruct ms as [|[] ms]; [discriminate|discriminate|].
  intros _. unfold bind at 1.
  run_malloc_known q Hq. run_pool.
  run_malloc_known s Hs. apply lookup_insert_None in Hs as [Hs Hqs].
  run_pool.
  run_malloc_known x Hx. run_pool.
  match goal with
  | |- context [jobqueue_destroy (mk_jobqueue None None (Some s) 0 ?rw) ?ww] =>
      destruct (jobqueue_destroy_empty ww s
                  (mk_bsem 0 match tail its with [] => true | b :: _ => b end
                     match tail (tail its) with [] => true | b :: _ => b end)
                  rw)
        as (w1 & tr1 & Hrun & Hheap & Htr & _); [|rewrite Hrun]
  end.
  { cbn. rewrite lookup_insert_ne by congruence. apply lookup_insert_eq. }
  destruct w1 as [h1 ms1 its1 ws1 tr1']. cbn [heap trace] in Hheap, Htr.
  subst h1 tr1'.
  unfold free. cbn.
  repeat (first [rewrite lookup_insert_eq
                |rewrite lookup_delete_ne by congruence]; cbn).
  eexists. eexists. eexists. split; [reflexivity|]. cbn [heap trace].
  split.
  { apply map_eq. intros l.
    destruct (decide (l = q)) as [->|Hlq].
    - rewrite lookup_delete_eq. symmetry. exact Hq.
    - rewrite lookup_delete_ne by congruence.
      rewrite lookup_insert_ne by congruence.
      destruct (decide (l = s)) as [->|Hls].
      + rewrite lookup_delete_eq. symmetry. exact Hs.
      + rewrite lookup_delete_ne by congruence.
        rewrite !lookup_insert_ne by congruence. reflexivity. }
  split; [rewrite <- !app_assoc; reflexivity|].
  apply elem_of_app. left. do 3 right. left.
Qed.

(** ** A pool that starts *)

(** The pool as [thpool_init] has it when it starts its threads: three new
    blocks, and the rest of the heap as it was. *)
Lemma thpool_init_setup_frame pf N w :
  0 <= N ->
  allocs_succeed 3 w = true ->
  exists p s arr w5 tp rw mi ci,
    thpool_init pf N w =
      (thread_init_loop pf (Z.to_nat N) (Some p) (Some arr) N (nprocs pf) 0 0;;
       (fun w => alive_spin (Some p) N (wakeups w) w);;
       ret (Some p)) w5 /\
    heap w5 !! p = Some (Othpool tp) /\
    tp = mk_thpool (Some arr) 0 0 (mk_jobqueue None None (Some s) 0 rw) 1
           mi ci /\
    (exists b, heap w5 !! s = Some (Obsem (mk_bsem 0 (fst b) (snd b)))) /\
    heap w5 !! arr = Some (Othreads (replicate (Z.to_nat N) junk_ptr)) /\
    p <> s /\ p <> arr /\ s <> arr /\
    heap w !! p = None /\ heap w !! s = None /\ heap w !! arr = None /\
    (forall l, l <> p -> l <> s -> l <> arr -> heap w5 !! l = heap w !! l) /\
    wakeups w5 = wakeups w /\
    mallocs w5 = tail (tail (tail (mallocs w))).
Proof.
  intros HN Hok. destruct w as [h ms its ws tr].
  unfold allocs_succeed in Hok. cbn [mallocs] in Hok.
  unfold thpool_init. destruct (Z.ltb_spec N 0) as [?|_]; [lia|].
  unfold bind at 1.
  run_malloc p Hp.
  run_pool.
  run_malloc s Hs.
  apply lookup_insert_None in Hs as [Hs Hps].
  run_pool.
  run_malloc arr Harr.
  apply lookup_insert_None in Harr as [Harr Hpa].
  apply lookup_insert_None in Harr as [Harr Hsa].
  apply lookup_insert_None in Harr as [Harr _].
  run_pool.
  exists p, s, arr. eexists. eexists. eexists. eexists. eexists.
  split; [reflexivity|].
  cbn [heap trace wakeups mallocs].
  rewrite lookup_insert_eq.
  split; [reflexivity|]. split; [reflexivity|].
  split.
  { eexists (_, _). cbn [fst snd].
    rewrite lookup_insert_ne by congruence.
    rewrite lookup_insert_ne by congruence.
    rewrite lookup_insert_ne by congruence.
    rewrite lookup_insert_eq. reflexivity. }
  split.
  { rewrite lookup_insert_ne by congruence.
    rewrite lookup_insert_eq. reflexivity. }
  do 3 (split; [congruence|]).
  do 3 (split; [assumption|]).
  split; [|split; reflexivity].
  intros l H1 H2 H3. rewrite !lookup_insert_ne by congruence. reflexivity.
Qed.

(** One thread started, whatever core it is given: a new thread structure
    is put in the slot [n] of the array with its id and its pool, and the
    rest of the heap is as it was. *)
Lemma thread_init_step pf p arr n id' k a w :
  heap w !! arr = Some (Othreads a) ->
  0 <= n < Z.of_nat (length a) ->
  head (mallocs w) <> Some false ->
  exists t w',
    thread_init pf (Some p) (Some arr) n id' k w = Ret 0 w' /\
    heap w !! t = None /\
    heap w' !! t = Some (Othread (mk_thread id' (Some p))) /\
    heap w' !! arr = Some (Othreads (<[Z.to_nat n := Some t]> a)) /\
    (forall l, l <> t -> l <> arr -> heap w' !! l = heap w !! l) /\
    mallocs w' = tail (mallocs w) /\ wakeups w' = wakeups w.
Proof.
  intros Harr Hn Hok. destruct w as [h ms its ws tr].
  unfold thread_init. cbn [heap mallocs wakeups] in *.
  assert (Hin : (0 <=? n) && (n <? Z.of_nat (length a)) = true)
    by (apply andb_true_iff; lia).
  unfold bind at 1.
  destruct (malloc_Ret (mk_world h ms its ws tr) fresh_thread Hok)
    as [Hfresh Hm].
  rewrite Hm. clear Hm. cbn [heap mallocs inits wakeups trace] in *.
  set (t := fresh (dom h)) in *. clearbody t.
  assert (Hta : t <> arr) by congruence.
  erewrite bind_Ret
    by (apply load_threads_Ret; cbn [heap];
        rewrite lookup_insert_ne by congruence; exact Harr).
  rewrite Hin.
  unfold stick_this_thread_to_core, fresh_thread.
  exists t.
  destruct (k >=? 0);
    [destruct (LINUX pf);
       [destruct ((k <? 0) || (k >=? NPROCESSORS_ONLN pf))|]|];
    run; (eexists; split; [reflexivity|]); cbn [heap mallocs wakeups];
    (split; [exact Hfresh|]); (split; [apply lookup_insert_eq|]);
    (split; [rewrite lookup_insert_ne by congruence; apply lookup_insert_eq|]);
    (split; [|split; reflexivity]);
    intros l Hlt Hla; rewrite !lookup_insert_ne by congruence; reflexivity.
Qed.

(** The loop that starts the threads, whatever the number of processors:
    it returns when the allocations succeed, the new thread structures [ts]
    fill the rest of the array, the one of index [n + i] has id [n + i],
    and nothing else is allocated or changed. *)
Lemma thread_init_loop_heap pf p arr N P :
  0 <= N <= INT_MAX ->
  forall fuel n k w a,
    fuel = Z.to_nat (N - n) ->
    0 <= n <= N ->
    heap w !! arr = Some (Othreads a) ->
    length a = Z.to_nat N ->
    allocs_ok fuel (mallocs w) = true ->
    exists w' ts,
      thread_init_loop pf fuel (Some p) (Some arr) N P n k w = Ret tt w' /\
      length ts = fuel /\
      heap w' !! arr = Some (Othreads (take (Z.to_nat n) a ++ map Some ts)) /\
      (forall i t, ts !! i = Some t ->
         heap w' !! t = Some (Othread (mk_thread (n + Z.of_nat i) (Some p))) /\
         heap w !! t = None) /\
      (forall l, l ∉ ts -> l <> arr -> heap w' !! l = heap w !! l) /\
      wakeups w' = wakeups w.
Proof.
  intros HN. induction fuel as [|fuel IH];
    intros n k w a Hfuel Hn Harr Hlen Hok;
    rewrite thread_init_loop_unfold.
  - assert (n = N) by lia. subst n.
    rewrite Z.ltb_irrefl. exists w, []. cbn.
    rewrite app_nil_r, take_ge by lia.
    repeat split; auto.
    + match goal with H : [] !! _ = Some _ |- _ =>
        rewrite lookup_nil in H; discriminate end.
    + match goal with H : [] !! _ = Some _ |- _ =>
        rewrite lookup_nil in H; discriminate end.
  - assert (Hlt : n < N) by lia.
    destruct (Z.ltb_spec n N) as [_|?]; [|lia].
    destruct (allocs_succeed_S _ _ Hok) as [Hhead Htail].
    destruct (thread_init_step pf p arr n n k a w Harr)
      as (t & w1 & Hstep & Hfresh & Ht & Harr1 & Hframe1 & Hms1 & Hwk1);
      [lia|exact Hhead|].
    rewrite (bind_Ret _ _ _ _ _ Hstep). cbv zeta.
    rewrite (wrap_in_int (n + 1))
      by (unfold in_int, INT_MIN, INT_MAX in *; lia).
    assert (Hta : t <> arr) by congruence.
    destruct (IH (n + 1) (if wrap (k + 1) >=? P then 0 else wrap (k + 1)) w1
                (<[Z.to_nat n := Some t]> a))
      as (w' & ts & Hrun & Hlts & Harr' & Hts & Hframe & Hwk);
      [lia|lia|exact Harr1|rewrite length_insert; exact Hlen|
       rewrite Hms1; exact Htail|].
    assert (Ht_ts : t ∉ ts).
    { intros Hin. apply list_elem_of_lookup in Hin as [i Hi].
      destruct (Hts i t Hi) as [_ Hnone]. congruence. }
    exists w', (t :: ts).
    split; [exact Hrun|].
    split; [cbn; lia|].
    split.
    { rewrite Harr'. do 2 f_equal.
      replace (Z.to_nat (n + 1)) with (S (Z.to_nat n)) by lia.
      assert (Hnn : (Z.to_nat n < length a)%nat) by lia.
      rewrite (take_S_r (<[Z.to_nat n := Some t]> a) (Z.to_nat n) (Some t))
        by (apply list_lookup_insert_eq; exact Hnn).
      rewrite take_insert_ge by lia.
      rewrite <- app_assoc. reflexivity. }
    split.
    { intros [|i] t' Hi; cbn in Hi.
      - injection Hi as <-. rewrite Z.add_0_r. split; [|exact Hfresh].
        rewrite Hframe by assumption. exact Ht.
      - destruct (Hts _ _ Hi) as [Ht' Hfresh'].
        replace (n + Z.of_nat (S i)) with (n + 1 + Z.of_nat i) by lia.
        split; [exact Ht'|].
        rewrite <- Hframe1; [exact Hfresh'|congruence|congruence]. }
    split; [|congruence].
    intros l Hl Hla. apply not_elem_of_cons in Hl as [Hlt' Hl].
    rewrite Hframe by assumption. apply Hframe1; assumption.
Qed.

(** The pool that [thpool_init] returns, and what it has allocated. *)
Lemma thpool_init_pool pf N w :
  0 <= N <= INT_MAX ->
  allocs_succeed (3 + Z.to_nat N) w = true ->
  N ∈ 0 :: wakeups w ->
  exists p s arr w' tp ts,
    thpool_init pf N w = Ret (Some p) w' /\
    heap w' !! p = Some (Othpool tp) /\
    num_threads_alive tp = N /\
    num_threads_working tp = 0 /\
    threads_keepalive tp = 1 /\
    jobqueue_ tp = mk_jobqueue None None (Some s) 0 (rwmutex_inzed (jobqueue_ tp)) /\
    (exists b, heap w' !! s = Some (Obsem (mk_bsem 0 (fst b) (snd b)))) /\
    threads tp = Some arr /\
    heap w' !! arr = Some (Othreads (map Some ts)) /\
    Z.of_nat (length ts) = N /\
    (forall i t, ts !! i = Some t ->
       heap w' !! t = Some (Othread (mk_thread (Z.of_nat i) (Some p))) /\
       heap w !! t = None) /\
    heap w !! p = None /\ heap w !! s = None /\ heap w !! arr = None /\
    (forall l, l ∉ p :: arr :: s :: ts -> heap w' !! l = heap w !! l).
Proof.
  intros HN Hok Hseen.
  assert (Hok3 : allocs_succeed 3 w = true).
  { unfold allocs_succeed, allocs_ok in *.
    apply forallb_forall. intros b Hb.
    apply (proj1 (forallb_forall _ _) Hok).
    apply list_elem_of_In in Hb. apply list_elem_of_In.
    apply elem_of_take in Hb as (i & Hi & Hlt).
    apply elem_of_take. exists i. split; [exact Hi|lia]. }
  destruct (thpool_init_setup_frame pf N w) as
    (p & s & arr & w5 & tp & rw & mi & ci & Heq & Hp & -> & [b Hs] & Harr &
     Hps & Hpa & Hsa & Hp0 & Hs0 & Harr0 & Hframe5 & Hwk5 & Hms5);
    [lia|exact Hok3|].
  destruct (thread_init_loop_heap pf p arr N (nprocs pf) HN
              (Z.to_nat N) 0 0 w5 (replicate (Z.to_nat N) junk_ptr))
    as (w6 & ts & Hloop & Hlen & Harr6 & Hts & Hnew6 & Hwk6);
    [lia|lia|exact Harr|apply length_replicate| |].
  { rewrite Hms5. unfold allocs_succeed in Hok.
    do 3 apply allocs_ok_tail. exact Hok. }
  change (Z.to_nat 0) with 0%nat in Harr6.
  cbn [take app] in Harr6.
  assert (Hframe6 : forall l, heap w5 !! l <> None -> l <> arr ->
                      heap w6 !! l = heap w5 !! l).
  { intros l Hl Hla. apply Hnew6; [|exact Hla].
    intros Hin. apply list_elem_of_lookup in Hin as [i Hi].
    destruct (Hts i l Hi) as [_ Hnone]. congruence. }
  set (tp := mk_thpool (Some arr) 0 0 (mk_jobqueue None None (Some s) 0 rw) 1
               mi ci) in *.
  assert (Hp6 : heap w6 !! p = Some (Othpool tp))
    by (rewrite Hframe6; [exact Hp|congruence|exact Hpa]).
  destruct (alive_spin_returns p N (wakeups w6) w6 tp Hp6) as [w7 Hspin].
  { cbn. rewrite Hwk6, Hwk5. exact Hseen. }
  destruct (alive_spin_Ret p N (wakeups w6) w6 w7 tp Hp6 Hspin) as [Hheap7 _].
  exists p, s, arr, w7, (with_num_threads_alive N tp), ts.
  split.
  { rewrite Heq. rewrite (bind_Ret _ _ _ _ _ Hloop).
    unfold bind at 1. rewrite Hspin. reflexivity. }
  rewrite Hheap7.
  split; [apply lookup_insert_eq|].
  do 4 (split; [reflexivity|]).
  assert (Hs7 : <[p:=Othpool (with_num_threads_alive N tp)]> (heap w6) !! s =
                Some (Obsem (mk_bsem 0 (fst b) (snd b)))).
  { rewrite lookup_insert_ne by congruence.
    rewrite Hframe6; [exact Hs|congruence|congruence]. }
  split; [exists b; exact Hs7|].
  split; [reflexivity|].
  split; [rewrite lookup_insert_ne by congruence; exact Harr6|].
  split; [lia|].
  split.
  { intros i t Hi. destruct (Hts i t Hi) as [Ht Hfresh].
    assert (Htp : t <> p) by congruence.
    assert (Hts' : t <> s) by congruence.
    assert (Hta : t <> arr) by congruence.
    split.
    - rewrite lookup_insert_ne by congruence. rewrite Ht. reflexivity.
    - rewrite <- Hframe5 by congruence. exact Hfresh. }
  do 3 (split; [assumption|]).
  intros l Hl. rewrite !not_elem_of_cons in Hl.
  destruct Hl as (Hlp & Hla & Hls & Hlts).
  rewrite lookup_insert_ne by congruence.
  rewrite Hnew6 by assumption. apply Hframe5; assumption.
Qed.


(** ** Waiting for the pool *)

Lemma thpool_wait_loop_unfold thpool_p sched :
  thpool_wait_loop thpool_p sched =
    (tp ← load_thpool thpool_p;
     if negb (len (jobqueue_ tp) =? 0) || negb (num_threads_working tp =? 0)
     then
       call (pthread_cond_wait threads_all_idle thcount_lock);;
       match sched with
       | [] => blocked
       | (l, k) :: sched' =>
           upd_thpool thpool_p
             (fun t => with_num_threads_working k
                         (with_jobqueue (with_len l (jobqueue_ t)) t));;
           DO_SLEEP0ms;;
           thpool_wait_loop thpool_p sched'
       end
     else ret tt).
Proof. destruct sched; reflexivity. Qed.

Lemma busy_test (l k : Z) :
  negb (l =? 0) || negb (k =? 0) = false <-> (l, k) = (0, 0).
Proof.
  destruct (Z.eqb_spec l 0), (Z.eqb_spec k 0); cbn; split; intros H;
    try discriminate; try congruence.
Qed.

Lemma thpool_wait_loop_spec p sched :
  forall w tp,
    heap w !! p = Some (Othpool tp) ->
    ((0, 0) ∈ (len (jobqueue_ tp), num_threads_working tp) :: sched ->
     exists w' tp',
       thpool_wait_loop (Some p) sched w = Ret tt w' /\
       heap w' !! p = Some (Othpool tp') /\
       len (jobqueue_ tp') = 0 /\ num_threads_working tp' = 0 /\
       (forall l, l <> p -> heap w' !! l = heap w !! l)) /\
    ((0, 0) ∉ (len (jobqueue_ tp), num_threads_working tp) :: sched ->
     exists w', thpool_wait_loop (Some p) sched w = Blocked w').
Proof.
  induction sched as [|[l k] sched IH]; intros w tp Hp;
    rewrite thpool_wait_loop_unfold;
    rewrite (bind_Ret _ _ _ _ _ (load_thpool_Ret _ _ _ Hp));
    destruct (negb (len (jobqueue_ tp) =? 0) ||
              negb (num_threads_working tp =? 0)) eqn:E.
  - split.
    + intros Hin. apply elem_of_cons in Hin as [Hin|Hin].
      * symmetry in Hin. apply busy_test in Hin. congruence.
      * apply elem_of_nil in Hin. contradiction.
    + intros _. eexists. reflexivity.
  - apply busy_test in E. injection E as E1 E2. split.
    + intros _. exists w, tp. auto.
    + intros Hnot. exfalso. apply Hnot. rewrite E1, E2. left.
  - set (w1 := set_trace
                 (trace w ++ [pthread_cond_wait threads_all_idle thcount_lock])
                 w).
    assert (Hp1 : heap w1 !! p = Some (Othpool tp)) by exact Hp.
    set (tp1 := with_num_threads_working k
                  (with_jobqueue (with_len l (jobqueue_ tp)) tp)).
    set (w2 := set_heap (<[p := Othpool tp1]> (heap w1)) w1).
    assert (Hp2 : heap w2 !! p = Some (Othpool tp1)) by apply lookup_insert_eq.
    match goal with
    | |- context [bind ?m ?k w] =>
        assert (Hstep : bind m k w = thpool_wait_loop (Some p) sched w2)
    end.
    { unfold bind at 1, call at 1. fold w1.
      rewrite (bind_Ret _ _ _ _ _ (upd_thpool_Ret _ _ _ _ Hp1)).
      reflexivity. }
    rewrite Hstep.
    destruct (IH w2 tp1 Hp2) as [IHret IHblock].
    change (len (jobqueue_ tp1)) with l in *.
    change (num_threads_working tp1) with k in *.
    split.
    + intros Hin. apply elem_of_cons in Hin as [Hin|Hin].
      { symmetry in Hin. apply busy_test in Hin. congruence. }
      destruct (IHret Hin) as (w' & tp' & Hrun & Hp' & Hl & Hk & Hframe).
      exists w', tp'. repeat (split; [assumption|]).
      intros x Hx. rewrite Hframe by exact Hx.
      cbn. apply lookup_insert_ne. congruence.
    + intros Hnot. apply IHblock. intros Hin. apply Hnot. right. exact Hin.
  - apply busy_test in E. injection E as E1 E2. split.
    + intros _. exists w, tp. auto.
    + intros Hnot. exfalso. apply Hnot. rewrite E1, E2. left.
Qed.

(** X10. [thpool_wait] returns exactly when the caller sees the queue
    empty and no thread working, at its call or at one of its wake-ups on
    [threads_all_idle]: it then returns with both at 0, having touched
    nothing but the pool structure and given the lock back; if that is
    never seen, it stays blocked. *)
Theorem thpool_wait_until_idle (w : world) (p : loc) (tp : thpool_)
    (sched : list (Z * Z)) :
  heap w !! p = Some (Othpool tp) ->
  ((0, 0) ∈ (len (jobqueue_ tp), num_threads_working tp) :: sched ->
   exists w' tp',
     thpool_wait (Some p) sched w = Ret tt w' /\
     heap w' !! p = Some (Othpool tp') /\
     len (jobqueue_ tp') = 0 /\ num_threads_working tp' = 0 /\
     (forall l, l <> p -> heap w' !! l = heap w !! l) /\
     last (trace w') = Some (pthread_mutex_unlock thcount_lock)) /\
  ((0, 0) ∉ (len (jobqueue_ tp), num_threads_working tp) :: sched ->
   exists w', thpool_wait (Some p) sched w = Blocked w').
Proof.
  intros Hp. unfold thpool_wait.
  set (w1 := set_trace (trace w ++ [pthread_mutex_lock thcount_lock]) w).
  assert (Hp1 : heap w1 !! p = Some (Othpool tp)) by exact Hp.
  destruct (thpool_wait_loop_spec p sched w1 tp Hp1) as [Hret Hblock].
  split.
  - intros Hin.
    destruct (Hret Hin) as (w' & tp' & Hrun & Hp' & Hl & Hk & Hframe).
    unfold bind at 1, call at 1. fold w1.
    rewrite (bind_Ret _ _ _ _ _ Hrun).
    eexists. exists tp'. split; [reflexivity|].
    cbn [heap trace set_trace]. repeat (split; [assumption|]).
    apply last_snoc.
  - intros Hnot. destruct (Hblock Hnot) as [w' Hrun].
    unfold bind at 1, call at 1. fold w1.
    unfold bind. rewrite Hrun. eauto.
Qed.

(** ** Destroying the pool *)

Lemma destroy_grace_unfold thpool_p in_time sched :
  destroy_grace thpool_p in_time sched =
    (tp ← load_thpool thpool_p;
     if in_time && negb (num_threads_alive tp =? 0) then
       bsem_post_all (has_jobs (jobqueue_ tp));;
       match sched with
       | [] => blocked
       | (t, a) :: sched' =>
           upd_thpool thpool_p (with_num_threads_alive a);;
           destroy_grace thpool_p t sched'
       end
     else ret sched).
Proof. destruct sched; reflexivity. Qed.

Lemma destroy_poll_unfold thpool_p sched :
  destroy_poll thpool_p sched =
    (tp ← load_thpool thpool_p;
     if negb (num_threads_alive tp =? 0) then
       bsem_post_all (has_jobs (jobqueue_ tp));;
       DO_SLEEP1ms;;
       match sched with
       | [] => blocked
       | (_, a) :: sched' =>
           upd_thpool thpool_p (with_num_threads_alive a);;
           destroy_poll thpool_p sched'
       end
     else ret tt).
Proof. destruct sched; reflexivity. Qed.

Lemma bind_ret_l {A B} (a : A) (k : A -> M B) w : bind (ret a) k w = k a w.
Proof. reflexivity. Qed.

Lemma with_num_threads_alive_id tp :
  with_num_threads_alive (num_threads_alive tp) tp = tp.
Proof. destruct tp; reflexivity. Qed.

(** The grace loop of [thpool_destroy] moves only the counter of live
    threads and the queue's semaphore; it ends on a counter seen at 0, on
    the time being over, or never. *)
Lemma destroy_grace_spec p s sched :
  forall in_time w tp b,
    heap w !! p = Some (Othpool tp) ->
    has_jobs (jobqueue_ tp) = Some s ->
    heap w !! s = Some (Obsem b) ->
    (exists w',
       destroy_grace (Some p) in_time sched w = Blocked w' /\
       0 ∉ num_threads_alive tp :: map snd sched) \/
    (exists w' sched' a b',
       destroy_grace (Some p) in_time sched w = Ret sched' w' /\
       heap w' !! p = Some (Othpool (with_num_threads_alive a tp)) /\
       heap w' !! s = Some (Obsem b') /\
       (forall l, l <> p -> l <> s -> heap w' !! l = heap w !! l) /\
       (0 ∈ a :: map snd sched' <-> 0 ∈ num_threads_alive tp :: map snd sched)).
Proof.
  induction sched as [|[t a] sched IH]; intros in_time w tp b Hp Hs Hb;
    rewrite destroy_grace_unfold;
    rewrite (bind_Ret _ _ _ _ _ (load_thpool_Ret _ _ _ Hp));
    destruct (in_time && negb (num_threads_alive tp =? 0)) eqn:E.
  - left. rewrite Hs, (bind_Ret _ _ _ _ _ (bsem_post_all_Ret _ _ _ Hb)).
    eexists. split; [reflexivity|].
    apply andb_true_iff in E as [_ E]. apply negb_true_iff in E.
    apply Z.eqb_neq in E. cbn. intros Hin.
    apply list_elem_of_singleton in Hin. congruence.
  - right. exists w, [], (num_threads_alive tp), b.
    rewrite with_num_threads_alive_id. repeat split; auto.
  - assert (Hps : p <> s) by congruence.
    rewrite Hs, (bind_Ret _ _ _ _ _ (bsem_post_all_Ret _ _ _ Hb)).
    match goal with
    | |- context [bind (upd_thpool _ _) _ ?ww] => set (w1 := ww)
    end.
    assert (Hp1 : heap w1 !! p = Some (Othpool tp))
      by (cbn; rewrite lookup_insert_ne by congruence; exact Hp).
    rewrite (bind_Ret _ _ _ _ _ (upd_thpool_Ret _ _ _ _ Hp1)).
    set (w2 := set_heap _ w1).
    assert (Hp2 : heap w2 !! p = Some (Othpool (with_num_threads_alive a tp)))
      by apply lookup_insert_eq.
    assert (Hb2 : heap w2 !! s =
                  Some (Obsem (mk_bsem 1 (mutex_inzed b) (cond_inzed b)))).
    { cbn. rewrite lookup_insert_ne by congruence. apply lookup_insert_eq. }
    assert (Hne : num_threads_alive tp <> 0).
    { apply andb_true_iff in E as [_ E]. apply negb_true_iff in E.
      apply Z.eqb_neq in E. exact E. }
    destruct (IH t w2 _ _ Hp2 Hs Hb2)
      as [(w' & Hrun & Hnot)|(w' & sched' & a' & b' & Hrun & Hp' & Hb' & Hfr & Hiff)].
    + left. exists w'. split; [exact Hrun|].
      cbn in *. rewrite !not_elem_of_cons in *. intuition congruence.
    + right. exists w', sched', a', b'. split; [exact Hrun|].
      split; [exact Hp'|]. split; [exact Hb'|]. split.
      * intros l Hlp Hls. rewrite Hfr by assumption. cbn.
        rewrite !lookup_insert_ne by congruence. reflexivity.
      * rewrite Hiff. cbn. rewrite !elem_of_cons. intuition congruence.
  - right. exists w, ((t, a) :: sched), (num_threads_alive tp), b.
    rewrite with_num_threads_alive_id. repeat split; auto.
Qed.

(** The polling loop goes on until the counter is seen at 0. *)
Lemma destroy_poll_spec p s sched :
  forall w tp b,
    heap w !! p = Some (Othpool tp) ->
    has_jobs (jobqueue_ tp) = Some s ->
    heap w !! s = Some (Obsem b) ->
    (0 ∉ num_threads_alive tp :: map snd sched ->
     exists w', destroy_poll (Some p) sched w = Blocked w') /\
    (0 ∈ num_threads_alive tp :: map snd sched ->
     exists w' b',
       destroy_poll (Some p) sched w = Ret tt w' /\
       heap w' !! p = Some (Othpool (with_num_threads_alive 0 tp)) /\
       heap w' !! s = Some (Obsem b') /\
       (forall l, l <> p -> l <> s -> heap w' !! l = heap w !! l)).
Proof.
  induction sched as [|[t a] sched IH]; intros w tp b Hp Hs Hb;
    rewrite destroy_poll_unfold;
    rewrite (bind_Ret _ _ _ _ _ (load_thpool_Ret _ _ _ Hp));
    destruct (Z.eqb_spec (num_threads_alive tp) 0) as [E|E]; cbn [negb].
  - split; [intros Hnot; exfalso; apply Hnot; rewrite E; left|].
    intros _. exists w, b. rewrite <- E, with_num_threads_alive_id. auto.
  - rewrite Hs, (bind_Ret _ _ _ _ _ (bsem_post_all_Ret _ _ _ Hb)).
    split; [intros _; eexists; reflexivity|].
    intros Hin. cbn in Hin. apply list_elem_of_singleton in Hin. congruence.
  - split; [intros Hnot; exfalso; apply Hnot; rewrite E; left|].
    intros _. exists w, b. rewrite <- E, with_num_threads_alive_id. auto.
  - assert (Hps : p <> s) by congruence.
    rewrite Hs, (bind_Ret _ _ _ _ _ (bsem_post_all_Ret _ _ _ Hb)).
    unfold DO_SLEEP1ms. rewrite !bind_ret_l.
    match goal with
    | |- context [bind (upd_thpool _ _) _ ?ww] => set (w1 := ww)
    end.
    assert (Hp1 : heap w1 !! p = Some (Othpool tp))
      by (cbn; rewrite lookup_insert_ne by congruence; exact Hp).
    rewrite (bind_Ret _ _ _ _ _ (upd_thpool_Ret _ _ _ _ Hp1)).
    set (w2 := set_heap _ w1).
    assert (Hp2 : heap w2 !! p = Some (Othpool (with_num_threads_alive a tp)))
      by apply lookup_insert_eq.
    assert (Hb2 : heap w2 !! s =
                  Some (Obsem (mk_bsem 1 (mutex_inzed b) (cond_inzed b)))).
    { cbn. rewrite lookup_insert_ne by congruence. apply lookup_insert_eq. }
    destruct (IH w2 _ _ Hp2 Hs Hb2) as [IHb IHr]. cbn in IHb, IHr. split.
    + intros Hnot. apply IHb. cbn in Hnot.
      rewrite !not_elem_of_cons in *. intuition congruence.
    + intros Hin. destruct IHr as (w' & b' & Hrun & Hp' & Hb' & Hfr).
      { cbn in Hin. rewrite !elem_of_cons in *. intuition congruence. }
      exists w', b'. split; [exact Hrun|]. split; [exact Hp'|].
      split; [exact Hb'|].
      intros l Hlp Hls. rewrite Hfr by assumption. cbn.
      rewrite !lookup_insert_ne by congruence. reflexivity.
Qed.

Lemma destroy_threads_unfold fuel thpool_p threads_total n :
  destroy_threads fuel thpool_p threads_total n =
    (if n <? threads_total then
       match fuel with
       | O => blocked
       | S fuel' =>
           tp ← load_thpool thpool_p;
           a ← load_threads (threads tp);
           (if 0 <=? n then
              match a !! Z.to_nat n with
              | Some t => thread_destroy t
              | None => fault
              end
            else fault);;
           destroy_threads fuel' thpool_p threads_total (wrap (n + 1))
       end
     else ret tt).
Proof. destruct fuel; reflexivity. Qed.

(** The loop over the thread structures frees those of index [n] to
    [threads_total - 1], and nothing else. *)
Lemma destroy_threads_spec p arr tp ts total :
  threads tp = Some arr ->
  total <= INT_MAX ->
  total <= Z.of_nat (length ts) ->
  forall fuel n w,
    fuel = Z.to_nat (total - n) ->
    0 <= n ->
    heap w !! p = Some (Othpool tp) ->
    heap w !! arr = Some (Othreads (map Some ts)) ->
    NoDup (drop (Z.to_nat n) (take (Z.to_nat total) ts)) ->
    (forall t, t ∈ drop (Z.to_nat n) (take (Z.to_nat total) ts) ->
       exists th, heap w !! t = Some (Othread th)) ->
    exists w',
      destroy_threads fuel (Some p) total n w = Ret tt w' /\
      (forall t, t ∈ drop (Z.to_nat n) (take (Z.to_nat total) ts) ->
         heap w' !! t = None) /\
      (forall l, l ∉ drop (Z.to_nat n) (take (Z.to_nat total) ts) ->
         heap w' !! l = heap w !! l) /\
      trace w' = trace w.
Proof.
  intros Harr_p Hmax Hlen. induction fuel as [|fuel IH];
    intros n w Hfuel Hn Hp Harr Hnd Hth; rewrite destroy_threads_unfold.
  - destruct (Z.ltb_spec n total) as [?|Hge]; [lia|].
    rewrite drop_ge by (rewrite length_take; lia).
    exists w. split; [reflexivity|]. split; [|auto].
    intros t Ht. apply elem_of_nil in Ht. contradiction.
  - destruct (Z.ltb_spec n total) as [Hlt|?]; [|lia].
    assert (Hi : (Z.to_nat n < length ts)%nat) by lia.
    destruct (lookup_lt_is_Some_2 ts _ Hi) as [t Ht].
    assert (Hdrop : drop (Z.to_nat n) (take (Z.to_nat total) ts) =
                    t :: drop (Z.to_nat (n + 1)) (take (Z.to_nat total) ts)).
    { replace (Z.to_nat (n + 1)) with (S (Z.to_nat n)) by lia.
      apply drop_S. rewrite lookup_take_lt by lia. exact Ht. }
    rewrite Hdrop in *.
    apply NoDup_cons in Hnd as [Hnotin Hnd].
    destruct (Hth t) as [th Hth_t]; [left|].
    rewrite (bind_Ret _ _ _ _ _ (load_thpool_Ret _ _ _ Hp)).
    rewrite Harr_p.
    rewrite (bind_Ret _ _ _ _ _ (load_threads_Ret _ _ _ Harr)).
    destruct (Z.leb_spec 0 n) as [_|?]; [|lia].
    rewrite list_lookup_fmap, Ht. cbn [fmap option_fmap option_map].
    unfold thread_destroy. unfold bind at 1, free at 1. rewrite Hth_t.
    rewrite (wrap_in_int (n + 1))
      by (unfold in_int, INT_MIN, INT_MAX in *; lia).
    set (w1 := set_heap (delete t (heap w)) w).
    destruct (IH (n + 1) w1) as (w' & Hrun & Hfreed & Hframe & Htr);
      [lia|lia| | |exact Hnd| |].
    { cbn. rewrite lookup_delete_ne by congruence. exact Hp. }
    { cbn. rewrite lookup_delete_ne by congruence. exact Harr. }
    { intros t' Ht'. destruct (Hth t') as [th' Hth']; [right; exact Ht'|].
      exists th'. cbn. rewrite lookup_delete_ne; [exact Hth'|].
      intros <-. contradiction. }
    exists w'. split; [exact Hrun|]. split; [|split; [|exact Htr]].
    + intros t' Ht'. apply elem_of_cons in Ht' as [->|Ht']; [|auto].
      rewrite Hframe by exact Hnotin. apply lookup_delete_eq.
    + intros l Hl. apply not_elem_of_cons in Hl as [Hlt' Hl].
      rewrite Hframe by exact Hl. cbn. apply lookup_delete_ne. congruence.
Qed.

Lemma queue_rep_agree_jobs w w' q js :
  queue_rep w q js ->
  (forall l, l ∈ js -> heap w' !! l = heap w !! l) ->
  is_bsem (heap w') (has_jobs q) = true ->
  queue_rep w' q js.
Proof.
  intros (Hlink & Hrear & Hlen & Hmax & Hnd & Hsem) Hjs Hs.
  repeat split; try assumption.
  clear Hrear Hlen Hmax Hnd. revert Hlink Hjs. generalize (front q).
  induction js as [|j js IH]; intros p Hlink Hjs; [exact Hlink|].
  apply linked_cons_inv in Hlink as (-> & jb & Hjb & Hlink).
  eapply linked_cons.
  - rewrite Hjs by left. exact Hjb.
  - apply IH; [exact Hlink|]. intros l Hl. apply Hjs. right. exact Hl.
Qed.

(** [thpool_destroy] from its call to its last [free]: blocked as long as
    threads are seen alive, and otherwise back with everything released. *)
Lemma thpool_destroy_outcome w p tp arr s ts js sched :
  heap w !! p = Some (Othpool tp) ->
  threads tp = Some arr ->
  heap w !! arr = Some (Othreads (map Some ts)) ->
  queue_rep w (jobqueue_ tp) js ->
  has_jobs (jobqueue_ tp) = Some s ->
  0 <= num_threads_alive tp <= Z.of_nat (length ts) ->
  num_threads_alive tp <= INT_MAX ->
  NoDup ts ->
  (forall t, t ∈ ts -> exists th, heap w !! t = Some (Othread th)) ->
  ((0 ∉ num_threads_alive tp :: map snd sched) /\
   exists w', thpool_destroy (Some p) sched w = Blocked w') \/
  (0 ∈ num_threads_alive tp :: map snd sched /\
   exists w',
     thpool_destroy (Some p) sched w = Ret tt w' /\
     (forall l,
        l ∈ p :: arr :: s :: js ++ take (Z.to_nat (num_threads_alive tp)) ts ->
        heap w' !! l = None) /\
     (forall l,
        l ∉ p :: arr :: s :: js ++ take (Z.to_nat (num_threads_alive tp)) ts ->
        heap w' !! l = heap w !! l)).
Proof.
  intros Hp Harr_p Harr Hrep Hs Hn Hmax Hnd Hth.
  pose proof Hrep as (Hlink & _ & _ & _ & _ & Hsem).
  apply is_bsem_inv in Hsem as (s' & b & Hs' & Hb).
  assert (s' = s) by congruence. subst s'. clear Hs'.
  assert (Hjobs : forall j, j ∈ js -> exists jb, heap w !! j = Some (Ojob jb))
    by (intros j Hj; exact (linked_is_job _ _ _ j Hlink Hj)).
  assert (Hps : p <> s) by congruence.
  assert (Hpa : p <> arr) by congruence.
  assert (Hsa : s <> arr) by congruence.
  assert (Hjs_ne : forall l, l ∈ js -> l <> p /\ l <> s /\ l <> arr).
  { intros l Hl. destruct (Hjobs l Hl) as [jb Hjb].
    repeat split; congruence. }
  assert (Hts_ne : forall l, l ∈ ts ->
            l <> p /\ l <> s /\ l <> arr /\ l ∉ js).
  { intros l Hl. destruct (Hth l Hl) as [th Hl'].
    repeat split; try congruence.
    intros Hin. destruct (Hjobs l Hin) as [jb Hjb]. congruence. }
  set (total := num_threads_alive tp) in *.
  unfold thpool_destroy.
  rewrite (bind_Ret _ _ _ _ _ (load_thpool_Ret _ _ _ Hp)). cbv zeta.
  rewrite (bind_Ret _ _ _ _ _ (upd_thpool_Ret _ _ _ _ Hp)).
  set (tp1 := with_threads_keepalive 0 tp).
  set (w1 := set_heap _ w).
  assert (Hp1 : heap w1 !! p = Some (Othpool tp1)) by apply lookup_insert_eq.
  assert (Hb1 : heap w1 !! s = Some (Obsem b))
    by (cbn; rewrite lookup_insert_ne by congruence; exact Hb).
  assert (Hfr1 : forall l, l <> p -> heap w1 !! l = heap w !! l)
    by (intros l Hl; cbn; apply lookup_insert_ne; congruence).
  destruct (destroy_grace_spec p s sched true w1 tp1 b Hp1 Hs Hb1)
    as [(w2 & Hrun2 & Hnot)
       |(w2 & sched' & a & b2 & Hrun2 & Hp2 & Hb2 & Hfr2 & Hiff)].
  { left. split; [exact Hnot|]. unfold bind at 1. rewrite Hrun2. eauto. }
  rewrite (bind_Ret _ _ _ _ _ Hrun2).
  destruct (destroy_poll_spec p s sched' w2 _ b2 Hp2 Hs Hb2)
    as [Hblock Hret].
  change (num_threads_alive (with_num_threads_alive a tp1)) with a in *.
  change (num_threads_alive tp1) with total in *.
  destruct (decide (0 ∈ total :: map snd sched)) as [Hin|Hnotin].
  2:{ left. split; [exact Hnotin|].
      destruct Hblock as [w3 Hrun3]; [rewrite Hiff; exact Hnotin|].
      unfold bind at 1. rewrite Hrun3. eauto. }
  right. split; [exact Hin|].
  destruct Hret as (w3 & b3 & Hrun3 & Hp3 & Hb3 & Hfr3);
    [apply Hiff; exact Hin|].
  rewrite (bind_Ret _ _ _ _ _ Hrun3).
  set (tp3 := with_num_threads_alive 0 (with_num_threads_alive a tp1)) in *.
  assert (Hframe3 : forall l, l <> p -> l <> s -> heap w3 !! l = heap w !! l).
  { intros l Hlp Hls. rewrite Hfr3, Hfr2, Hfr1 by assumption. reflexivity. }
  assert (Hrep3 : queue_rep w3 (jobqueue_ tp) js).
  { apply (queue_rep_agree_jobs w w3 _ _ Hrep).
    - intros l Hl. destruct (Hjs_ne l Hl) as (? & ? & ?). auto.
    - rewrite Hs. unfold is_bsem. rewrite Hb3. reflexivity. }
  destruct (jobqueue_destroy_spec w3 (jobqueue_ tp) js s Hrep3 Hs)
    as (w4 & q4 & Hrun4 & Hs4 & Hjs4 & Hfr4 & Hq4 & _).
  assert (Hp_js : p ∉ js) by (intros Hx; destruct (Hjs_ne p Hx); congruence).
  assert (Hp4 : heap w4 !! p = Some (Othpool tp3))
    by (rewrite Hfr4 by auto; exact Hp3).
  set (tp5 := with_jobqueue q4 tp3).
  set (w5 := set_heap (<[p := Othpool tp5]> (heap w4)) w4).
  assert (Hoj : on_jobqueue (Some p)
                  (fun q => q' ← jobqueue_destroy q; ret (tt, q')) w3 =
                Ret tt w5).
  { unfold on_jobqueue.
    rewrite (bind_Ret _ _ _ _ _ (load_thpool_Ret _ _ _ Hp3)).
    change (jobqueue_ tp3) with (jobqueue_ tp).
    assert (Hinner : (q' ← jobqueue_destroy (jobqueue_ tp); ret (tt, q')) w3 =
                     Ret (tt, q4) w4)
      by (rewrite (bind_Ret _ _ _ _ _ Hrun4); reflexivity).
    rewrite (bind_Ret _ _ _ _ _ Hinner). cbn [fst snd].
    rewrite (bind_Ret _ _ _ _ _ (upd_thpool_Ret _ _ _ _ Hp4)).
    reflexivity. }
  rewrite (bind_Ret _ _ _ _ _ Hoj).
  assert (Hp5 : heap w5 !! p = Some (Othpool tp5)) by apply lookup_insert_eq.
  assert (Hframe5 : forall l, l <> p -> l <> s -> l ∉ js ->
                      heap w5 !! l = heap w !! l).
  { intros l Hlp Hls Hljs. cbn. rewrite lookup_insert_ne by congruence.
    rewrite Hfr4 by assumption. auto. }
  assert (Ha_js : arr ∉ js) by (intros Hx; destruct (Hjs_ne arr Hx); tauto).
  assert (Harr5 : heap w5 !! arr = Some (Othreads (map Some ts)))
    by (rewrite Hframe5 by auto; exact Harr).
  assert (Hsub : forall t, t ∈ take (Z.to_nat total) ts -> t ∈ ts)
    by (intros t Ht; apply (subseteq_take (Z.to_nat total) ts); exact Ht).
  destruct (destroy_threads_spec p arr tp5 ts total Harr_p Hmax (proj2 Hn)
              (Z.to_nat total) 0 w5)
    as (w6 & Hrun6 & Hfreed6 & Hfr6 & _);
    [f_equal; lia|lia|exact Hp5|exact Harr5| | |].
  { change (Z.to_nat 0) with 0%nat. rewrite drop_0.
    eapply sublist_NoDup; [|apply sublist_take]; exact Hnd. }
  { change (Z.to_nat 0) with 0%nat. rewrite drop_0. intros t Ht.
    destruct (Hts_ne t (Hsub t Ht)) as (? & ? & ? & ?).
    rewrite Hframe5 by assumption. apply Hth. auto. }
  change (Z.to_nat 0) with 0%nat in *. rewrite drop_0 in *.
  rewrite (bind_Ret _ _ _ _ _ Hrun6).
  assert (Hp_ts : p ∉ take (Z.to_nat total) ts)
    by (intros Hx; destruct (Hts_ne p (Hsub p Hx)); congruence).
  assert (Ha_ts : arr ∉ take (Z.to_nat total) ts)
    by (intros Hx; destruct (Hts_ne arr (Hsub arr Hx)); tauto).
  assert (Hp6 : heap w6 !! p = Some (Othpool tp5))
    by (rewrite Hfr6 by exact Hp_ts; exact Hp5).
  assert (Harr6 : heap w6 !! arr = Some (Othreads (map Some ts)))
    by (rewrite Hfr6 by exact Ha_ts; exact Harr5).
  rewrite (bind_Ret _ _ _ _ _ (load_thpool_Ret _ _ _ Hp6)).
  change (threads tp5) with (threads tp). rewrite Harr_p.
  assert (Hend : forall w7,
            heap w7 = heap w6 ->
            exists w',
              (free (Some arr);; free (Some p)) w7 = Ret tt w' /\
              heap w' = delete p (delete arr (heap w6))).
  { intros w7 H7. unfold bind, free. rewrite H7, Harr6. cbn.
    rewrite lookup_delete_ne by congruence. rewrite Hp6.
    eexists. split; [reflexivity|]. reflexivity. }
  assert (Hrun7 : exists w',
            ((if thcount_lock_inzed tp5
              then call (pthread_mutex_destroy thcount_lock) else ret tt);;
             (if threads_all_idle_inzed tp5
              then call (pthread_cond_destroy threads_all_idle) else ret tt);;
             free (Some arr);; free (Some p)) w6 = Ret tt w' /\
            heap w' = delete p (delete arr (heap w6))).
  { destruct (thcount_lock_inzed tp5), (threads_all_idle_inzed tp5);
      unfold call; rewrite ?bind_ret_l; unfold bind at 1;
      try (unfold bind at 1); apply Hend; reflexivity. }
  destruct Hrun7 as (w' & Hrun7 & Hheap). exists w'.
  split; [exact Hrun7|]. rewrite Hheap.
  split.
  - intros l Hl.
    destruct (decide (l = p)) as [->|Hlp]; [apply lookup_delete_eq|].
    rewrite lookup_delete_ne by congruence.
    destruct (decide (l = arr)) as [->|Hla]; [apply lookup_delete_eq|].
    rewrite lookup_delete_ne by congruence.
    destruct (decide (l ∈ take (Z.to_nat total) ts)) as [Hlt|Hlt];
      [auto|].
    rewrite Hfr6 by exact Hlt. cbn. rewrite lookup_insert_ne by congruence.
    destruct (decide (l = s)) as [->|Hls]; [exact Hs4|].
    apply Hjs4. rewrite !elem_of_cons, elem_of_app in Hl. tauto.
  - intros l Hl. rewrite !not_elem_of_cons, not_elem_of_app in Hl.
    destruct Hl as (Hlp & Hla & Hls & Hljs & Hlt).
    rewrite !lookup_delete_ne by congruence.
    rewrite Hfr6 by exact Hlt. apply Hframe5; assumption.
Qed.

(** X11. [thpool_destroy] waits for the workers and then releases what the
    pool owns.  On a pool whose array holds the thread structures [ts] and
    whose queue holds the jobs [js], with [num_threads_alive] threads alive
    at the call: as long as that counter is never seen at 0 the call stays
    blocked; once it is, the call returns with the pool, the array, the
    queue's semaphore, the queued jobs and the first [num_threads_alive]
    thread structures all freed, and nothing else in the heap changed. *)
Theorem thpool_destroy_releases (w : world) (p arr s : loc) (tp : thpool_)
    (ts js : list loc) (sched : list (bool * Z)) :
  heap w !! p = Some (Othpool tp) ->
  threads tp = Some arr ->
  heap w !! arr = Some (Othreads (map Some ts)) ->
  queue_rep w (jobqueue_ tp) js ->
  has_jobs (jobqueue_ tp) = Some s ->
  0 <= num_threads_alive tp <= Z.of_nat (length ts) ->
  num_threads_alive tp <= INT_MAX ->
  NoDup ts ->
  (forall t, t ∈ ts -> exists th, heap w !! t = Some (Othread th)) ->
  (0 ∈ num_threads_alive tp :: map snd sched ->
   exists w',
     thpool_destroy (Some p) sched w = Ret tt w' /\
     heap w' =
       filter (fun kv =>
                 kv.1 ∉ p :: arr :: s ::
                        js ++ take (Z.to_nat (num_threads_alive tp)) ts)
         (heap w)) /\
  (0 ∉ num_threads_alive tp :: map snd sched ->
   exists w', thpool_destroy (Some p) sched w = Blocked w').
Proof.
  intros Hp Harr_p Harr Hrep Hs Hn Hmax Hnd Hth.
  destruct (thpool_destroy_outcome w p tp arr s ts js sched
              Hp Harr_p Harr Hrep Hs Hn Hmax Hnd Hth)
    as [[Hnot Hblock]|[Hin Hret]].
  - split; [intros H; contradiction|intros _; exact Hblock].
  - split; [intros _|intros H; contradiction].
    destruct Hret as (w' & Hrun & Hfreed & Hkept).
    exists w'. split; [exact Hrun|].
    apply heap_without; assumption.
Qed.

(** X12. A pool created and then destroyed leaves nothing behind: when
    [thpool_init] returns a pool of [N] workers and [thpool_destroy] sees
    them all gone, the heap after the two calls is the heap before them. *)
Theorem thpool_init_destroy_round_trip (pf : platform) (N : Z) (w : world)
    (sched : list (bool * Z)) :
  0 <= N <= INT_MAX ->
  allocs_succeed (3 + Z.to_nat N) w = true ->
  N ∈ 0 :: wakeups w ->
  0 ∈ N :: map snd sched ->
  exists w',
    (p ← thpool_init pf N; thpool_destroy p sched) w = Ret tt w' /\
    heap w' = heap w.
Proof.
  intros HN Hok Hseen Hgone.
  destruct (thpool_init_pool pf N w HN Hok Hseen)
    as (p & s & arr & w1 & tp & ts & Hrun & Hp & Halive & Hwork & Hkeep &
        Hq & [b Hs] & Harr_p & Harr & Hlen & Hts & Hp0 & Hs0 & Harr0 & Hframe).
  assert (Hrep : queue_rep w1 (jobqueue_ tp) []).
  { rewrite Hq. unfold queue_rep, is_bsem. cbn. rewrite Hs.
    repeat split; try reflexivity; [unfold INT_MAX; lia|constructor]. }
  assert (Hhas : has_jobs (jobqueue_ tp) = Some s) by (rewrite Hq; reflexivity).
  assert (Hnd : NoDup ts).
  { apply NoDup_alt. intros i j t Hi Hj.
    destruct (Hts i t Hi) as [Hti _]. destruct (Hts j t Hj) as [Htj _].
    rewrite Hti in Htj. injection Htj as Hij. lia. }
  assert (Hth : forall t, t ∈ ts -> exists th, heap w1 !! t = Some (Othread th)).
  { intros t Ht. apply list_elem_of_lookup in Ht as [i Hi].
    destruct (Hts i t Hi) as [Hti _]. eauto. }
  destruct (thpool_destroy_outcome w1 p tp arr s ts [] sched
              Hp Harr_p Harr Hrep Hhas)
    as [[Hnot _]|[_ (w' & Hrun' & Hfreed & Hkept)]];
    [lia|lia|exact Hnd|exact Hth| |].
  { rewrite Halive in Hnot. contradiction. }
  exists w'. split.
  { rewrite (bind_Ret _ _ _ _ _ Hrun). exact Hrun'. }
  rewrite Halive, <- Hlen, Nat2Z.id, firstn_all in Hfreed, Hkept.
  cbn [app] in Hfreed, Hkept.
  apply map_eq. intros l.
  destruct (decide (l ∈ p :: arr :: s :: ts)) as [Hin|Hnotin].
  - rewrite (Hfreed l Hin). symmetry.
    rewrite !elem_of_cons in Hin. destruct Hin as [->| [->| [->|Hin]]];
      try assumption.
    apply list_elem_of_lookup in Hin as [i Hi].
    destruct (Hts i l Hi) as [_ Hnone]. exact Hnone.
  - rewrite (Hkept l Hnotin). apply Hframe. exact Hnotin.
Qed.

(** ** The worker *)

Lemma call_bind {B} e (k : unit -> M B) w :
  bind (call e) k w = k tt (set_trace (trace w ++ [e]) w).
Proof. reflexivity. Qed.

(** A semaphore that is up does not make its waiter wait. *)
Lemma bsem_wait_up w l b :
  heap w !! l = Some (Obsem b) ->
  v b = 1 ->
  bsem_wait (Some l) w =
    Ret tt (set_trace (trace w ++ [pthread_mutex_lock (bsem_mutex l);
                                   pthread_mutex_unlock (bsem_mutex l)]) w).
Proof.
  intros H Hv. destruct w as [h ms its ws tr], b as [x mi ci].
  cbn [heap v] in *. subst x.
  unfold bsem_wait. destruct ws; run_all; reflexivity.
Qed.

Lemma wrap_inc_dec x : in_int x -> wrap (wrap (x + 1) - 1) = x.
Proof.
  intros H. rewrite wrap_wrap_sub.
  replace (x + 1 - 1) with x by lia. apply wrap_in_int. exact H.
Qed.

(** The counter of working threads goes up or down under the lock. *)
Lemma working_step p tp f w :
  heap w !! p = Some (Othpool tp) ->
  (call (pthread_mutex_lock thcount_lock);;
   upd_thpool (Some p) f;;
   call (pthread_mutex_unlock thcount_lock)) w =
    Ret tt (mk_world (<[p := Othpool (f tp)]> (heap w)) (mallocs w) (inits w)
              (wakeups w)
              (trace w ++ [pthread_mutex_lock thcount_lock;
                           pthread_mutex_unlock thcount_lock])).
Proof.
  intros H. destruct w as [h ms its ws tr]. cbn [heap] in H.
  unfold upd_thpool. run. reflexivity.
Qed.

Lemma load_job_Ret l jb w :
  heap w !! l = Some (Ojob jb) -> load_job (Some l) w = Ret jb w.
Proof. intros H. unfold load_job, bind, load. rewrite H. reflexivity. Qed.

Lemma load_thread_Ret l th w :
  heap w !! l = Some (Othread th) -> load_thread (Some l) w = Ret th w.
Proof. intros H. unfold load_thread, bind, load. rewrite H. reflexivity. Qed.

Lemma free_Ret l o w :
  heap w !! l = Some o ->
  free (Some l) w = Ret tt (set_heap (delete l (heap w)) w).
Proof. intros H. unfold free. rewrite H. reflexivity. Qed.

(** One turn of the worker on a queue that holds jobs: the job at the
    front is pulled, its function is called on its argument, its signal if
    it has one is posted, and the job is freed. *)
Lemma thread_do_turn_spec call_job w p tp s bs j jb js :
  heap w !! p = Some (Othpool tp) ->
  threads_keepalive tp <> 0 ->
  queue_rep w (jobqueue_ tp) (j :: js) ->
  has_jobs (jobqueue_ tp) = Some s ->
  heap w !! s = Some (Obsem bs) ->
  v bs = 1 ->
  heap w !! j = Some (Ojob jb) ->
  in_int (num_threads_working tp) ->
  (forall sg, signal_ jb = Some sg ->
     sg <> s /\ exists b, heap w !! sg = Some (Obsem b)) ->
  (forall w1, exists w2,
     call_job (function jb) (arg jb) w1 = Ret tt w2 /\
     heap w2 = heap w1 /\ wakeups w2 = wakeups w1) ->
  exists w' q',
    thread_do_turn call_job (Some p) w = Ret tt w' /\
    heap w' !! p = Some (Othpool (with_jobqueue q' tp)) /\
    queue_rep w' q' js /\
    has_jobs q' = Some s /\
    has_jobs_v w' q' = Some (if bool_decide (js = []) then 0 else 1) /\
    heap w' !! j = None /\
    (forall sg b, signal_ jb = Some sg -> heap w !! sg = Some (Obsem b) ->
       heap w' !! sg =
         Some (Obsem (mk_bsem (wrap (v b - 1)) (mutex_inzed b) (cond_inzed b)))) /\
    (forall l, l <> p -> l <> s -> l <> j -> Some l <> signal_ jb ->
       heap w' !! l = heap w !! l) /\
    wakeups w' = wakeups w.
Proof.
  intros Hp Hkeep Hrep Hs Hbs Hv Hj Hint Hsig Hcall.
  assert (Hps : p <> s) by congruence.
  assert (Hpj : p <> j) by congruence.
  assert (Hsj : s <> j) by congruence.
  pose proof Hrep as (Hlink & _ & _ & _ & Hnd & _).
  apply NoDup_cons in Hnd as [Hj_js _].
  assert (Hjobs : forall l, l ∈ js -> exists jb', heap w !! l = Some (Ojob jb')).
  { intros l Hl. apply (linked_is_job _ _ _ l Hlink). right. exact Hl. }
  unfold thread_do_turn.
  rewrite (bind_Ret _ _ _ _ _ (load_thpool_Ret _ _ _ Hp)). rewrite Hs.
  rewrite (bind_Ret _ _ _ _ _ (bsem_wait_up _ _ _ Hbs Hv)).
  set (w1 := set_trace _ w).
  assert (Hp1 : heap w1 !! p = Some (Othpool tp)) by exact Hp.
  rewrite (bind_Ret _ _ _ _ _ (load_thpool_Ret _ _ _ Hp1)).
  destruct (Z.eqb_spec (threads_keepalive tp) 0) as [?|_]; [contradiction|].
  cbn [negb].
  rewrite call_bind.
  set (w1a := set_trace _ w1).
  assert (Hp1a : heap w1a !! p = Some (Othpool tp)) by exact Hp.
  rewrite (bind_Ret _ _ _ _ _ (upd_thpool_Ret _ _ _ _ Hp1a)).
  rewrite call_bind.
  set (tp2 := with_num_threads_working (wrap (num_threads_working tp + 1)) tp).
  set (w2 := set_trace _ (set_heap _ w1a)).
  assert (Hp2 : heap w2 !! p = Some (Othpool tp2)) by apply lookup_insert_eq.
  assert (Hfr2 : forall l, l <> p -> heap w2 !! l = heap w !! l)
    by (intros l Hl; cbn; apply lookup_insert_ne; congruence).
  assert (Hrep2 : queue_rep w2 (jobqueue_ tp) (j :: js)).
  { apply (queue_rep_agree w w2 _ _ Hrep).
    - intros l Hl. apply Hfr2.
      destruct (linked_is_job _ _ _ l Hlink Hl) as [? ?]. congruence.
    - intros l Hl. apply Hfr2. congruence. }
  destruct (jobqueue_pull_spec w2 _ _ Hrep2)
    as (w3 & q3 & Hrun3 & Hrep3 & Hv3 & Hhj3 & Hrw3 & Hkeep3 & Hframe3).
  cbn [head tail] in *.
  assert (Hfr3 : forall l, l <> s -> heap w3 !! l = heap w2 !! l)
    by (intros l Hl; apply Hkeep3; rewrite Hs; congruence).
  set (tp4 := with_jobqueue q3 tp2).
  set (w4 := set_heap (<[p := Othpool tp4]> (heap w3)) w3).
  assert (Hoj : on_jobqueue (Some p) jobqueue_pull w2 = Ret (Some j) w4).
  { unfold on_jobqueue.
    rewrite (bind_Ret _ _ _ _ _ (load_thpool_Ret _ _ _ Hp2)).
    change (jobqueue_ tp2) with (jobqueue_ tp).
    rewrite (bind_Ret _ _ _ _ _ Hrun3). cbn [fst snd].
    assert (Hp3 : heap w3 !! p = Some (Othpool tp2))
      by (rewrite Hfr3 by congruence; exact Hp2).
    rewrite (bind_Ret _ _ _ _ _ (upd_thpool_Ret _ _ _ _ Hp3)).
    reflexivity. }
  rewrite (bind_Ret _ _ _ _ _ Hoj). cbv beta iota.
  assert (Hfr4 : forall l, l <> p -> l <> s -> heap w4 !! l = heap w !! l).
  { intros l Hlp Hls. cbn. rewrite lookup_insert_ne by congruence.
    rewrite Hfr3, Hfr2 by assumption. reflexivity. }
  assert (Hp4 : heap w4 !! p = Some (Othpool tp4)) by apply lookup_insert_eq.
  assert (Hj4 : heap w4 !! j = Some (Ojob jb))
    by (rewrite Hfr4 by congruence; exact Hj).
  destruct (Hcall w4) as (w5 & Hc & Hh5 & Hwk5).
  assert (Hj5 : heap w5 !! j = Some (Ojob jb)) by (rewrite Hh5; exact Hj4).
  assert (Hblock : exists w7,
    (jb ← load_job (Some j);
     call_job (function jb) (arg jb);;
     jb ← load_job (Some j);
     (if signal_ jb is Some _ then dec_bsem_post (signal_ jb) else ret tt);;
     free (Some j)) w4 = Ret tt w7 /\
    heap w7 !! j = None /\
    (forall sg b, signal_ jb = Some sg -> heap w !! sg = Some (Obsem b) ->
       heap w7 !! sg =
         Some (Obsem (mk_bsem (wrap (v b - 1)) (mutex_inzed b) (cond_inzed b)))) /\
    (forall l, l <> j -> Some l <> signal_ jb -> heap w7 !! l = heap w4 !! l) /\
    wakeups w7 = wakeups w4).
  { rewrite (bind_Ret _ _ _ _ _ (load_job_Ret _ _ _ Hj4)).
    rewrite (bind_Ret _ _ _ _ _ Hc).
    rewrite (bind_Ret _ _ _ _ _ (load_job_Ret _ _ _ Hj5)).
    destruct (signal_ jb) as [sg|] eqn:Esig.
    - destruct (Hsig sg eq_refl) as [Hsgs [b Hb]].
      assert (Hsgp : sg <> p) by congruence.
      assert (Hsgj : sg <> j) by congruence.
      assert (Hb5 : heap w5 !! sg = Some (Obsem b))
        by (rewrite Hh5, Hfr4 by assumption; exact Hb).
      rewrite (bind_Ret _ _ _ _ _ (dec_bsem_post_Ret _ _ _ Hb5)).
      erewrite free_Ret
        by (cbn; rewrite lookup_insert_ne by congruence; exact Hj5).
      eexists. split; [reflexivity|]. cbn.
      split; [apply lookup_delete_eq|]. split; [|split].
      + intros sg' b' [= <-] Hb'.
        rewrite lookup_delete_ne, lookup_insert_eq by congruence.
        congruence.
      + intros l Hlj Hlsg.
        rewrite lookup_delete_ne, lookup_insert_ne by congruence.
        rewrite Hh5. reflexivity.
      + exact Hwk5.
    - rewrite bind_ret_l. rewrite (free_Ret _ _ _ Hj5).
      eexists. split; [reflexivity|]. cbn.
      split; [apply lookup_delete_eq|]. split; [|split].
      + intros sg' b' [=].
      + intros l Hlj _. rewrite lookup_delete_ne by congruence.
        rewrite Hh5. reflexivity.
      + exact Hwk5. }
  destruct Hblock as (w7 & Hblock & Hj7 & Hsig7 & Hfr7 & Hwk7).
  rewrite (bind_Ret _ _ _ _ _ Hblock).
  assert (Hp_sig : Some p <> signal_ jb).
  { intros Heq. symmetry in Heq.
    destruct (Hsig p Heq) as [_ [b Hb]]. congruence. }
  assert (Hp7 : heap w7 !! p = Some (Othpool tp4))
    by (rewrite Hfr7 by congruence; exact Hp4).
  rewrite call_bind.
  set (w7a := set_trace _ w7).
  assert (Hp7a : heap w7a !! p = Some (Othpool tp4)) by exact Hp7.
  rewrite (bind_Ret _ _ _ _ _ (upd_thpool_Ret _ _ _ _ Hp7a)).
  set (w8 := set_heap _ w7a).
  assert (Hp8 : heap w8 !! p = Some (Othpool (with_jobqueue q3 tp))).
  { cbn. rewrite lookup_insert_eq. do 2 f_equal.
    unfold tp4, tp2, with_jobqueue, with_num_threads_working. cbn.
    rewrite (wrap_inc_dec _ Hint). reflexivity. }
  rewrite (bind_Ret _ _ _ _ _ (load_thpool_Ret _ _ _ Hp8)).
  assert (Hend : exists w',
    ((if num_threads_working (with_jobqueue q3 tp) =? 0
      then call (pthread_cond_signal threads_all_idle) else ret tt);;
     call (pthread_mutex_unlock thcount_lock);; DO_SLEEP0ms) w8 = Ret tt w' /\
    heap w' = heap w8 /\ wakeups w' = wakeups w8).
  { destruct (num_threads_working (with_jobqueue q3 tp) =? 0);
      eexists; (split; [reflexivity|]); split; reflexivity. }
  destruct Hend as (w' & Hend & Hh' & Hwk').
  exists w', q3. split; [exact Hend|]. rewrite Hh'.
  split; [exact Hp8|].
  assert (Hs_sig : Some s <> signal_ jb).
  { intros Heq. symmetry in Heq. destruct (Hsig s Heq) as [? _]. congruence. }
  assert (Hfr8 : forall l, l <> p -> heap w8 !! l = heap w7 !! l)
    by (intros l Hl; cbn; apply lookup_insert_ne; congruence).
  assert (Hs8 : heap w8 !! s = heap w3 !! s).
  { rewrite Hfr8, Hfr7 by congruence. cbn.
    apply lookup_insert_ne. congruence. }
  split.
  { apply (queue_rep_agree w3 _ _ _ Hrep3).
    - intros l Hl. rewrite Hh'.
      destruct (Hjobs l Hl) as [jb' Hjb'].
      assert (l <> p) by congruence. assert (l <> j) by congruence.
      assert (Some l <> signal_ jb).
      { intros Heq. symmetry in Heq.
        destruct (Hsig l Heq) as [_ [b Hb]]. congruence. }
      rewrite Hfr8, Hfr7 by assumption. cbn.
      apply lookup_insert_ne. congruence.
    - intros l Hl. rewrite Hhj3, Hs in Hl. injection Hl as <-.
      rewrite Hh'. exact Hs8. }
  split; [rewrite Hhj3; exact Hs|].
  split.
  { unfold has_jobs_v, value_at in *. rewrite Hhj3, Hs in *.
    rewrite Hh', Hs8. exact Hv3. }
  split; [rewrite Hfr8 by congruence; exact Hj7|].
  split.
  { intros sg b Hsg Hb.
    assert (sg <> p) by congruence.
    rewrite Hfr8 by assumption. eauto. }
  split.
  { intros l Hlp Hls Hlj Hlsig.
    rewrite Hfr8, Hfr7, Hfr4 by assumption. reflexivity. }
  rewrite Hwk'. cbn. rewrite Hwk7. cbn.
  destruct Hframe3 as (_ & _ & _ & _ & Hwk3). rewrite Hwk3. reflexivity.
Qed.

Lemma thread_do_loop_unfold call_job fuel thpool_p :
  thread_do_loop call_job fuel thpool_p =
    (tp ← load_thpool thpool_p;
     if negb (threads_keepalive tp =? 0) then
       match fuel with
       | O => blocked
       | S fuel' =>
           thread_do_turn call_job thpool_p;;
           thread_do_loop call_job fuel' thpool_p
       end
     else ret tt).
Proof. destruct fuel; reflexivity. Qed.

(** A waiter on a semaphore that is down, with nobody to raise it. *)
Lemma bsem_wait_blocked w l b :
  heap w !! l = Some (Obsem b) ->
  v b <> 1 ->
  wakeups w = [] ->
  exists w', bsem_wait (Some l) w = Blocked w' /\ heap w' = heap w.
Proof.
  intros H Hv Hwk. destruct w as [h ms its ws tr].
  cbn [heap wakeups] in *. subst ws.
  apply Z.eqb_neq in Hv.
  unfold bsem_wait, bsem_cond_wait. run_all. rewrite Hv. run_all.
  eexists. split; reflexivity.
Qed.

Lemma signal_of_agree w w' j :
  heap w' !! j = heap w !! j -> signal_of w' j = signal_of w j.
Proof. unfold signal_of. intros ->. reflexivity. Qed.

Lemma completions_agree w w' sg js :
  (forall j, j ∈ js -> heap w' !! j = heap w !! j) ->
  completions w' sg js = completions w sg js.
Proof.
  unfold completions. induction js as [|j js IH]; intros H; [reflexivity|].
  cbn [List.filter]. rewrite (signal_of_agree w w' j) by (apply H; left).
  destruct (bool_decide (signal_of w j = Some sg)); cbn [length];
    rewrite IH; auto; intros j' Hj'; apply H; right; exact Hj'.
Qed.

Lemma completions_cons w sg j js :
  completions w sg (j :: js) =
    ((if bool_decide (signal_of w j = Some sg) then 1 else 0) +
     completions w sg js)%nat.
Proof.
  unfold completions. cbn [List.filter].
  destruct (bool_decide (signal_of w j = Some sg)); reflexivity.
Qed.

Lemma with_jobqueue_id tp : with_jobqueue (jobqueue_ tp) tp = tp.
Proof. destruct tp; reflexivity. Qed.

Lemma mk_bsem_eta b : mk_bsem (v b) (mutex_inzed b) (cond_inzed b) = b.
Proof. destruct b; reflexivity. Qed.

(** A worker alone on the pool serves the queue to its end and then waits
    for more work. *)
Lemma thread_do_loop_serves call_job p s js :
  forall fuel w tp,
    (length js < fuel)%nat ->
    heap w !! p = Some (Othpool tp) ->
    threads_keepalive tp <> 0 ->
    queue_rep w (jobqueue_ tp) js ->
    has_jobs (jobqueue_ tp) = Some s ->
    has_jobs_v w (jobqueue_ tp) = Some (if bool_decide (js = []) then 0 else 1) ->
    in_int (num_threads_working tp) ->
    wakeups w = [] ->
    (forall j sg, j ∈ js -> signal_of w j = Some sg ->
       sg <> s /\ exists b, heap w !! sg = Some (Obsem b)) ->
    (forall j jb, j ∈ js -> heap w !! j = Some (Ojob jb) ->
       forall w1, exists w2,
         call_job (function jb) (arg jb) w1 = Ret tt w2 /\
         heap w2 = heap w1 /\ wakeups w2 = wakeups w1) ->
    exists w' q',
      thread_do_loop call_job fuel (Some p) w = Blocked w' /\
      heap w' !! p = Some (Othpool (with_jobqueue q' tp)) /\
      queue_rep w' q' [] /\
      has_jobs q' = Some s /\
      has_jobs_v w' q' = Some 0 /\
      (forall j, j ∈ js -> heap w' !! j = None) /\
      (forall sg b, heap w !! sg = Some (Obsem b) -> sg <> s -> in_int (v b) ->
         heap w' !! sg =
           Some (Obsem (mk_bsem (wrap (v b - Z.of_nat (completions w sg js)))
                          (mutex_inzed b) (cond_inzed b)))) /\
      (forall l, l <> p -> l <> s -> l ∉ js ->
         (forall j, j ∈ js -> signal_of w j <> Some l) ->
         heap w' !! l = heap w !! l).
Proof.
  induction js as [|j js IH];
    intros fuel w tp Hfuel Hp Hkeep Hrep Hs Hv Hint Hwk Hsig Hcall;
    (destruct fuel as [|fuel]; [cbn in Hfuel; lia|]);
    rewrite thread_do_loop_unfold;
    rewrite (bind_Ret _ _ _ _ _ (load_thpool_Ret _ _ _ Hp));
    (destruct (Z.eqb_spec (threads_keepalive tp) 0) as [?|_];
      [contradiction|]); cbn [negb].
  - unfold has_jobs_v, value_at in Hv. rewrite Hs in Hv. cbn in Hv.
    destruct (heap w !! s) as [[bs| | | |]|] eqn:Hbs; try discriminate.
    injection Hv as Hv.
    destruct (bsem_wait_blocked w s bs Hbs) as (w' & Hrun & Hheap);
      [lia|exact Hwk|].
    exists w', (jobqueue_ tp).
    split.
    { assert (Hturn : thread_do_turn call_job (Some p) w = Blocked w').
      { unfold thread_do_turn.
        rewrite (bind_Ret _ _ _ _ _ (load_thpool_Ret _ _ _ Hp)). rewrite Hs.
        unfold bind at 1. rewrite Hrun. reflexivity. }
      unfold bind at 1. rewrite Hturn. reflexivity. }
    rewrite with_jobqueue_id, Hheap.
    split; [exact Hp|].
    split.
    { apply (queue_rep_agree w w' _ _ Hrep); intros; rewrite Hheap;
        reflexivity. }
    split; [exact Hs|].
    split.
    { unfold has_jobs_v, value_at. rewrite Hs, Hheap, Hbs, Hv. reflexivity. }
    split; [intros j Hj; apply elem_of_nil in Hj; contradiction|].
    split; [|auto].
    intros sg b Hb _ Hin. rewrite Hb. do 2 f_equal.
    change (Z.of_nat (completions w sg [])) with 0.
    rewrite Z.sub_0_r, (wrap_in_int _ Hin). symmetry. apply mk_bsem_eta.
  - pose proof Hrep as (Hlink & _ & _ & _ & Hnd & _).
    apply NoDup_cons in Hnd as [Hj_js Hnd].
    destruct (linked_is_job _ _ _ j Hlink) as [jb Hjb]; [left|].
    assert (Hjobs : forall l, l ∈ js ->
              exists jb', heap w !! l = Some (Ojob jb')).
    { intros l Hl. apply (linked_is_job _ _ _ l Hlink). right. exact Hl. }
    unfold has_jobs_v, value_at in Hv. rewrite Hs in Hv. cbn in Hv.
    destruct (heap w !! s) as [[bs| | | |]|] eqn:Hbs; try discriminate.
    injection Hv as Hv.
    assert (Hsigj : forall sg, signal_ jb = Some sg ->
              sg <> s /\ exists b, heap w !! sg = Some (Obsem b)).
    { intros sg Hsg. apply (Hsig j sg); [left|].
      unfold signal_of. rewrite Hjb. exact Hsg. }
    destruct (thread_do_turn_spec call_job w p tp s bs j jb js
                Hp Hkeep Hrep Hs Hbs Hv Hjb Hint Hsigj)
      as (w1 & q1 & Hrun1 & Hp1 & Hrep1 & Hs1 & Hv1 & Hj1 & Hsig1 & Hfr1 & Hwk1).
    { apply (Hcall j jb); [left|exact Hjb]. }
    assert (Hsame : forall l, l ∈ js -> heap w1 !! l = heap w !! l).
    { intros l Hl. destruct (Hjobs l Hl) as [jb' Hjb'].
      apply Hfr1; try congruence.
      intros Heq. symmetry in Heq.
      destruct (Hsigj l Heq) as [_ [b Hb]]. congruence. }
    assert (Hsigs1 : forall l sg, l ∈ js -> signal_of w1 l = Some sg ->
              sg <> s /\ exists b, heap w1 !! sg = Some (Obsem b)).
    { intros l sg Hl Hsg. rewrite (signal_of_agree w w1 l (Hsame l Hl)) in Hsg.
      destruct (Hsig l sg (proj2 (elem_of_cons js l j) (or_intror Hl)) Hsg)
        as [Hne [b Hb]].
      split; [exact Hne|].
      destruct (decide (signal_ jb = Some sg)) as [E|E].
      - rewrite (Hsig1 sg b E Hb). eauto.
      - exists b. rewrite Hfr1; try congruence. }
    destruct (IH fuel w1 (with_jobqueue q1 tp))
      as (w' & q' & Hrun & Hp' & Hrep' & Hs' & Hv' & Hfreed & Hposted & Hfr');
      [cbn in Hfuel; lia|exact Hp1|exact Hkeep|exact Hrep1|exact Hs1|
       exact Hv1|exact Hint|congruence|exact Hsigs1| |].
    { intros l jb' Hl Hjb'. rewrite (Hsame l Hl) in Hjb'.
      apply (Hcall l jb'); [right; exact Hl|exact Hjb']. }
    exists w', q'.
    split.
    { rewrite (bind_Ret _ _ _ _ _ Hrun1). exact Hrun. }
    split; [exact Hp'|]. split; [exact Hrep'|]. split; [exact Hs'|].
    split; [exact Hv'|].
    assert (Hps : p <> j) by congruence.
    split.
    { intros l Hl. apply elem_of_cons in Hl as [->|Hl]; [|auto].
      rewrite Hfr'; [exact Hj1|congruence|congruence|exact Hj_js|].
      intros j' Hj' Hsg. destruct (Hsigs1 j' j Hj' Hsg) as [_ [b Hb]].
      congruence. }
    split.
    { intros sg b Hb Hne Hin.
      rewrite completions_cons.
      assert (Hso : signal_of w j = signal_ jb)
        by (unfold signal_of; rewrite Hjb; reflexivity).
      rewrite Hso.
      destruct (bool_decide_reflect (signal_ jb = Some sg)) as [E|E].
      - rewrite (Hposted sg _ (Hsig1 sg b E Hb) Hne (wrap_range _)).
        cbn [v mutex_inzed cond_inzed].
        rewrite wrap_wrap_sub.
        rewrite (completions_agree w w1 sg js Hsame).
        replace (v b - 1 - Z.of_nat (completions w sg js))
          with (v b - Z.of_nat (1 + completions w sg js)) by lia.
        reflexivity.
      - assert (Hb1 : heap w1 !! sg = Some (Obsem b))
          by (rewrite Hfr1; congruence).
        rewrite (Hposted sg b Hb1 Hne Hin).
        rewrite (completions_agree w w1 sg js Hsame). reflexivity. }
    intros l Hlp Hls Hl Hnosig. apply not_elem_of_cons in Hl as [Hlj Hl].
    assert (Hl1 : heap w1 !! l = heap w !! l).
    { apply Hfr1; try assumption.
      intros Heq. apply (Hnosig j); [left|].
      unfold signal_of. rewrite Hjb. congruence. }
    rewrite Hfr'; [exact Hl1|exact Hlp|exact Hls|exact Hl|].
    intros j' Hj'. rewrite (signal_of_agree w w1 j' (Hsame j' Hj')).
    apply Hnosig. right. exact Hj'.
Qed.

(** X13. A worker that finds [threads_keepalive] at 0 takes no job: it
    counts itself alive, leaves its loop at the first test, counts itself
    out and returns [NULL].  The heap is as it was, whatever the queue
    holds, and the job function is not called. *)
Theorem thread_do_exits_when_not_kept_alive
    (call_job : fnptr -> voidptr -> M unit) (fuel : nat) (w : world)
    (t p : loc) (th : thread) (tp : thpool_) :
  heap w !! t = Some (Othread th) ->
  thpool_p th = Some p ->
  heap w !! p = Some (Othpool tp) ->
  threads_keepalive tp = 0 ->
  in_int (num_threads_alive tp) ->
  exists w',
    thread_do call_job fuel (Some t) w = Ret None w' /\
    heap w' = heap w /\
    trace w' = trace w ++ [pthread_mutex_lock thcount_lock;
                           pthread_mutex_unlock thcount_lock;
                           pthread_mutex_lock thcount_lock;
                           pthread_mutex_unlock thcount_lock] /\
    mallocs w' = mallocs w /\ wakeups w' = wakeups w.
Proof.
  intros Ht Hth Hp Hkeep Hint.
  unfold thread_do.
  rewrite (bind_Ret _ _ _ _ _ (load_thread_Ret _ _ _ Ht)). cbv zeta.
  rewrite Hth.
  rewrite call_bind.
  set (w1 := set_trace _ w).
  assert (Hp1 : heap w1 !! p = Some (Othpool tp)) by exact Hp.
  rewrite (bind_Ret _ _ _ _ _ (upd_thpool_Ret _ _ _ _ Hp1)).
  rewrite call_bind.
  set (tp2 := with_num_threads_alive (wrap (num_threads_alive tp + 1)) tp).
  set (w2 := set_trace _ (set_heap _ w1)).
  assert (Hp2 : heap w2 !! p = Some (Othpool tp2)) by apply lookup_insert_eq.
  assert (Hloop : thread_do_loop call_job fuel (Some p) w2 = Ret tt w2).
  { rewrite thread_do_loop_unfold.
    rewrite (bind_Ret _ _ _ _ _ (load_thpool_Ret _ _ _ Hp2)).
    change (threads_keepalive tp2) with (threads_keepalive tp).
    rewrite Hkeep. reflexivity. }
  rewrite (bind_Ret _ _ _ _ _ Hloop).
  rewrite call_bind.
  set (w3 := set_trace _ w2).
  assert (Hp3 : heap w3 !! p = Some (Othpool tp2)) by exact Hp2.
  rewrite (bind_Ret _ _ _ _ _ (upd_thpool_Ret _ _ _ _ Hp3)).
  rewrite call_bind.
  eexists. split; [reflexivity|]. cbn.
  split.
  { rewrite insert_insert_eq. apply insert_id. rewrite Hp. do 2 f_equal.
    unfold tp2, with_num_threads_alive. cbn. rewrite (wrap_inc_dec _ Hint).
    destruct tp; reflexivity. }
  split; [|auto].
  rewrite <- !app_assoc. reflexivity.
Qed.

(** The world a worker is in when it enters its loop. *)
Lemma thread_do_enters call_job fuel w t th p tp w' :
  heap w !! t = Some (Othread th) ->
  thpool_p th = Some p ->
  heap w !! p = Some (Othpool tp) ->
  thread_do_loop call_job fuel (Some p)
    (mk_world
       (<[p := Othpool (with_num_threads_alive
                          (wrap (num_threads_alive tp + 1)) tp)]> (heap w))
       (mallocs w) (inits w) (wakeups w)
       (trace w ++ [pthread_mutex_lock thcount_lock;
                    pthread_mutex_unlock thcount_lock])) = Blocked w' ->
  thread_do call_job fuel (Some t) w = Blocked w'.
Proof.
  intros Ht Hth Hp Hloop. unfold thread_do.
  rewrite (bind_Ret _ _ _ _ _ (load_thread_Ret _ _ _ Ht)). cbv zeta.
  rewrite Hth.
  rewrite call_bind.
  set (w1 := set_trace _ w).
  assert (Hp1 : heap w1 !! p = Some (Othpool tp)) by exact Hp.
  rewrite (bind_Ret _ _ _ _ _ (upd_thpool_Ret _ _ _ _ Hp1)).
  rewrite call_bind. unfold bind at 1.
  match goal with
  | |- context [thread_do_loop call_job fuel (Some p) ?ww] =>
      match type of Hloop with
      | thread_do_loop _ _ _ ?target = _ =>
          replace ww with target
            by (unfold w1, set_trace, set_heap; cbn;
                rewrite <- app_assoc; reflexivity)
      end
  end.
  rewrite Hloop. reflexivity.
Qed.

(** The loop served from a world that differs from [w] by the pool's
    counter of live threads only. *)
Lemma thread_do_loop_serves_entered call_job p s js fuel w w2 tp a :
  heap w2 = <[p := Othpool (with_num_threads_alive a tp)]> (heap w) ->
  wakeups w2 = wakeups w ->
  (length js < fuel)%nat ->
  heap w !! p = Some (Othpool tp) ->
  threads_keepalive tp <> 0 ->
  queue_rep w (jobqueue_ tp) js ->
  has_jobs (jobqueue_ tp) = Some s ->
  has_jobs_v w (jobqueue_ tp) = Some (if bool_decide (js = []) then 0 else 1) ->
  in_int (num_threads_working tp) ->
  wakeups w = [] ->
  (forall j sg, j ∈ js -> signal_of w j = Some sg ->
     sg <> s /\ exists b, heap w !! sg = Some (Obsem b)) ->
  (forall j jb, j ∈ js -> heap w !! j = Some (Ojob jb) ->
     forall w1, exists w2,
       call_job (function jb) (arg jb) w1 = Ret tt w2 /\
       heap w2 = heap w1 /\ wakeups w2 = wakeups w1) ->
  exists w' q',
    thread_do_loop call_job fuel (Some p) w2 = Blocked w' /\
    heap w' !! p =
      Some (Othpool (with_jobqueue q' (with_num_threads_alive a tp))) /\
    queue_rep w' q' [] /\
    has_jobs q' = Some s /\
    has_jobs_v w' q' = Some 0 /\
    (forall j, j ∈ js -> heap w' !! j = None) /\
    (forall sg b, heap w !! sg = Some (Obsem b) -> sg <> s -> in_int (v b) ->
       heap w' !! sg =
         Some (Obsem (mk_bsem (wrap (v b - Z.of_nat (completions w sg js)))
                        (mutex_inzed b) (cond_inzed b)))) /\
    (forall l, l <> p -> l <> s -> l ∉ js ->
       (forall j, j ∈ js -> signal_of w j <> Some l) ->
       heap w' !! l = heap w !! l).
Proof.
  intros Hheap2 Hwk2 Hfuel Hp Hkeep Hrep Hs Hv Hint Hwk Hsig Hcall.
  pose proof Hrep as (Hlink & _).
  assert (Hjobs : forall l, l ∈ js -> exists jb, heap w !! l = Some (Ojob jb))
    by (intros l Hl; exact (linked_is_job _ _ _ l Hlink Hl)).
  set (tp2 := with_num_threads_alive a tp) in *.
  assert (Hp2 : heap w2 !! p = Some (Othpool tp2))
    by (rewrite Hheap2; apply lookup_insert_eq).
  assert (Hfr2 : forall l, l <> p -> heap w2 !! l = heap w !! l)
    by (intros l Hl; rewrite Hheap2; apply lookup_insert_ne; congruence).
  assert (Hsame : forall l, l ∈ js -> heap w2 !! l = heap w !! l).
  { intros l Hl. destruct (Hjobs l Hl) as [jb Hjb]. apply Hfr2. congruence. }
  assert (Hsem : exists bs, heap w !! s = Some (Obsem bs)).
  { destruct Hrep as (_ & _ & _ & _ & _ & Hsem).
    apply is_bsem_inv in Hsem as (s' & bs & Hs' & Hbs).
    exists bs. congruence. }
  destruct Hsem as [bs Hbs].
  assert (Hps : p <> s) by congruence.
  destruct (thread_do_loop_serves call_job p s js fuel w2 tp2)
    as (w' & q' & Hrun & Hp' & Hrep' & Hs' & Hv' & Hfreed & Hposted & Hfr');
    [exact Hfuel|exact Hp2|exact Hkeep| |exact Hs| |exact Hint|congruence| | |].
  { apply (queue_rep_agree w w2 _ _ Hrep); [exact Hsame|].
    intros l Hl. apply Hfr2. congruence. }
  { unfold has_jobs_v, value_at in *.
    change (jobqueue_ tp2) with (jobqueue_ tp). rewrite Hs in *.
    rewrite Hfr2 by congruence. exact Hv. }
  { intros j sg Hj Hsg. rewrite (signal_of_agree w w2 j (Hsame j Hj)) in Hsg.
    destruct (Hsig j sg Hj Hsg) as [Hne [b Hb]]. split; [exact Hne|].
    exists b. rewrite Hfr2 by congruence. exact Hb. }
  { intros j jb Hj Hjb. rewrite (Hsame j Hj) in Hjb.
    exact (Hcall j jb Hj Hjb). }
  exists w', q'.
  split; [exact Hrun|].
  split; [exact Hp'|]. split; [exact Hrep'|]. split; [exact Hs'|].
  split; [exact Hv'|].
  split; [exact Hfreed|].
  split.
  { intros sg b Hb Hne Hin.
    assert (Hb2 : heap w2 !! sg = Some (Obsem b))
      by (rewrite Hfr2 by congruence; exact Hb).
    rewrite (Hposted sg b Hb2 Hne Hin).
    rewrite (completions_agree w w2 sg js Hsame). reflexivity. }
  intros l Hlp Hls Hl Hnosig.
  rewrite Hfr'; [apply Hfr2; exact Hlp|exact Hlp|exact Hls|exact Hl|].
  intros j Hj. rewrite (signal_of_agree w w2 j (Hsame j Hj)).
  apply Hnosig. exact Hj.
Qed.


(** ** Edge cases of the calls that take a signal *)

(** X15. [thpool_decsem_init] does not look at what [malloc] returned: on
    a failed allocation it dereferences [NULL].  Otherwise a negative value
    ends the process with status 1 after a message on stderr, the new
    block still allocated with its two flags cleared and its counter not
    written (it holds whatever [malloc] left there), and a value that is
    not negative gives a new signal that holds it. *)
Theorem thpool_decsem_init_outcomes (w : world) (value : Z) :
  (head (mallocs w) = Some false -> thpool_decsem_init value w = Fault) /\
  (head (mallocs w) <> Some false -> value < 0 ->
   exists w' l x msg,
     thpool_decsem_init value w = Exited 1 w' /\
     heap w !! l = None /\
     heap w' = <[l := Obsem (mk_bsem x false false)]> (heap w) /\
     trace w' = trace w ++ [fprintf_stderr msg]) /\
  (head (mallocs w) <> Some false -> 0 <= value ->
   exists w' l mi ci,
     thpool_decsem_init value w = Ret (Some l) w' /\
     heap w !! l = None /\
     heap w' = <[l := Obsem (mk_bsem value mi ci)]> (heap w) /\
     trace w' = trace w ++ [pthread_mutex_init (bsem_mutex l);
                            pthread_cond_init (bsem_cond l)]).
Proof.
  unfold thpool_decsem_init. split; [|split].
  - intros Hko. rewrite (bind_Ret _ _ _ _ _ (malloc_NULL _ _ Hko)).
    reflexivity.
  - intros Hok Hneg.
    destruct (malloc_Ret w fresh_bsem Hok) as [Hfresh Hm].
    rewrite (bind_Ret _ _ _ _ _ Hm).
    set (l := fresh (dom (heap w))) in *. clearbody l.
    destruct w as [h ms its ws tr]. cbn [heap mallocs inits wakeups trace] in *.
    unfold dec_bsem_init, fresh_bsem.
    destruct (Z.ltb_spec value 0) as [_|?]; [|lia].
    run_all. eexists. exists l. eexists. eexists.
    split; [reflexivity|]. cbn. auto.
  - intros Hok Hpos.
    destruct (malloc_Ret w fresh_bsem Hok) as [Hfresh Hm].
    rewrite (bind_Ret _ _ _ _ _ Hm).
    set (l := fresh (dom (heap w))) in *. clearbody l.
    destruct w as [h ms its ws tr]. cbn [heap mallocs inits wakeups trace] in *.
    unfold dec_bsem_init, fresh_bsem.
    destruct (Z.ltb_spec value 0) as [?|_]; [lia|].
    run_all. eexists. exists l. eexists. eexists.
    split; [reflexivity|]. cbn. auto.
Qed.


(** ** Jobs with a completion signal, from submission to release *)

(** A push leaves alone what is neither the new job, nor a queued job, nor
    the queue's semaphore. *)
Lemma jobqueue_push_others w q js j :
  queue_rep w q js ->
  is_job (heap w) j = true ->
  j ∉ js ->
  Z.of_nat (length js) < INT_MAX ->
  exists w' q',
    jobqueue_push q (Some j) w = Ret q' w' /\
    (forall l, l <> j -> l ∉ js -> Some l <> has_jobs q ->
       heap w' !! l = heap w !! l) /\
    mallocs w' = mallocs w /\ wakeups w' = wakeups w.
Proof.
  intros (Hlink & Hrear & Hlen & Hmax & Hnd & Hsem) Hjob Hnotin Hlt.
  apply is_bsem_inv in Hsem as (s & sb & Hs & Hsb).
  apply is_job_inv in Hjob as (jb & Hjb).
  assert (Hsj : s <> j) by congruence.
  destruct w as [h ms its ws tr]. destruct q as [fr re hj ln rw].
  cbn in *. subst hj ln.
  destruct js as [|r js _] using rev_ind.
  - change (Z.of_nat (length [])) with 0 in *.
    unfold jobqueue_push. cbn. run.
    eexists. eexists. split; [reflexivity|]. cbn. split; [|auto].
    intros l Hlj _ Hls. rewrite !lookup_insert_ne by congruence. reflexivity.
  - rewrite last_snoc in Hrear. subst re.
    destruct (linked_is_job _ _ _ r Hlink) as [rb Hrb];
      [apply elem_of_app; right; apply list_elem_of_singleton; reflexivity|].
    assert (Hrj : r <> j).
    { intros ->. apply Hnotin, elem_of_app. right.
      apply list_elem_of_singleton. reflexivity. }
    assert (Hsr : s <> r) by congruence.
    rewrite length_app in *. cbn [length] in *.
    unfold jobqueue_push. cbn.
    destruct (Z.eqb_spec (Z.of_nat (length js + 1)) 0) as [E|_]; [lia|].
    run.
    eexists. eexists. split; [reflexivity|]. cbn. split; [|auto].
    intros l Hlj Hl Hls.
    assert (l <> r).
    { intros ->. apply Hl, elem_of_app. right.
      apply list_elem_of_singleton. reflexivity. }
    rewrite !lookup_insert_ne by congruence. reflexivity.
Qed.

(** One job submitted with its signal. *)
Lemma add_work_with_sem_step w p tp js sg f a :
  heap w !! p = Some (Othpool tp) ->
  queue_rep w (jobqueue_ tp) js ->
  Z.of_nat (length js) < INT_MAX ->
  head (mallocs w) <> Some false ->
  exists w' q' j,
    thpool_add_work_with_sem (Some p) (Some sg) f a w = Ret 0 w' /\
    heap w !! j = None /\
    heap w' !! p = Some (Othpool (with_jobqueue q' tp)) /\
    queue_rep w' q' (js ++ [j]) /\
    has_jobs q' = has_jobs (jobqueue_ tp) /\
    has_jobs_v w' q' = Some 1 /\
    (exists jb, heap w' !! j = Some (Ojob jb) /\
                function jb = f /\ arg jb = a /\ signal_ jb = Some sg) /\
    (forall l jb, heap w !! l = Some (Ojob jb) ->
       exists jb', heap w' !! l = Some (Ojob jb') /\ same_payload jb jb') /\
    (forall l, l <> p -> l <> j -> l ∉ js ->
       Some l <> has_jobs (jobqueue_ tp) -> heap w' !! l = heap w !! l) /\
    mallocs w' = tail (mallocs w) /\ wakeups w' = wakeups w /\
    (forall l, heap w' !! l = None -> heap w !! l = None).
Proof.
  intros Hp Hrep Hlt Hok. unfold thpool_add_work_with_sem.
  destruct (malloc_Ret w fresh_job Hok) as [Hfresh Hm].
  rewrite (bind_Ret _ _ _ _ _ Hm).
  set (j := fresh (dom (heap w))) in *.
  set (jb0 := mk_job (prev junk_job) f a (Some sg)).
  set (w1 := mk_world (<[j := Ojob jb0]> (heap w)) (tail (mallocs w))
               (inits w) (wakeups w) (trace w)).
  assert (Hfill :
    (set_function (Some j) f;;
     set_arg (Some j) a;;
     set_signal_ (Some j) (Some sg))
      (mk_world (<[j := fresh_job]> (heap w)) (tail (mallocs w))
         (inits w) (wakeups w) (trace w)) = Ret tt w1).
  { subst w1 jb0. unfold fresh_job. run. reflexivity. }
  assert (Hj1 : heap w1 !! j = Some (Ojob jb0)) by apply lookup_insert_eq.
  assert (Hpj : p <> j) by congruence.
  assert (Hfr1 : forall l, l <> j -> heap w1 !! l = heap w !! l)
    by (intros l Hl; cbn; apply lookup_insert_ne; congruence).
  assert (Hnotin : j ∉ js).
  { intros Hin. eapply (queue_rep_allocated _ _ _ _ Hrep); eauto. }
  pose proof Hrep as (Hlink & _ & _ & _ & _ & Hsem).
  apply is_bsem_inv in Hsem as (s & sb & Hs & Hsb).
  assert (Hps : p <> s) by congruence.
  assert (Hsj : s <> j) by congruence.
  assert (Hp_js : p ∉ js).
  { intros Hin. destruct (linked_is_job _ _ _ p Hlink Hin). congruence. }
  assert (Hrep1 : queue_rep w1 (jobqueue_ tp) js).
  { apply (queue_rep_agree w w1 _ _ Hrep); intros l Hl; apply Hfr1.
    - intros ->. contradiction.
    - congruence. }
  assert (Hjob1 : is_job (heap w1) j = true)
    by (unfold is_job; rewrite Hj1; reflexivity).
  destruct (jobqueue_push_spec w1 _ js j Hrep1 Hjob1 Hnotin Hlt)
    as (w2 & q2 & Hrun & Hrep2 & Hv2 & Hhj2 & _ & _ & Hframe2).
  destruct (jobqueue_push_others w1 _ js j Hrep1 Hjob1 Hnotin Hlt)
    as (w2' & q2' & Hrun' & Hothers & Hms2 & Hwk2).
  rewrite Hrun in Hrun'. injection Hrun' as <- <-.
  destruct Hframe2 as (Hjobs2 & _).
  assert (Hp1 : heap w1 !! p = Some (Othpool tp))
    by (rewrite Hfr1 by congruence; exact Hp).
  assert (Hp2 : heap w2 !! p = Some (Othpool tp)).
  { rewrite Hothers; [exact Hp1|congruence|exact Hp_js|].
    rewrite Hs. congruence. }
  set (w3 := set_heap (<[p := Othpool (with_jobqueue q2 tp)]> (heap w2)) w2).
  assert (Hoj : on_jobqueue (Some p)
                  (fun q => q' ← jobqueue_push q (Some j); ret (tt, q')) w1 =
                Ret tt w3).
  { unfold on_jobqueue.
    rewrite (bind_Ret _ _ _ _ _ (load_thpool_Ret _ _ _ Hp1)).
    erewrite bind_Ret; [|rewrite (bind_Ret _ _ _ _ _ Hrun); reflexivity].
    cbn [fst snd].
    rewrite (bind_Ret _ _ _ _ _ (upd_thpool_Ret _ _ _ _ Hp2)). reflexivity. }
  assert (Hfr3 : forall l, l <> p -> heap w3 !! l = heap w2 !! l)
    by (intros l Hl; cbn; apply lookup_insert_ne; congruence).
  exists w3, q2, j.
  split.
  { apply bind_Ret_inv in Hfill as ([] & wa & Ha1 & Hfill).
    apply bind_Ret_inv in Hfill as ([] & wb & Hb1 & Hc1).
    rewrite (bind_Ret _ _ _ _ _ Ha1), (bind_Ret _ _ _ _ _ Hb1),
      (bind_Ret _ _ _ _ _ Hc1), (bind_Ret _ _ _ _ _ Hoj).
    reflexivity. }
  split; [exact Hfresh|].
  split; [apply lookup_insert_eq|].
  split.
  { apply (queue_rep_agree w2 w3 _ _ Hrep2); intros l Hl; apply Hfr3.
    - intros ->. apply elem_of_app in Hl as [Hl|Hl]; [contradiction|].
      apply list_elem_of_singleton in Hl. congruence.
    - rewrite Hhj2, Hs in Hl. congruence. }
  split; [exact Hhj2|].
  split.
  { unfold has_jobs_v, value_at in *. rewrite Hhj2, Hs in *.
    rewrite Hfr3 by congruence. exact Hv2. }
  split.
  { destruct (Hjobs2 j jb0 Hj1) as (jb' & Hj2 & Hf & Ha & Hsg).
    exists jb'. rewrite Hfr3 by congruence. auto. }
  assert (Hkept : forall l, l <> p -> l <> j -> l ∉ js ->
            Some l <> has_jobs (jobqueue_ tp) -> heap w3 !! l = heap w !! l).
  { intros l Hlp Hlj Hljs Hls.
    rewrite Hfr3, Hothers, Hfr1 by assumption. reflexivity. }
  assert (Hold : forall l jb, heap w !! l = Some (Ojob jb) ->
            exists jb', heap w3 !! l = Some (Ojob jb') /\ same_payload jb jb').
  { intros l jb Hl. assert (l <> j) by congruence.
    assert (l <> p) by congruence.
    rewrite Hfr3 by assumption. apply Hjobs2.
    rewrite Hfr1 by assumption. exact Hl. }
  split; [exact Hold|]. split; [exact Hkept|].
  split; [exact Hms2|]. split; [exact Hwk2|].
  intros l Hnone.
  destruct (decide (l = j)) as [->|Hlj]; [exact Hfresh|].
  destruct (decide (l = p)) as [->|Hlp];
    [cbn in Hnone; rewrite lookup_insert_eq in Hnone; discriminate|].
  destruct (decide (l ∈ js)) as [Hin|Hljs].
  { destruct (linked_is_job _ _ _ l Hlink Hin) as [jb Hjb].
    destruct (Hold l jb Hjb) as (jb' & Hjb' & _). congruence. }
  destruct (decide (l = s)) as [->|Hls].
  { destruct Hrep2 as (_ & _ & _ & _ & _ & Hsem2).
    rewrite Hhj2, Hs in Hsem2. unfold is_bsem in Hsem2.
    rewrite Hfr3 in Hnone by congruence. rewrite Hnone in Hsem2.
    discriminate. }
  rewrite <- Hkept; [exact Hnone|assumption..|].
  rewrite Hs. congruence.
Qed.

Lemma same_payload_trans jb1 jb2 jb3 :
  same_payload jb1 jb2 -> same_payload jb2 jb3 -> same_payload jb1 jb3.
Proof. unfold same_payload. intros (? & ? & ?) (? & ? & ?). repeat split; congruence. Qed.

(** The jobs submitted one after the other are queued in that order, each
    with its function, its argument and the signal. *)
Lemma submit_all_spec p sg fs :
  forall w tp js,
    heap w !! p = Some (Othpool tp) ->
    queue_rep w (jobqueue_ tp) js ->
    Z.of_nat (length js + length fs) <= INT_MAX ->
    allocs_ok (length fs) (mallocs w) = true ->
    exists w' q' js',
      submit_all (Some p) (Some sg) fs w = Ret tt w' /\
      heap w' !! p = Some (Othpool (with_jobqueue q' tp)) /\
      queue_rep w' q' (js ++ js') /\
      has_jobs q' = has_jobs (jobqueue_ tp) /\
      has_jobs_v w' q' =
        match fs with
        | [] => has_jobs_v w (jobqueue_ tp)
        | _ => Some 1
        end /\
      (forall j, j ∈ js' -> heap w !! j = None) /\
      Forall2 (fun j fa =>
                 exists jb, heap w' !! j = Some (Ojob jb) /\
                   function jb = fa.1 /\ arg jb = fa.2 /\
                   signal_ jb = Some sg) js' fs /\
      (forall l jb, heap w !! l = Some (Ojob jb) ->
         exists jb', heap w' !! l = Some (Ojob jb') /\ same_payload jb jb') /\
      (forall l, l <> p -> l ∉ js' -> l ∉ js ->
         Some l <> has_jobs (jobqueue_ tp) -> heap w' !! l = heap w !! l) /\
      wakeups w' = wakeups w /\
      (forall l, heap w' !! l = None -> heap w !! l = None).
Proof.
  induction fs as [|[f a] fs IH]; intros w tp js Hp Hrep Hlen Hok.
  - exists w, (jobqueue_ tp), []. rewrite with_jobqueue_id, app_nil_r.
    split; [reflexivity|]. split; [exact Hp|]. split; [exact Hrep|].
    repeat (split; [reflexivity|]).
    split; [intros j Hj; apply elem_of_nil in Hj; contradiction|].
    split; [constructor|]. split; [|auto].
    intros l jb Hl. exists jb. split; [exact Hl|]. repeat split.
  - destruct (allocs_succeed_S _ _ Hok) as [Hhead Htail].
    cbn [length] in Hlen.
    destruct (add_work_with_sem_step w p tp js sg f a Hp Hrep)
      as (w1 & q1 & j & Hrun1 & Hfresh & Hp1 & Hrep1 & Hhj1 & Hv1 & Hj1 &
          Hold1 & Hkept1 & Hms1 & Hwk1 & Hmono1); [lia|exact Hhead|].
    destruct (IH w1 (with_jobqueue q1 tp) (js ++ [j]) Hp1 Hrep1)
      as (w' & q' & js' & Hrun & Hp' & Hrep' & Hhj' & Hv' & Hfresh' & Hall &
          Hold' & Hkept' & Hwk' & Hmono');
      [rewrite length_app; cbn [length]; lia|rewrite Hms1; exact Htail|].
    cbn [jobqueue_ with_jobqueue] in Hhj', Hv', Hkept'.
    exists w', q', (j :: js').
    split.
    { cbn [submit_all]. rewrite (bind_Ret _ _ _ _ _ Hrun1). exact Hrun. }
    split; [exact Hp'|].
    split; [rewrite <- app_assoc in Hrep'; exact Hrep'|].
    split; [congruence|].
    split; [rewrite Hv'; destruct fs; [exact Hv1|reflexivity]|].
    split.
    { intros l Hl. apply elem_of_cons in Hl as [->|Hl]; [exact Hfresh|].
      apply Hmono1, Hfresh'. exact Hl. }
    split.
    { constructor; [|exact Hall].
      destruct Hj1 as (jb & Hjb & Hf & Ha & Hsg).
      destruct (Hold' j jb Hjb) as (jb' & Hjb' & Hf' & Ha' & Hsg').
      exists jb'. cbn. repeat split; congruence. }
    split.
    { intros l jb Hl. destruct (Hold1 l jb Hl) as (jb1 & Hl1 & Hpay1).
      destruct (Hold' l jb1 Hl1) as (jb' & Hl' & Hpay').
      exists jb'. split; [exact Hl'|].
      exact (same_payload_trans _ _ _ Hpay1 Hpay'). }
    split.
    { intros l Hlp Hl Hljs Hls. apply not_elem_of_cons in Hl as [Hlj Hl].
      rewrite Hkept'; [apply Hkept1; assumption|exact Hlp|exact Hl| |].
      - intros Hin. apply elem_of_app in Hin as [Hin|Hin]; [contradiction|].
        apply list_elem_of_singleton in Hin. contradiction.
      - rewrite Hhj1. exact Hls. }
    split; [congruence|].
    intros l Hl. apply Hmono1, Hmono'. exact Hl.
Qed.

Lemma thpool_decsem_init_Ret w k :
  head (mallocs w) <> Some false ->
  0 <= k ->
  exists w0 sg b,
    thpool_decsem_init k w = Ret (Some sg) w0 /\
    heap w !! sg = None /\
    heap w0 = <[sg := Obsem b]> (heap w) /\
    v b = k /\
    mallocs w0 = tail (mallocs w) /\ wakeups w0 = wakeups w.
Proof.
  intros Hok Hpos. unfold thpool_decsem_init.
  destruct (malloc_Ret w fresh_bsem Hok) as [Hfresh Hm].
  rewrite (bind_Ret _ _ _ _ _ Hm).
  set (l := fresh (dom (heap w))) in *. clearbody l.
  destruct w as [h ms its ws tr]. cbn [heap mallocs inits wakeups trace] in *.
  unfold dec_bsem_init, fresh_bsem.
  destruct (Z.ltb_spec k 0) as [?|_]; [lia|].
  run_all. eexists. exists l. eexists (mk_bsem k _ _).
  split; [reflexivity|]. cbn. auto 10.
Qed.

(** A signal that has come to 0 releases its waiter, which frees it. *)
Lemma thpool_wait_cond_released w l b :
  heap w !! l = Some (Obsem b) ->
  v b = 0 ->
  exists w', thpool_wait_cond (Some l) w = Ret tt w' /\
             heap w' = delete l (heap w).
Proof.
  intros H Hv. destruct w as [h ms its ws tr], b as [x mi ci].
  cbn [heap v] in *. subst x.
  unfold thpool_wait_cond, dec_bsem_wait, bsem_destroy, free.
  destruct ws, mi, ci; run_all; eexists; (split; [reflexivity|]); cbn;
    rewrite ?delete_insert_eq; reflexivity.
Qed.

Lemma completions_all w sg js :
  (forall j, j ∈ js -> signal_of w j = Some sg) ->
  completions w sg js = length js.
Proof.
  induction js as [|j js IH]; intros H; [reflexivity|].
  rewrite completions_cons.
  rewrite bool_decide_eq_true_2 by (apply H; left).
  cbn [length]. f_equal. apply IH. intros j' Hj'. apply H. right. exact Hj'.
Qed.

(** X17. Jobs submitted with one completion signal, from submission to
    release.  The caller makes a signal for as many jobs as it has, submits
    them with [thpool_add_work_with_sem] and goes to wait on the signal; a
    worker, alone on the pool, runs until it blocks.  Provided the
    functions of the jobs return and leave the heap alone, the worker
    blocks only once the queue is empty, [thpool_wait_cond] then returns,
    and nothing is left behind: but for the pool structure and the queue's
    semaphore, the heap is what it was before the signal was made. *)
Theorem signalled_jobs_complete
    (call_job : fnptr -> voidptr -> M unit) (fuel : nat) (w : world)
    (t p s : loc) (th : thread) (tp : thpool_)
    (fs : list (fnptr * voidptr)) :
  heap w !! t = Some (Othread th) ->
  thpool_p th = Some p ->
  heap w !! p = Some (Othpool tp) ->
  threads_keepalive tp <> 0 ->
  queue_rep w (jobqueue_ tp) [] ->
  has_jobs (jobqueue_ tp) = Some s ->
  has_jobs_v w (jobqueue_ tp) = Some 0 ->
  in_int (num_threads_working tp) ->
  wakeups w = [] ->
  allocs_succeed (S (length fs)) w = true ->
  Z.of_nat (length fs) <= INT_MAX ->
  (length fs < fuel)%nat ->
  (forall f a, (f, a) ∈ fs ->
     forall w1, exists w2,
       call_job f a w1 = Ret tt w2 /\
       heap w2 = heap w1 /\ wakeups w2 = wakeups w1) ->
  exists el w1 w2 w3 q',
    (el ← thpool_decsem_init (Z.of_nat (length fs));
     submit_all (Some p) el fs;;
     ret el) w = Ret el w1 /\
    thread_do call_job fuel (Some t) w1 = Blocked w2 /\
    thpool_wait_cond el w2 = Ret tt w3 /\
    heap w3 !! p =
      Some (Othpool
              (with_jobqueue q'
                 (with_num_threads_alive (wrap (num_threads_alive tp + 1)) tp))) /\
    queue_rep w3 q' [] /\
    (forall l, l <> p -> l <> s -> heap w3 !! l = heap w !! l).
Proof.
  intros Ht Hth Hp Hkeep Hrep Hs Hv Hint Hwk Hok Hlen Hfuel Hcall.
  unfold allocs_succeed in Hok.
  destruct (allocs_succeed_S _ _ Hok) as [Hhead Htail].
  pose proof Hrep as (_ & _ & _ & _ & _ & Hsem).
  apply is_bsem_inv in Hsem as (s' & bs & Hs' & Hbs).
  assert (s' = s) by congruence. subst s'. clear Hs'.
  (* the signal *)
  destruct (thpool_decsem_init_Ret w (Z.of_nat (length fs)) Hhead)
    as (w0 & sg & b & Hrun0 & Hfresh & Hheap0 & Hvb & Hms0 & Hwk0); [lia|].
  assert (Hfr0 : forall l, l <> sg -> heap w0 !! l = heap w !! l)
    by (intros l Hl; rewrite Hheap0; apply lookup_insert_ne; congruence).
  assert (Hsg0 : heap w0 !! sg = Some (Obsem b))
    by (rewrite Hheap0; apply lookup_insert_eq).
  assert (Hp0 : heap w0 !! p = Some (Othpool tp))
    by (rewrite Hfr0 by congruence; exact Hp).
  assert (Hrep0 : queue_rep w0 (jobqueue_ tp) []).
  { apply (queue_rep_agree w w0 _ _ Hrep).
    - intros l Hl. apply elem_of_nil in Hl. contradiction.
    - intros l Hl. apply Hfr0. congruence. }
  (* the submissions *)
  destruct (submit_all_spec p sg fs w0 tp [] Hp0 Hrep0)
    as (w1 & q1 & js & Hrun1 & Hp1 & Hrep1 & Hhj1 & Hv1 & Hfresh1 & Hall &
        _ & Hkept1 & Hwk1 & _);
    [cbn [length]; lia|rewrite Hms0; exact Htail|].
  cbn [app] in Hrep1.
  assert (Hlenjs : length js = length fs) by exact (Forall2_length _ _ _ Hall).
  assert (Hjs_new : forall j, j ∈ js -> j <> sg /\ heap w !! j = None).
  { intros j Hj. pose proof (Hfresh1 j Hj) as Hnone.
    assert (j <> sg) by congruence.
    split; [assumption|]. rewrite <- Hfr0 by assumption. exact Hnone. }
  assert (Hsame1 : forall l, l <> p -> l <> s -> l <> sg -> l ∉ js ->
            heap w1 !! l = heap w !! l).
  { intros l Hlp Hls Hlsg Hl.
    rewrite Hkept1; [apply Hfr0; exact Hlsg|exact Hlp|exact Hl| |].
    - apply not_elem_of_nil.
    - rewrite Hs. congruence. }
  assert (Hs_sg : s <> sg) by congruence.
  assert (Hp_sg : p <> sg) by congruence.
  assert (Hsg_js : sg ∉ js).
  { intros Hin. destruct (Hjs_new sg Hin). congruence. }
  assert (Hsg1 : heap w1 !! sg = Some (Obsem b)).
  { rewrite Hkept1; [exact Hsg0|congruence|exact Hsg_js|apply not_elem_of_nil|].
    rewrite Hs. congruence. }
  assert (Hjob_sg : forall j, j ∈ js -> signal_of w1 j = Some sg).
  { intros j Hj. apply list_elem_of_lookup in Hj as [i Hi].
    destruct (Forall2_lookup_l _ _ _ _ _ Hall Hi)
      as (fa & _ & jb & Hjb & _ & _ & Hsig).
    unfold signal_of. rewrite Hjb. exact Hsig. }
  exists (Some sg), w1.
  set (tp1 := with_jobqueue q1 tp) in *.
  set (a := wrap (num_threads_alive tp + 1)).
  set (we := mk_world (<[p := Othpool (with_num_threads_alive a tp1)]> (heap w1))
               (mallocs w1) (inits w1) (wakeups w1)
               (trace w1 ++ [pthread_mutex_lock thcount_lock;
                             pthread_mutex_unlock thcount_lock])).
  assert (Ht1 : heap w1 !! t = Some (Othread th)).
  { rewrite Hsame1; [exact Ht|congruence..|].
    intros Hin. destruct (Hjs_new t Hin). congruence. }
  destruct (thread_do_loop_serves_entered call_job p s js fuel w1 we tp1 a
              eq_refl eq_refl)
    as (w2 & q2 & Hrun2 & Hp2 & Hrep2 & Hq2 & Hv2 & Hfreed2 & Hposted2 &
        Hkept2);
    [lia|exact Hp1|exact Hkeep|exact Hrep1|
     change (jobqueue_ tp1) with q1; rewrite Hhj1; exact Hs| |
     exact Hint|congruence| | |].
  { change (jobqueue_ tp1) with q1. rewrite Hv1.
    destruct fs as [|fa fs]; inversion Hall; subst.
    - unfold has_jobs_v, value_at in *. rewrite Hs in *.
      rewrite Hfr0 by congruence. exact Hv.
    - reflexivity. }
  { intros j sg' Hj Hsg'. rewrite (Hjob_sg j Hj) in Hsg'.
    injection Hsg' as <-. split; [congruence|eauto]. }
  { intros j jb Hj Hjb. apply list_elem_of_lookup in Hj as [i Hi].
    destruct (Forall2_lookup_l _ _ _ _ _ Hall Hi)
      as ([f x] & Hfa & jb' & Hjb' & Hf & Hx & _).
    assert (jb' = jb) by congruence. subst jb'. cbn in Hf, Hx.
    rewrite Hf, Hx. apply Hcall. apply list_elem_of_lookup. eauto. }
  assert (Hsg2 : exists b2, heap w2 !! sg = Some (Obsem b2) /\ v b2 = 0).
  { eexists. split.
    - apply (Hposted2 sg b Hsg1); [congruence|].
      rewrite Hvb. unfold in_int, INT_MIN. lia.
    - cbn. rewrite (completions_all w1 sg js Hjob_sg), Hvb, Hlenjs.
      rewrite Z.sub_diag. reflexivity. }
  destruct Hsg2 as (b2 & Hsg2 & Hvb2).
  destruct (thpool_wait_cond_released w2 sg b2 Hsg2 Hvb2)
    as (w3 & Hrun3 & Hheap3).
  exists w2, w3, q2.
  split.
  { rewrite (bind_Ret _ _ _ _ _ Hrun0), (bind_Ret _ _ _ _ _ Hrun1).
    reflexivity. }
  split.
  { exact (thread_do_enters call_job fuel w1 t th p tp1 w2 Ht1 Hth Hp1 Hrun2). }
  split; [exact Hrun3|].
  rewrite Hheap3.
  split; [rewrite lookup_delete_ne by congruence; exact Hp2|].
  split.
  { apply (queue_rep_agree w2 _ _ _ Hrep2).
    - intros l Hl. apply elem_of_nil in Hl. contradiction.
    - intros l Hl. rewrite Hheap3. apply lookup_delete_ne. congruence. }
  intros l Hlp Hls.
  destruct (decide (l = sg)) as [->|Hlsg];
    [rewrite lookup_delete_eq; symmetry; exact Hfresh|].
  rewrite lookup_delete_ne by congruence.
  destruct (decide (l ∈ js)) as [Hin|Hnotin].
  { rewrite (Hfreed2 l Hin). symmetry. apply Hjs_new. exact Hin. }
  rewrite Hkept2; [apply Hsame1; assumption|exact Hlp|exact Hls|exact Hnotin|].
  intros j Hj. rewrite (Hjob_sg j Hj). congruence.
Qed.

(** ** A worker woken for nothing *)

(** One turn of the worker when [has_jobs] is up and the queue is empty:
    no job is run, and [has_jobs] is put back to 0. *)
Lemma thread_do_turn_idle call_job w p tp s bs :
  heap w !! p = Some (Othpool tp) ->
  threads_keepalive tp <> 0 ->
  queue_rep w (jobqueue_ tp) [] ->
  has_jobs (jobqueue_ tp) = Some s ->
  heap w !! s = Some (Obsem bs) ->
  v bs = 1 ->
  in_int (num_threads_working tp) ->
  exists w',
    thread_do_turn call_job (Some p) w = Ret tt w' /\
    heap w' !! p = Some (Othpool tp) /\
    heap w' !! s = Some (Obsem (mk_bsem 0 (mutex_inzed bs) (cond_inzed bs))) /\
    (forall l, l <> p -> l <> s -> heap w' !! l = heap w !! l) /\
    wakeups w' = wakeups w.
Proof.
  intros Hp Hkeep Hrep Hs Hbs Hv Hint.
  assert (Hps : p <> s) by congruence.
  destruct (queue_rep_nil_inv _ _ Hrep) as (Hfr & Hre & Hlen).
  destruct tp as [thr al wk [fr re hj ln rw] ka tl ti].
  cbn [jobqueue_ front rear len has_jobs threads_keepalive
       num_threads_working] in *. subst fr re ln hj.
  destruct bs as [x mi ci]. cbn [v mutex_inzed cond_inzed] in *. subst x.
  destruct w as [h ms its ws tr]. cbn [heap wakeups] in *.
  apply Z.eqb_neq in Hkeep.
  unfold thread_do_turn, bsem_wait, on_jobqueue, jobqueue_pull, DO_SLEEP0ms.
  destruct ws; run_pool; rewrite Hkeep; run_pool;
    rewrite (wrap_inc_dec _ Hint);
    destruct (wk =? 0); run_pool;
    eexists; (split; [reflexivity|]); cbn;
    rewrite lookup_insert_eq;
    rewrite lookup_insert_ne by congruence; rewrite lookup_insert_eq;
    (split; [reflexivity|]); (split; [reflexivity|]); (split; [|reflexivity]);
    intros l Hlp Hls; rewrite !lookup_insert_ne by congruence; reflexivity.
Qed.

(** X18. A worker that finds [has_jobs] up while nothing is queued runs no
    job, whatever the job function would do: it pulls [NULL], which puts
    [has_jobs] back to 0, and goes back to wait.  When it blocks the only
    changes are that semaphore and the worker counted alive. *)
Theorem thread_do_woken_for_nothing
    (call_job : fnptr -> voidptr -> M unit) (fuel : nat) (w : world)
    (t p s : loc) (th : thread) (tp : thpool_) (bs : bsem) :
  heap w !! t = Some (Othread th) ->
  thpool_p th = Some p ->
  heap w !! p = Some (Othpool tp) ->
  threads_keepalive tp <> 0 ->
  queue_rep w (jobqueue_ tp) [] ->
  has_jobs (jobqueue_ tp) = Some s ->
  heap w !! s = Some (Obsem bs) ->
  v bs = 1 ->
  in_int (num_threads_working tp) ->
  wakeups w = [] ->
  (2 <= fuel)%nat ->
  exists w',
    thread_do call_job fuel (Some t) w = Blocked w' /\
    heap w' =
      <[p := Othpool (with_num_threads_alive
                        (wrap (num_threads_alive tp + 1)) tp)]>
        (<[s := Obsem (mk_bsem 0 (mutex_inzed bs) (cond_inzed bs))]> (heap w)).
Proof.
  intros Ht Hth Hp Hkeep Hrep Hs Hbs Hv Hint Hwk Hfuel.
  assert (Hps : p <> s) by congruence.
  set (tp1 := with_num_threads_alive (wrap (num_threads_alive tp + 1)) tp).
  set (w1 := mk_world (<[p := Othpool tp1]> (heap w))
               (mallocs w) (inits w) (wakeups w)
               (trace w ++ [pthread_mutex_lock thcount_lock;
                            pthread_mutex_unlock thcount_lock])).
  assert (Hp1 : heap w1 !! p = Some (Othpool tp1)) by apply lookup_insert_eq.
  assert (Hbs1 : heap w1 !! s = Some (Obsem bs))
    by (cbn; rewrite lookup_insert_ne by congruence; exact Hbs).
  assert (Hrep1 : queue_rep w1 (jobqueue_ tp1) []).
  { apply (queue_rep_agree w w1 _ _ Hrep).
    - intros l Hl. apply elem_of_nil in Hl. contradiction.
    - intros l Hl. cbn. apply lookup_insert_ne. congruence. }
  destruct (thread_do_turn_idle call_job w1 p tp1 s bs Hp1 Hkeep Hrep1 Hs
              Hbs1 Hv Hint)
    as (w2 & Hrun2 & Hp2 & Hbs2 & Hfr2 & Hwk2).
  destruct (bsem_wait_blocked w2 s _ Hbs2) as (w' & Hrun' & Hheap');
    [cbn; discriminate|rewrite Hwk2; exact Hwk|].
  exists w'. split.
  - apply (thread_do_enters call_job fuel w t th p tp w' Ht Hth Hp).
    fold tp1 w1.
    destruct fuel as [|[|fuel]]; [lia|lia|].
    rewrite thread_do_loop_unfold.
    rewrite (bind_Ret _ _ _ _ _ (load_thpool_Ret _ _ _ Hp1)).
    destruct (Z.eqb_spec (threads_keepalive tp1) 0) as [?|_]; [contradiction|].
    cbn [negb]. rewrite (bind_Ret _ _ _ _ _ Hrun2).
    rewrite thread_do_loop_unfold.
    rewrite (bind_Ret _ _ _ _ _ (load_thpool_Ret _ _ _ Hp2)).
    destruct (Z.eqb_spec (threads_keepalive tp1) 0) as [?|_]; [contradiction|].
    cbn [negb]. unfold bind at 1.
    assert (Hturn : thread_do_turn call_job (Some p) w2 = Blocked w').
    { unfold thread_do_turn.
      rewrite (bind_Ret _ _ _ _ _ (load_thpool_Ret _ _ _ Hp2)).
      change (has_jobs (jobqueue_ tp1)) with (has_jobs (jobqueue_ tp)).
      rewrite Hs. unfold bind at 1. rewrite Hrun'. reflexivity. }
    rewrite Hturn. reflexivity.
  - rewrite Hheap'. apply map_eq. intros l.
    destruct (decide (l = p)) as [->|Hlp];
      [rewrite lookup_insert_eq; exact Hp2|].
    rewrite lookup_insert_ne by congruence.
    destruct (decide (l = s)) as [->|Hls];
      [rewrite lookup_insert_eq; exact Hbs2|].
    rewrite lookup_insert_ne by congruence.
    rewrite Hfr2 by assumption. cbn. apply lookup_insert_ne. congruence.
Qed.

(** ** Posting to all waiters of a completion signal *)

(** X19. [dec_bsem_post_all] takes one off the counter as [dec_bsem_post]
    does, modulo 2^32 and without stopping at 0, and leaves the same heap;
    it differs in the wake-up only: it broadcasts at every call, where
    [dec_bsem_post] signals when the counter comes to 0. *)
Theorem dec_bsem_post_all_as_post (w : world) (l : loc) (b : bsem) :
  heap w !! l = Some (Obsem b) ->
  exists w1 w2,
    dec_bsem_post_all (Some l) w = Ret tt w1 /\
    dec_bsem_post (Some l) w = Ret tt w2 /\
    heap w1 = heap w2 /\
    value_at l w1 = Some (wrap (v b - 1)) /\
    trace w1 = trace w ++ [pthread_mutex_lock (bsem_mutex l);
                           pthread_cond_broadcast (bsem_cond l);
                           pthread_mutex_unlock (bsem_mutex l)].
Proof.
  intros H. rewrite (dec_bsem_post_Ret _ _ _ H).
  destruct w as [h ms its ws tr]. cbn [heap] in H.
  unfold dec_bsem_post_all. run_all.
  eexists. eexists. split; [reflexivity|]. split; [reflexivity|].
  cbn. split; [reflexivity|]. split; [|reflexivity].
  unfold value_at. cbn. rewrite lookup_insert_eq. reflexivity.
Qed.

(** * The further theorems at work on small worlds *)

Lemma thpool_add_work_codes_witness :
  (exists w',
      thpool_add_work (Some 1%positive) 5 6 (pool_world [false]) = Ret (-1) w' /\
      heap w' = heap (pool_world [false])) /\
  (exists w' tp' j jb,
      thpool_add_work (Some 1%positive) 5 6 (pool_world [true]) = Ret 0 w' /\
      heap w' !! 1%positive = Some (Othpool tp') /\
      queue_rep w' (jobqueue_ tp') [j] /\
      heap w' !! j = Some (Ojob jb) /\
      signal_ jb = None /\ function jb = 5 /\ arg jb = 6).
Proof.
  assert (Hlt : Z.of_nat (length (@nil loc)) < INT_MAX) by reflexivity.
  split.
  - destruct (thpool_add_work_codes (pool_world [false]) 1%positive pool_0 []
                5 6 eq_refl (pool_world_rep [false]) Hlt) as [Hfail _].
    exact (Hfail eq_refl).
  - destruct (thpool_add_work_codes (pool_world [true]) 1%positive pool_0 []
                5 6 eq_refl (pool_world_rep [true]) Hlt) as [_ Hok].
    destruct (Hok ltac:(discriminate))
      as (w' & tp' & j & jb & Hrun & _ & Hp & Hrep & _ & Hj & Hs & Hf & Ha).
    exists w', tp', j, jb. auto 10.
Defined.

Lemma jobqueue_init_empty_witness :
  (exists w' q',
      jobqueue_init queue_3 (pool_world [false]) = Ret (-1, q') w' /\
      has_jobs q' = None) /\
  (exists w' q',
      jobqueue_init queue_3 (pool_world [true]) = Ret (0, q') w' /\
      queue_rep w' q' [] /\ has_jobs_v w' q' = Some 0).
Proof.
  split.
  - destruct (jobqueue_init_empty (pool_world [false]) queue_3) as [Hfail _].
    destruct (Hfail eq_refl) as (w' & q' & Hrun & _ & Hs & _).
    exists w', q'. auto.
  - destruct (jobqueue_init_empty (pool_world [true]) queue_3) as [_ Hok].
    destruct (Hok ltac:(discriminate))
      as (w' & q' & s & Hrun & _ & _ & Hrep & Hv & _).
    exists w', q'. auto.
Defined.

Lemma bsem_reset_zero_witness :
  exists w',
    bsem_reset (Some 1%positive) (signal_world 5 []) = Ret tt w' /\
    value_at 1%positive w' = Some 0.
Proof.
  destruct (bsem_reset_zero (signal_world 5 []) 1%positive
              (mk_bsem 5 true true) eq_refl)
    as (w' & mi & ci & Hrun & Hheap & _).
  exists w'. split; [exact Hrun|].
  unfold value_at. rewrite Hheap, lookup_insert_eq. reflexivity.
Defined.

Lemma jobqueue_clear_frees_witness :
  exists w',
    jobqueue_clear queue_3 queue_world =
      Ret (mk_jobqueue None None (Some 2%positive) 0 true) w' /\
    heap w' !! 3%positive = None /\
    heap w' !! 4%positive = heap queue_world !! 4%positive.
Proof.
  destruct (jobqueue_clear_frees queue_world queue_3 [3%positive]
              queue_world_rep)
    as (w' & Hrun & _ & Hfreed & Hkept & _).
  exists w'. split; [exact Hrun|].
  split.
  - apply Hfreed. left.
  - apply Hkept.
    + intros Hin. apply list_elem_of_singleton in Hin. discriminate.
    + discriminate.
Defined.

Lemma jobqueue_destroy_releases_witness :
  exists w',
    jobqueue_destroy queue_3 queue_world =
      Ret (mk_jobqueue None None (Some 2%positive) 0 true) w' /\
    heap w' !! 2%positive = None /\
    heap w' !! 3%positive = None /\
    heap w' !! 4%positive = Some (Ojob (mk_job None 40 41 None)).
Proof.
  destruct (jobqueue_destroy_releases queue_world queue_3 [3%positive]
              2%positive queue_world_rep eq_refl)
    as (w' & Hrun & Hheap & _).
  exists w'. split; [exact Hrun|]. rewrite Hheap.
  repeat split; vm_compute; reflexivity.
Defined.

Lemma completion_signal_released_iff_witness :
  (exists w',
      (el ← thpool_decsem_init 2; posts 2 el;; thpool_wait_cond el)
        (pool_world []) = Ret tt w' /\
      heap w' = heap (pool_world [])) /\
  (exists w',
      (el ← thpool_decsem_init 2; posts 1 el;; thpool_wait_cond el)
        (pool_world []) = Blocked w').
Proof.
  split.
  - destruct (completion_signal_released_iff (pool_world []) 2 2) as [Hret _].
    + discriminate.
    + vm_compute. split; discriminate.
    + vm_compute. discriminate.
    + reflexivity.
    + apply Hret. reflexivity.
  - destruct (completion_signal_released_iff (pool_world []) 2 1) as [_ Hblock].
    + discriminate.
    + vm_compute. split; discriminate.
    + vm_compute. discriminate.
    + reflexivity.
    + apply Hblock. discriminate.
Defined.

Lemma thread_init_outcome_witness :
  thread_init two_of_four (Some 1%positive) (Some 2%positive) 1 7 1
    (array_world [false]) = Fault /\
  exists t w',
    thread_init two_of_four (Some 1%positive) (Some 2%positive) 1 7 1
      (array_world [true]) = Ret 0 w' /\
    heap w' !! 2%positive = Some (Othreads [None; Some t]) /\
    trace w' = [pthread_create t; stick_call t 1; pthread_setaffinity_np t 1;
                pthread_detach t].
Proof.
  assert (Hn : 0 <= 1 < Z.of_nat (length [@None loc; None]))
    by (vm_compute; split; [discriminate|reflexivity]).
  split.
  - destruct (thread_init_outcome two_of_four 1%positive 2%positive 1 7 1
                [None; None] (array_world [false]) eq_refl Hn) as [Hfail _].
    exact (Hfail eq_refl).
  - destruct (thread_init_outcome two_of_four 1%positive 2%positive 1 7 1
                [None; None] (array_world [true]) eq_refl Hn) as [_ Hok].
    destruct (Hok ltac:(discriminate))
      as (t & w' & Hrun & _ & _ & Harr & Htr).
    exists t, w'. split; [exact Hrun|]. split; [exact Harr|exact Htr].
Defined.

Lemma thpool_init_failure_clean_witness :
  exists w',
    thpool_init two_of_four 3 scarce_world = Ret None w' /\
    heap w' = heap scarce_world.
Proof.
  destruct (thpool_init_failure_clean two_of_four 3 scarce_world eq_refl)
    as (w' & tr & msg & Hrun & Hheap & _).
  exists w'. split; [exact Hrun|exact Hheap].
Defined.


Lemma thpool_wait_until_idle_witness :
  (exists w' tp',
     thpool_wait (Some 1%positive) [(1, 1); (0, 1); (0, 0); (2, 1)]
       loaded_world = Ret tt w' /\
     heap w' !! 1%positive = Some (Othpool tp') /\
     len (jobqueue_ tp') = 0 /\ num_threads_working tp' = 0 /\
     heap w' !! 6%positive = heap loaded_world !! 6%positive /\
     trace w' =
       [pthread_mutex_lock thcount_lock;
        pthread_cond_wait threads_all_idle thcount_lock;
        pthread_cond_wait threads_all_idle thcount_lock;
        pthread_cond_wait threads_all_idle thcount_lock;
        pthread_mutex_unlock thcount_lock]) /\
  (exists w',
     thpool_wait (Some 1%positive) [(1, 1); (0, 2)] loaded_world
       = Blocked w') /\
  (exists w',
     thpool_wait (Some 1%positive) [] (pool_world []) = Ret tt w').
Proof.
  split; [|split].
  - destruct (thpool_wait_until_idle loaded_world 1%positive loaded_pool
                [(1, 1); (0, 1); (0, 0); (2, 1)] eq_refl) as [Hret _].
    destruct Hret as (w' & tp' & Hrun & Hp & Hlen & Hwork & Hframe & _);
      [right; right; right; left|].
    exists w', tp'. split; [exact Hrun|].
    split; [exact Hp|]. split; [exact Hlen|]. split; [exact Hwork|].
    split; [apply Hframe; discriminate|].
    vm_compute in Hrun. injection Hrun as <-. reflexivity.
  - destruct (thpool_wait_until_idle loaded_world 1%positive loaded_pool
                [(1, 1); (0, 2)] eq_refl) as [_ Hblock].
    apply Hblock. cbn [loaded_pool jobqueue_ len num_threads_working].
    rewrite !not_elem_of_cons.
    repeat split; try discriminate. apply not_elem_of_nil.
  - destruct (thpool_wait_until_idle (pool_world []) 1%positive pool_0 []
                eq_refl) as [Hret _].
    destruct Hret as (w' & _ & Hrun & _); [left|].
    exists w'. exact Hrun.
Defined.

Lemma pool_3_world_rep : queue_rep pool_3_world (jobqueue_ pool_3) [].
Proof.
  unfold queue_rep. repeat split; try reflexivity.
  - vm_compute. discriminate.
  - constructor.
Qed.

Lemma pool_3_world_threads t :
  t ∈ [4%positive; 5%positive; 6%positive] ->
  exists th, heap pool_3_world !! t = Some (Othread th).
Proof.
  intros Ht. rewrite !elem_of_cons in Ht.
  destruct Ht as [->|[->|[->|Ht]]];
    [eexists; reflexivity..|apply elem_of_nil in Ht; contradiction].
Qed.

Lemma pool_3_threads_NoDup : NoDup [4%positive; 5%positive; 6%positive].
Proof. apply (bool_decide_unpack _). vm_compute. exact I. Qed.

Lemma thpool_destroy_releases_witness :
  (exists w',
      thpool_destroy (Some 1%positive) [(true, 1); (false, 0)] pool_3_world
        = Ret tt w' /\
      heap w' !! 1%positive = None /\
      heap w' !! 5%positive = None) /\
  (exists w',
      thpool_destroy (Some 1%positive) [(true, 1)] pool_3_world = Blocked w').
Proof.
  assert (Hn : 0 <= num_threads_alive pool_3 <=
               Z.of_nat (length [4%positive; 5%positive; 6%positive]))
    by (vm_compute; split; discriminate).
  assert (Hmax : num_threads_alive pool_3 <= INT_MAX)
    by (vm_compute; discriminate).
  split.
  - destruct (thpool_destroy_releases pool_3_world 1%positive 3%positive
                2%positive pool_3 [4%positive; 5%positive; 6%positive] []
                [(true, 1); (false, 0)] eq_refl eq_refl eq_refl
                pool_3_world_rep eq_refl Hn Hmax pool_3_threads_NoDup
                pool_3_world_threads) as [Hret _].
    destruct Hret as (w' & Hrun & Hheap); [do 2 right; left|].
    exists w'. split; [exact Hrun|].
    rewrite Hheap. split; vm_compute; reflexivity.
  - destruct (thpool_destroy_releases pool_3_world 1%positive 3%positive
                2%positive pool_3 [4%positive; 5%positive; 6%positive] []
                [(true, 1)] eq_refl eq_refl eq_refl
                pool_3_world_rep eq_refl Hn Hmax pool_3_threads_NoDup
                pool_3_world_threads) as [_ Hblock].
    apply Hblock. cbn. rewrite !not_elem_of_cons.
    repeat split; try discriminate. apply not_elem_of_nil.
Defined.

Lemma thpool_init_destroy_round_trip_witness :
  exists w',
    (p ← thpool_init two_of_four 3; thpool_destroy p [(true, 0)]) empty_world
      = Ret tt w' /\
    heap w' = heap empty_world.
Proof.
  apply (thpool_init_destroy_round_trip two_of_four 3 empty_world [(true, 0)]).
  - vm_compute. split; discriminate.
  - reflexivity.
  - right. right. left.
  - right. left.
Defined.

Lemma thread_do_exits_when_not_kept_alive_witness :
  exists w',
    thread_do idle_job 1 (Some 4%positive) stopped_world = Ret None w' /\
    heap w' = heap stopped_world.
Proof.
  destruct (thread_do_exits_when_not_kept_alive idle_job 1 stopped_world
              4%positive 1%positive (mk_thread 0 (Some 1%positive))
              stopped_pool eq_refl eq_refl eq_refl eq_refl)
    as (w' & Hrun & Hheap & _).
  - vm_compute. split; discriminate.
  - exists w'. split; [exact Hrun|exact Hheap].
Defined.



Lemma thpool_decsem_init_outcomes_witness :
  thpool_decsem_init 2 (pool_world [false]) = Fault /\
  (exists w' l x,
      thpool_decsem_init (-1) (pool_world [true]) = Exited 1 w' /\
      heap (pool_world [true]) !! l = None /\
      heap w' !! l = Some (Obsem (mk_bsem x false false))) /\
  (exists w' l,
      thpool_decsem_init 2 (pool_world [true]) = Ret (Some l) w' /\
      value_at l w' = Some 2).
Proof.
  destruct (thpool_decsem_init_outcomes (pool_world [false]) 2) as [Hfail _].
  destruct (thpool_decsem_init_outcomes (pool_world [true]) (-1))
    as (_ & Hneg & _).
  destruct (thpool_decsem_init_outcomes (pool_world [true]) 2)
    as (_ & _ & Hok).
  split; [exact (Hfail eq_refl)|]. split.
  - destruct Hneg as (w' & l & x & msg & Hrun & Hfresh & Hheap & _);
      [discriminate|reflexivity|].
    exists w', l, x. split; [exact Hrun|]. split; [exact Hfresh|].
    rewrite Hheap. apply lookup_insert_eq.
  - destruct Hok as (w' & l & mi & ci & Hrun & _ & Hheap & _);
      [discriminate|discriminate|].
    exists w', l. split; [exact Hrun|].
    unfold value_at. rewrite Hheap, lookup_insert_eq. reflexivity.
Defined.


Lemma ready_world_rep x : queue_rep (ready_world x) (jobqueue_ pool_0) [].
Proof.
  unfold queue_rep. repeat split; try reflexivity.
  - vm_compute. discriminate.
  - constructor.
Qed.

Lemma signalled_jobs_complete_witness :
  exists el w1 w2 w3,
    (el ← thpool_decsem_init 2;
     submit_all (Some 1%positive) el [(30, 31); (50, 51)];;
     ret el) (ready_world 0) = Ret el w1 /\
    thread_do idle_job 3 (Some 4%positive) w1 = Blocked w2 /\
    thpool_wait_cond el w2 = Ret tt w3 /\
    heap w3 !! 4%positive = heap (ready_world 0) !! 4%positive.
Proof.
  destruct (signalled_jobs_complete idle_job 3 (ready_world 0) 4%positive
              1%positive 2%positive (mk_thread 0 (Some 1%positive)) pool_0
              [(30, 31); (50, 51)] eq_refl eq_refl eq_refl)
    as (el & w1 & w2 & w3 & q' & Hrun1 & Hrun2 & Hrun3 & _ & _ & Hkept).
  - discriminate.
  - exact (ready_world_rep 0).
  - reflexivity.
  - reflexivity.
  - vm_compute. split; discriminate.
  - reflexivity.
  - reflexivity.
  - vm_compute. discriminate.
  - cbn. lia.
  - intros f a _ w1. exists w1. auto.
  - exists el, w1, w2, w3. split; [exact Hrun1|]. split; [exact Hrun2|].
    split; [exact Hrun3|]. apply Hkept; discriminate.
Defined.

Lemma thread_do_woken_for_nothing_witness :
  exists w',
    thread_do idle_job 2 (Some 4%positive) (ready_world 1) = Blocked w' /\
    value_at 2%positive w' = Some 0.
Proof.
  destruct (thread_do_woken_for_nothing idle_job 2 (ready_world 1) 4%positive
              1%positive 2%positive (mk_thread 0 (Some 1%positive)) pool_0
              (mk_bsem 1 true true) eq_refl eq_refl eq_refl)
    as (w' & Hrun & Hheap).
  - discriminate.
  - exact (ready_world_rep 1).
  - reflexivity.
  - reflexivity.
  - reflexivity.
  - vm_compute. split; discriminate.
  - reflexivity.
  - lia.
  - exists w'. split; [exact Hrun|].
    unfold value_at. rewrite Hheap. reflexivity.
Defined.

Lemma dec_bsem_post_all_as_post_witness :
  exists w1,
    dec_bsem_post_all (Some 1%positive) (signal_world 0 []) = Ret tt w1 /\
    value_at 1%positive w1 = Some (-1).
Proof.
  destruct (dec_bsem_post_all_as_post (signal_world 0 []) 1%positive
              (mk_bsem 0 true true) eq_refl)
    as (w1 & w2 & Hrun & _ & _ & Hv & _).
  exists w1. split; [exact Hrun|exact Hv].
Defined.
